(** * nuoi-dev: the hybrid record store and its collection repositories

    A shallow embedding of the data-access module ("Hybrid database: Vercel
    KV for production, JSON files for local dev"): the record store, the
    collection repositories and the derived-state helpers, with the
    properties the written specification states about them, followed by
    properties of the same functions, of the remaining repositories
    (leaderboard, users, chat timeline, daily vote count), of the
    migration script and of the upload route, read off the code.

    Conventions of the embedding.

    - The interfaces [Profile], [User], [Post], [ChatMessage] and [Vote] and
      the type [Rank] that the module imports are TypeScript types, erased
      at run time.  The functions only touch the properties they name
      ([id], [votes], [rank], [updatedAt], [isPinned], [createdAt], [likes],
      [voterId], [profileId]) and copy every other property, so an entity
      is an object with arbitrary properties; [Rank] is the set of the
      seven strings [calculateRank] returns.
    - JavaScript values that can live in a stored document are JSON values
      ([json]).  Numbers are the integral ones, carried as [Z]; the code only
      counts and increments, and the increment of a stored number is rounded
      to the nearest double ([round_double]).  A JavaScript object is a
      finite map from
      property names to values; a missing property reads as [undefined],
      which is [None] here.
    - The file system is a map from paths to file contents.  A file written
      with [JSON.stringify] and read with [JSON.parse] is represented by the
      JSON value its text denotes, so malformed files are not part of the
      model.
    - The module-level variables ([isVercel], [kv], [memoryStore]) and the
      file system form the [state]; every function threads it explicitly.
    - The clock ([new Date()]) is an argument of the functions that read it.
    - Repository functions run in the monad [M]: [None] stands for an
      exception ([TypeError]) or for a stored document that does not have
      the TypeScript type the function declares for it.
    - The migration script sees the data directory and the remote store;
      whether the remote store accepts a key is a parameter of its model.
      The upload route sees the blob store and the uploads directory; what
      the platform answers during a request is a parameter of its model. *)

From Stdlib Require Import ZArith Lia Permutation Ascii String.
From stdpp Require Import gmap strings list fin_maps sorting.

#[local] Set Warnings "-register-all".
#[local] Open Scope Z_scope.

(** ** JSON values *)

Inductive json :=
| JNull
| JBool (b : bool)
| JNum (n : Z)
| JStr (s : string)
| JArr (xs : list json)
| JObj (fields : gmap string json).

(** A [Profile], [User], [Post], [ChatMessage] or [Vote] at run time: a
    JavaScript object, from which the functions below read the properties
    they need. *)
Abbreviation entity := (gmap string json).

(** [ToBoolean]: the falsy JSON values are [null], [false], [0] and [""]. *)
Definition truthy (v : json) : bool :=
  match v with
  | JNull => false
  | JBool b => b
  | JNum n => negb (n =? 0)
  | JStr s => negb (String.eqb s "")
  | JArr _ | JObj _ => true
  end.

(** [x || d] where [x] may be [undefined]. *)
Definition or_default (x : option json) (d : json) : json :=
  match x with
  | Some v => if truthy v then v else d
  | None => d
  end.

(** [x === s] for a string [s]. *)
Definition is_str (x : option json) (s : string) : bool :=
  match x with
  | Some (JStr t) => String.eqb t s
  | _ => false
  end.

Definition as_object (v : json) : option entity :=
  match v with JObj m => Some m | _ => None end.

(** ** The state of the module *)

Record state := State {
  isVercel : bool;                    (* process.env.VERCEL, fixed at load time *)
  kv : bool;                          (* whether the KV client could be loaded *)
  dataDirExists : bool;               (* fs.existsSync(DATA_DIR) *)
  files : gmap string json;           (* path |-> content of the file *)
  memoryStore : gmap string json;     (* const memoryStore = new Map() *)
  kvRequests : list (string * json)   (* kv.set requests issued so far *)
}.

Definition set_dataDirExists (b : bool) (s : state) : state :=
  State (isVercel s) (kv s) b (files s) (memoryStore s) (kvRequests s).
Definition set_files (f : gmap string json) (s : state) : state :=
  State (isVercel s) (kv s) (dataDirExists s) f (memoryStore s) (kvRequests s).
Definition set_memoryStore (m : gmap string json) (s : state) : state :=
  State (isVercel s) (kv s) (dataDirExists s) (files s) m (kvRequests s).
Definition set_kvRequests (q : list (string * json)) (s : state) : state :=
  State (isVercel s) (kv s) (dataDirExists s) (files s) (memoryStore s) q.

(** [fs] and [path] are loaded exactly when the process is not hosted
    (lines 22-27), so they are not independent of [isVercel]. *)
Definition fs (s : state) : bool := negb (isVercel s).
Definition path (s : state) : bool := negb (isVercel s).

Definition DATA_DIR (s : state) : string :=
  if isVercel s then "" else "data".

Definition ensureDataDir (s : state) : state :=
  if negb (isVercel s) && fs s && negb (dataDirExists s)
  then set_dataDirExists true s
  else s.

Definition getFilePath (s : state) (name : string) : string :=
  if negb (path s) then ""
  else DATA_DIR s +:+ "/" +:+ name +:+ ".json".

(** ** Record store *)

(** Outcome of the remote [kv.get] of [readDataAsync]. *)
Inductive kv_reply :=
| KvValue (v : option json)   (* the stored value, or null *)
| KvError.                    (* the call rejected *)

Definition readDataAsync (reply : kv_reply) (name : string) (defaultValue : json)
    (s : state) : json * state :=
  if isVercel s && kv s then
    match reply with
    | KvValue data => (or_default data defaultValue, s)
    | KvError => (or_default (memoryStore s !! name) defaultValue, s)
    end
  else if fs s then
    let s := ensureDataDir s in
    let filePath := getFilePath s name in
    match files s !! filePath with
    | None => (defaultValue, set_files (<[filePath := defaultValue]> (files s)) s)
    | Some data => (data, s)
    end
  else (or_default (memoryStore s !! name) defaultValue, s).

Definition readData (name : string) (defaultValue : json) (s : state)
    : json * state :=
  if isVercel s then (or_default (memoryStore s !! name) defaultValue, s)
  else if fs s then
    let s := ensureDataDir s in
    let filePath := getFilePath s name in
    match files s !! filePath with
    | None => (defaultValue, set_files (<[filePath := defaultValue]> (files s)) s)
    | Some data => (data, s)
    end
  else (defaultValue, s).

(** The part of [writeDataAsync] that runs before its first [await]: in
    hosted mode the request is handed to the client and the function
    suspends; the other branches run to completion. *)
Definition writeDataAsync (name : string) (data : json) (s : state) : state :=
  if isVercel s && kv s then
    set_kvRequests (kvRequests s ++ [(name, data)]) s
  else if fs s then
    let s := ensureDataDir s in
    set_files (<[getFilePath s name := data]> (files s)) s
  else set_memoryStore (<[name := data]> (memoryStore s)) s.

(** The rest of [writeDataAsync] in hosted mode, run when the request
    settles: the [try] and the [catch] branch both put the object the
    request was made with back into the cache.  The cache holds that
    object, not a copy of it: [data] is what the object holds when the
    request settles, and this is what it held when the request was made
    only if nobody has changed the object in place since.  The repositories
    change the object the cache hands out ([createProfile], [likePost],
    ...); [deleteProfile] and [deletePost] leave it as it is and write a
    new one. *)
Definition writeDataAsync_resume (name : string) (data : json) (s : state) : state :=
  set_memoryStore (<[name := data]> (memoryStore s)) s.

Definition writeData (name : string) (data : json) (s : state) : state :=
  if isVercel s then
    writeDataAsync name data (set_memoryStore (<[name := data]> (memoryStore s)) s)
  else if fs s then
    let s := ensureDataDir s in
    set_files (<[getFilePath s name := data]> (files s)) s
  else set_memoryStore (<[name := data]> (memoryStore s)) s.

(** Calls on the record store, to speak about what happens between two of
    them. *)
Inductive call :=
| CallRead (name : string) (defaultValue : json)
| CallReadAsync (reply : kv_reply) (name : string) (defaultValue : json)
| CallWrite (name : string) (data : json).

Definition run_call (c : call) (s : state) : state :=
  match c with
  | CallRead name d => snd (readData name d s)
  | CallReadAsync r name d => snd (readDataAsync r name d s)
  | CallWrite name data => writeData name data s
  end.

Definition run_calls (cs : list call) (s : state) : state :=
  foldl (fun s c => run_call c s) s cs.

Definition writes_to (name : string) (c : call) : bool :=
  match c with
  | CallWrite n _ => String.eqb n name
  | _ => false
  end.

(** A collection nobody has read or written yet. *)
Definition unseen (name : string) (s : state) : Prop :=
  if isVercel s then memoryStore s !! name = None
  else files s !! getFilePath s name = None.

(** ** Derived-state helpers *)

(** The seven strings [calculateRank] returns. *)
Inductive Rank := bronze | silver | gold | platinum | diamond | master | legend.

Definition calculateRank (votes : Z) : Rank :=
  if votes >=? 1000 then legend
  else if votes >=? 500 then master
  else if votes >=? 200 then diamond
  else if votes >=? 100 then platinum
  else if votes >=? 50 then gold
  else if votes >=? 20 then silver
  else bronze.

(** The string a [Rank] is at run time. *)
Definition Rank_string (r : Rank) : string :=
  match r with
  | bronze => "bronze" | silver => "silver" | gold => "gold"
  | platinum => "platinum" | diamond => "diamond" | master => "master"
  | legend => "legend"
  end.

(** ** JavaScript array and string helpers *)

Section Arrays.
Context {A : Type}.

(** [l.findIndex(f)], with [None] for -1. *)
Fixpoint findIndex (f : A → bool) (l : list A) : option nat :=
  match l with
  | [] => None
  | x :: l' => if f x then Some 0%nat else S <$> findIndex f l'
  end.

(** [l.slice(-n)]. *)
Definition slice_last (n : nat) (l : list A) : list A :=
  drop (length l - n) l.

(** [l.some(f)] for a callback that may throw; it stops at the first hit. *)
Fixpoint some (f : A → option bool) (l : list A) : option bool :=
  match l with
  | [] => Some false
  | x :: l' =>
      match f x with
      | None => None
      | Some true => Some true
      | Some false => some f l'
      end
  end.

(** [l.sort(cmp)].  ECMAScript asks for a stable sort, and for a
    consistent comparator the stable sorted arrangement is unique
    ([sort_unique] below); it is computed here by insertion from the right,
    an element going in front of the first one it does not have to follow.
    For an inconsistent comparator the order is implementation-defined. *)
Fixpoint sort_insert (cmp : A → A → Z) (x : A) (l : list A) : list A :=
  match l with
  | [] => [x]
  | y :: l' => if cmp x y <=? 0 then x :: y :: l' else y :: sort_insert cmp x l'
  end.

Definition sort (cmp : A → A → Z) (l : list A) : list A :=
  foldr (sort_insert cmp) [] l.
End Arrays.

(** [s.split('T')[0]]. *)
Fixpoint split_T_0 (s : string) : string :=
  match s with
  | EmptyString => EmptyString
  | String c r => if Ascii.eqb c "T"%char then EmptyString else String c (split_T_0 r)
  end.

(** [c.startsWith(t)]. *)
Definition startsWith (c t : string) : bool := String.prefix t c.

(** ** The repository monad *)

Definition M (A : Type) : Type := state → option (A * state).

Definition ret {A} (a : A) : M A := fun s => Some (a, s).
Definition bind {A B} (m : M A) (k : A → M B) : M B :=
  fun s => match m s with Some (a, s') => k a s' | None => None end.
Definition typed {A} (o : option A) : M A :=
  fun s => match o with Some a => Some (a, s) | None => None end.

Notation "'let*' x ':=' m 'in' k" := (bind m (fun x => k))
  (at level 10, x pattern, m at level 100, k at level 200, only parsing).

Definition readDataM (name : string) (defaultValue : json) : M json :=
  fun s => Some (readData name defaultValue s).
Definition writeDataM (name : string) (data : json) : M unit :=
  fun s => Some (tt, writeData name data s).

(** The document [{ key: [...entities] }]. *)
Definition collection_doc (key : string) (es : list entity) : json :=
  JObj {[ key := JArr (JObj <$> es) ]}.

(** [data.key], declared to be an array of entities. *)
Definition get_list (key : string) (data : json) : option (list entity) :=
  match data with
  | JObj m =>
      match m !! key with
      | Some (JArr xs) => mapM as_object xs
      | _ => None
      end
  | _ => None
  end.

(** [data] after its array [data.key] was changed in place to [es]. *)
Definition set_list (key : string) (es : list entity) (data : json) : json :=
  match data with
  | JObj m => JObj (<[key := JArr (JObj <$> es)]> m)
  | _ => data
  end.

(** An object handed out by [readData name _] was changed in place and not
    written back.  In hosted mode a cache hit hands out the cached object
    itself, so the change shows in the store; a default and a parsed file
    are private to the caller. *)
Definition mutated (name : string) (data : json) : M unit :=
  fun s =>
    if isVercel s && match memoryStore s !! name with
                     | Some v => truthy v
                     | None => false
                     end
    then Some (tt, set_memoryStore (<[name := data]> (memoryStore s)) s)
    else Some (tt, s).

(** ** Profiles *)

Definition id_is (id : string) (p : entity) : bool := is_str (p !! "id") id.

Definition getAllProfiles : M (list entity) :=
  let* data := readDataM "profiles" (collection_doc "profiles" []) in
  typed (get_list "profiles" data).

Definition getProfileById (id : string) : M (option entity) :=
  let* profiles := getAllProfiles in
  ret (List.find (id_is id) profiles).

Definition createProfile (profile : entity) : M entity :=
  let* data := readDataM "profiles" (collection_doc "profiles" []) in
  let* profiles := typed (get_list "profiles" data) in
  let* _ := writeDataM "profiles" (set_list "profiles" (profiles ++ [profile]) data) in
  ret profile.

(** [now] is [new Date().toISOString()] at the time of the call. *)
Definition updateProfile (now : string) (id : string) (updates : entity)
    : M (option entity) :=
  let* data := readDataM "profiles" (collection_doc "profiles" []) in
  let* profiles := typed (get_list "profiles" data) in
  match findIndex (id_is id) profiles with
  | None => ret None
  | Some index =>
      let* old := typed (profiles !! index) in
      let merged := <["updatedAt" := JStr now]> (updates ∪ old) in
      let data := set_list "profiles" (<[index := merged]> profiles) data in
      let* _ := writeDataM "profiles" data in
      ret (Some merged)
  end.

Definition deleteProfile (id : string) : M bool :=
  let* data := readDataM "profiles" (collection_doc "profiles" []) in
  let* profiles := typed (get_list "profiles" data) in
  let filtered := List.filter (fun p => negb (id_is id p)) profiles in
  if (length filtered =? length profiles)%nat then ret false
  else
    let* _ := writeDataM "profiles" (collection_doc "profiles" filtered) in
    ret true.

(** ** Posts *)

(** A decimal digit, and a string of decimal digits read as a number. *)
Definition digit (c : ascii) : option Z :=
  let n := Z.of_nat (nat_of_ascii c) in
  if (48 <=? n) && (n <=? 57) then Some (n - 48) else None.

Fixpoint digits (acc : Z) (s : string) : option Z :=
  match s with
  | EmptyString => Some acc
  | String c r => d ← digit c; digits (10 * acc + d) r
  end.

Definition days_in_month (y m : Z) : Z :=
  if m =? 2 then
    if ((y mod 4 =? 0) && negb (y mod 100 =? 0)) || (y mod 400 =? 0) then 29 else 28
  else if (m =? 4) || (m =? 6) || (m =? 9) || (m =? 11) then 30
  else 31.

(** Days from 1970-01-01 to the given civil date. *)
Definition days_from_civil (y m d : Z) : Z :=
  let y := if m <=? 2 then y - 1 else y in
  let era := y / 400 in
  let yoe := y - era * 400 in
  let doy := (153 * (if m >? 2 then m - 3 else m + 9) + 2) / 5 + d - 1 in
  let doe := yoe * 365 + yoe / 4 - yoe / 100 + doy in
  era * 146097 + doe - 719468.

(** [new Date(s).getTime()] on the strings [toISOString] produces, a valid
    UTC instant written [YYYY-MM-DDTHH:mm:ss.sssZ]; [None] is [NaN], and
    is also the answer here for every string of another form.  The
    repository functions take the platform's parser as a parameter and
    their properties hold for every parser; this one serves to run them on
    the sample posts. *)
Definition iso_getTime (s : string) : option Z :=
  if (String.length s =? 24)%nat
     && String.eqb (substring 4 1 s) "-" && String.eqb (substring 7 1 s) "-"
     && String.eqb (substring 10 1 s) "T" && String.eqb (substring 13 1 s) ":"
     && String.eqb (substring 16 1 s) ":" && String.eqb (substring 19 1 s) "."
     && String.eqb (substring 23 1 s) "Z"
  then
    y ← digits 0 (substring 0 4 s);
    m ← digits 0 (substring 5 2 s);
    d ← digits 0 (substring 8 2 s);
    hh ← digits 0 (substring 11 2 s);
    mm ← digits 0 (substring 14 2 s);
    ss ← digits 0 (substring 17 2 s);
    ms ← digits 0 (substring 20 3 s);
    if (1 <=? m) && (m <=? 12) && (1 <=? d) && (d <=? days_in_month y m)
       && (hh <=? 23) && (mm <=? 59) && (ss <=? 59)
    then Some (days_from_civil y m d * 86400000
               + hh * 3600000 + mm * 60000 + ss * 1000 + ms)
    else None
  else None.

Definition has_string (key : string) (e : entity) : bool :=
  match e !! key with Some (JStr _) => true | _ => false end.

Definition isPinned (p : entity) : bool :=
  match p !! "isPinned" with Some v => truthy v | None => false end.

Section Posts.
(** [s => new Date(s).getTime()], with [None] for [NaN]. *)
Variable Date_getTime : string → option Z.

Definition createdAt_time (p : entity) : option Z :=
  match p !! "createdAt" with
  | Some (JStr s) => Date_getTime s
  | _ => None
  end.

(** The comparator of [getAllPosts]; a [NaN] result counts as 0 in
    [sort]. *)
Definition comparePosts (a b : entity) : Z :=
  if isPinned a && negb (isPinned b) then -1
  else if negb (isPinned a) && isPinned b then 1
  else
    match createdAt_time b, createdAt_time a with
    | Some tb, Some ta => tb - ta
    | _, _ => 0
    end.

(** [Post.createdAt] is declared a string; a stored post without one is
    outside the declared type. *)
Definition getAllPosts : M (list entity) :=
  let* data := readDataM "posts" (collection_doc "posts" []) in
  let* posts := typed (get_list "posts" data) in
  let* _ := typed (if forallb (has_string "createdAt") posts
                   then Some tt else None) in
  let sorted := sort comparePosts posts in
  let* _ := mutated "posts" (set_list "posts" sorted data) in
  ret sorted.

Definition getPostById (id : string) : M (option entity) :=
  let* posts := getAllPosts in
  ret (List.find (id_is id) posts).

(** The posts with pinned flag [pin] created at time [t]: the comparator
    does not tell them apart. *)
Definition same_rank (pin : bool) (t : Z) (p : entity) : bool :=
  Bool.eqb (isPinned p) pin &&
  match createdAt_time p with Some t' => t' =? t | None => false end.
End Posts.

Definition createPost (post : entity) : M entity :=
  let* data := readDataM "posts" (collection_doc "posts" []) in
  let* posts := typed (get_list "posts" data) in
  let* _ := writeDataM "posts" (set_list "posts" (posts ++ [post]) data) in
  ret post.

Definition deletePost (id : string) : M bool :=
  let* data := readDataM "posts" (collection_doc "posts" []) in
  let* posts := typed (get_list "posts" data) in
  let filtered := List.filter (fun p => negb (id_is id p)) posts in
  if (length filtered =? length posts)%nat then ret false
  else
    let* _ := writeDataM "posts" (collection_doc "posts" filtered) in
    ret true.

(** [Number.MAX_SAFE_INTEGER], 2^53 - 1: up to it, in absolute value, the
    doubles that hold integers are one apart. *)
Definition MAX_SAFE_INTEGER : Z := 9007199254740991.

(** The double nearest to the integer [x], a tie going to the one with the
    even significand: what an arithmetic operation on numbers returns for
    the exact result [x] (of absolute value below 2^1024).  A double has 53
    significant bits: an integer up to 2^53 in absolute value is a double,
    a larger one is rounded to a multiple of 2^[e] that has 53 bits in
    front of its last [e]. *)
Definition round_double (x : Z) : Z :=
  let m := Z.abs x in
  if m <=? MAX_SAFE_INTEGER then x
  else
    let e := Z.log2 m - 52 in
    let q := Z.shiftr m e in
    let r := m - Z.shiftl q e in
    let half := Z.shiftl 1 (e - 1) in
    let q := if (half <? r) || ((r =? half) && Z.odd q) then q + 1 else q in
    Z.sgn x * Z.shiftl q e.

(** [(x || 0) + 1] on a field declared [number | undefined]: the sum of two
    doubles is the double nearest to the exact sum.  On other truthy values
    [+] is not an addition of numbers. *)
Definition or_zero_plus_one (x : option json) : option Z :=
  match or_default x (JNum 0) with
  | JNum n => Some (round_double (n + 1))
  | _ => None
  end.

Definition likePost (id : string) : M (option entity) :=
  let* data := readDataM "posts" (collection_doc "posts" []) in
  let* posts := typed (get_list "posts" data) in
  match findIndex (id_is id) posts with
  | None => ret None
  | Some index =>
      let* post := typed (posts !! index) in
      let* likes := typed (or_zero_plus_one (post !! "likes")) in
      let post := <["likes" := JNum likes]> post in
      let data := set_list "posts" (<[index := post]> posts) data in
      let* _ := writeDataM "posts" data in
      ret (Some post)
  end.

(** ** Chat *)

Definition addChatMessage (message : entity) : M entity :=
  let* data := readDataM "chat" (collection_doc "messages" []) in
  let* messages := typed (get_list "messages" data) in
  let messages := messages ++ [message] in
  let messages :=
    if (500 <? length messages)%nat then slice_last 500 messages else messages in
  let* _ := writeDataM "chat" (set_list "messages" messages data) in
  ret message.

(** ** Votes *)

Definition getVotes : M (list entity) :=
  let* data := readDataM "votes" (collection_doc "votes" []) in
  typed (get_list "votes" data).

Definition addVote (vote : entity) : M entity :=
  let* data := readDataM "votes" (collection_doc "votes" []) in
  let* votes := typed (get_list "votes" data) in
  let* _ := writeDataM "votes" (set_list "votes" (votes ++ [vote]) data) in
  ret vote.

Definition votes_for (profileId : string) (votes : list entity) : list entity :=
  List.filter (fun v => is_str (v !! "profileId") profileId) votes.

Definition getVotesForProfile (profileId : string) : M Z :=
  let* votes := getVotes in
  ret (Z.of_nat (length (votes_for profileId votes))).

(** The callback of [hasVotedToday]; [startsWith] is reached only for a
    vote of this voter for this profile, and throws unless [createdAt] is a
    string. *)
Definition voted_on (today visitorId profileId : string) (v : entity)
    : option bool :=
  if is_str (v !! "voterId") visitorId && is_str (v !! "profileId") profileId
  then match v !! "createdAt" with
       | Some (JStr c) => Some (startsWith c today)
       | _ => None
       end
  else Some false.

(** [now] is [new Date().toISOString()] at the time of the call. *)
Definition hasVotedToday (now : string) (visitorId profileId : string) : M bool :=
  let* votes := getVotes in
  let today := split_T_0 now in
  typed (some (voted_on today visitorId profileId) votes).

(** ** Vote count and rank of a profile *)

Definition updateProfileVotesAndRank (now : string) (profileId : string)
    : M (option entity) :=
  let* votes := getVotesForProfile profileId in
  let rank := calculateRank votes in
  updateProfile now profileId
    {[ "votes" := JNum votes; "rank" := JStr (Rank_string rank) ]}.

(** ** Vocabulary of the properties *)

(** The entities of collection [name], as the repositories read them: the
    array under [key] of the stored document, and no entity for a
    collection that was never written. *)
Definition collection (name key : string) (s : state) : option (list entity) :=
  get_list key (fst (readData name (collection_doc key []) s)).

(** [x] at index [i] is the first element of [l] that satisfies [f]. *)
Definition first_with {A} (f : A → bool) (l : list A) (i : nat) (x : A) : Prop :=
  l !! i = Some x ∧ f x = true ∧
  ∀ j y, (j < i)%nat → l !! j = Some y → f y = false.

(** Inserting messages one after the other. *)
Fixpoint addChatMessages (messages : list entity) : M unit :=
  match messages with
  | [] => ret tt
  | m :: rest => let* _ := addChatMessage m in addChatMessages rest
  end.

(** A process that has just started, hosted or local, with nothing stored. *)
Definition started (hosted : bool) : state :=
  State hosted hosted false ∅ ∅ [].

(** ** Sample data *)

Definition alice : entity :=
  {[ "id" := JStr "p_alice"; "name" := JStr "Alice"; "votes" := JNum 0;
     "rank" := JStr "bronze"; "updatedAt" := JStr "2024-04-30T09:00:00.000Z" ]}.
Definition bob : entity :=
  {[ "id" := JStr "p_bob"; "name" := JStr "Bob"; "votes" := JNum 3;
     "rank" := JStr "bronze"; "updatedAt" := JStr "2024-04-30T09:30:00.000Z" ]}.

Definition vote (voterId profileId createdAt : string) : entity :=
  {[ "voterId" := JStr voterId; "profileId" := JStr profileId;
     "createdAt" := JStr createdAt ]}.

Definition post (id : string) (pinned : bool) (createdAt : string) : entity :=
  {[ "id" := JStr id; "isPinned" := JBool pinned; "createdAt" := JStr createdAt ]}.

Definition message (id : string) : entity :=
  {[ "id" := JStr id; "createdAt" := JStr "2024-05-02T08:00:00.000Z" ]}.

(** Twenty votes for Alice cast on 1 May, one for Bob cast on 2 May. *)
Definition sample_votes : list entity :=
  replicate 20 (vote "v1" "p_alice" "2024-05-01T23:59:59.999Z")
  ++ [vote "v1" "p_bob" "2024-05-02T07:15:00.000Z"].

(** A store with the two profiles and the sample votes written to it. *)
Definition sample_store (hosted : bool) : state :=
  writeData "votes" (collection_doc "votes" sample_votes)
    (writeData "profiles" (collection_doc "profiles" [alice; bob]) (started hosted)).

Definition posts_store (hosted : bool) (posts : list entity) : state :=
  writeData "posts" (collection_doc "posts" posts) (started hosted).

(** The three posts of the ordering example: A and C unpinned, B pinned,
    created in the order B, A, C. *)
Definition post_A : entity := post "A" false "2024-05-02T00:00:00.000Z".
Definition post_B : entity := post "B" true "2024-05-01T00:00:00.000Z".
Definition post_C : entity := post "C" false "2024-05-03T00:00:00.000Z".

(** Post B with 2^53 likes, one more than [MAX_SAFE_INTEGER]. *)
Definition post_most_liked : entity := <["likes" := JNum 9007199254740992]> post_B.

(** Two pinned posts, the older one stored first. *)
Definition pinned_old : entity := post "P1" true "2024-05-01T00:00:00.000Z".
Definition pinned_new : entity := post "P2" true "2024-05-02T00:00:00.000Z".

(** A post whose [createdAt] is no date. *)
Definition post_undated : entity := post "U" false "yesterday evening".

(** ** More array helpers *)

(** [l.slice(0, e)]: a negative end counts from the end of the array. *)
Definition slice_to {A} (e : Z) (l : list A) : list A :=
  if e <? 0 then take (length l - Z.to_nat (- e)) l else take (Z.to_nat e) l.

(** [l.slice(b)]: a negative start counts from the end of the array. *)
Definition slice_from {A} (b : Z) (l : list A) : list A :=
  if b <? 0 then drop (length l - Z.to_nat (- b)) l else drop (Z.to_nat b) l.

(** [l.find(f)] for a callback that may throw; it stops at the first hit. *)
Fixpoint find_throwing {A} (f : A → option bool) (l : list A) : option (option A) :=
  match l with
  | [] => Some None
  | x :: l' =>
      match f x with
      | None => None
      | Some true => Some (Some x)
      | Some false => find_throwing f l'
      end
  end.

(** [l.filter(f)] for a callback that may throw; it visits every element. *)
Fixpoint filter_throwing {A} (f : A → option bool) (l : list A) : option (list A) :=
  match l with
  | [] => Some []
  | x :: l' =>
      match f x with
      | None => None
      | Some b =>
          match filter_throwing f l' with
          | None => None
          | Some r => Some (if b then x :: r else r)
          end
      end
  end.

(** The array a getter handed out was changed in place to [es]; the getter
    returned the array under [key] of what [readData name _] handed out,
    which in hosted mode is the cached document on a cache hit. *)
Definition rearranged (name key : string) (es : list entity) : M unit :=
  fun s =>
    if isVercel s then
      match memoryStore s !! name with
      | Some v =>
          if truthy v
          then Some (tt, set_memoryStore (<[name := set_list key es v]> (memoryStore s)) s)
          else Some (tt, s)
      | None => Some (tt, s)
      end
    else Some (tt, s).

(** ** The leaderboard *)

(** [p.votes || 0] on a field declared [number | undefined]. *)
Definition votes_or_zero (p : entity) : option Z :=
  match or_default (p !! "votes") (JNum 0) with
  | JNum n => Some n
  | _ => None
  end.

Definition has_votes (p : entity) : bool :=
  match votes_or_zero p with Some _ => true | None => false end.

(** The comparator of [getTopProfiles]. *)
Definition compareVotes (a b : entity) : Z :=
  default 0 (votes_or_zero b) - default 0 (votes_or_zero a).

(** [limit] is the argument, [None] when it is left out.  A profile whose
    [votes] is neither a number nor falsy is outside the declared type. *)
Definition getTopProfiles (limit : option Z) : M (list entity) :=
  let limit := default 10 limit in
  let* profiles := getAllProfiles in
  let* _ := typed (if forallb has_votes profiles then Some tt else None) in
  let sorted := sort compareVotes profiles in
  let* _ := rearranged "profiles" "profiles" sorted in
  ret (slice_to limit sorted).

(** ** Users *)

Definition getAllUsers : M (list entity) :=
  let* data := readDataM "users" (collection_doc "users" []) in
  typed (get_list "users" data).

Definition getUserById (id : string) : M (option entity) :=
  let* users := getAllUsers in
  ret (List.find (id_is id) users).

(** [String.prototype.toLowerCase] on strings of ASCII characters; the
    functions below take the platform's function as a parameter. *)
Definition ascii_toLowerCase (s : string) : string :=
  string_of_list_ascii
    (List.map (fun c => let n := nat_of_ascii c in
                        if (65 <=? n)%nat && (n <=? 90)%nat
                        then ascii_of_nat (n + 32) else c)
              (list_ascii_of_string s)).

Section Users.
Variable toLowerCase : string → string.

(** The callback of [getUserByUsername]; it throws unless [username] is a
    string. *)
Definition username_is (username : string) (u : entity) : option bool :=
  match u !! "username" with
  | Some (JStr n) => Some (String.eqb (toLowerCase n) (toLowerCase username))
  | _ => None
  end.

Definition getUserByUsername (username : string) : M (option entity) :=
  let* users := getAllUsers in
  typed (find_throwing (username_is username) users).
End Users.

Definition createUser (user : entity) : M entity :=
  let* data := readDataM "users" (collection_doc "users" []) in
  let* users := typed (get_list "users" data) in
  let* _ := writeDataM "users" (set_list "users" (users ++ [user]) data) in
  ret user.

Definition updateUser (id : string) (updates : entity) : M (option entity) :=
  let* data := readDataM "users" (collection_doc "users" []) in
  let* users := typed (get_list "users" data) in
  match findIndex (id_is id) users with
  | None => ret None
  | Some index =>
      let* old := typed (users !! index) in
      let merged := updates ∪ old in
      let data := set_list "users" (<[index := merged]> users) data in
      let* _ := writeDataM "users" data in
      ret (Some merged)
  end.

(** ** Posts, continued *)

Definition updatePost (id : string) (updates : entity) : M (option entity) :=
  let* data := readDataM "posts" (collection_doc "posts" []) in
  let* posts := typed (get_list "posts" data) in
  match findIndex (id_is id) posts with
  | None => ret None
  | Some index =>
      let* old := typed (posts !! index) in
      let merged := updates ∪ old in
      let data := set_list "posts" (<[index := merged]> posts) data in
      let* _ := writeDataM "posts" data in
      ret (Some merged)
  end.

(** ** Chat, continued *)

Section Chat.
Variable Date_getTime : string → option Z.

(** The comparator of [getChatMessages]; a [NaN] result counts as 0 in
    [sort]. *)
Definition compareChat (a b : entity) : Z :=
  match createdAt_time Date_getTime a, createdAt_time Date_getTime b with
  | Some ta, Some tb => ta - tb
  | _, _ => 0
  end.

(** [limit] is the argument, [None] when it is left out. *)
Definition getChatMessages (limit : option Z) : M (list entity) :=
  let limit := default 100 limit in
  let* data := readDataM "chat" (collection_doc "messages" []) in
  let* messages := typed (get_list "messages" data) in
  let* _ := typed (if forallb (has_string "createdAt") messages
                   then Some tt else None) in
  let sorted := sort compareChat messages in
  let* _ := mutated "chat" (set_list "messages" sorted data) in
  ret (slice_from (- limit) sorted).
End Chat.

(** ** Votes, continued *)

(** The callback of [getTodayVoteCount]; [startsWith] is reached for every
    vote of this voter, and throws unless [createdAt] is a string. *)
Definition voted_today (today visitorId : string) (v : entity) : option bool :=
  if is_str (v !! "voterId") visitorId
  then match v !! "createdAt" with
       | Some (JStr c) => Some (startsWith c today)
       | _ => None
       end
  else Some false.

(** [now] is [new Date().toISOString()] at the time of the call. *)
Definition getTodayVoteCount (now : string) (visitorId : string) : M Z :=
  let* votes := getVotes in
  let today := split_T_0 now in
  let* hits := typed (filter_throwing (voted_today today visitorId) votes) in
  ret (Z.of_nat (length hits)).

(** ** The migration script *)

(** What the script sees and changes: whether [KV_REST_API_TOKEN] is set,
    the files of the data directory by their stem, [None] standing for a
    text [JSON.parse] rejects, and the keys of the remote store. *)
Record migration := Migration {
  token : bool;
  disk : gmap string (option json);
  remote : gmap string json
}.

Definition FILES : list string := ["users"; "profiles"; "posts"; "chat"; "votes"].

(** One turn of the loop; [accepted fileName] tells whether [kv.set]
    resolves for that key.  The result is the remote store with the two
    counters. *)
Definition migrate_file (accepted : string → bool) (m : migration)
    (acc : gmap string json * nat * nat) (fileName : string)
    : gmap string json * nat * nat :=
  let '(kvs, successCount, errorCount) := acc in
  match disk m !! fileName with
  | None => acc
  | Some None => (kvs, successCount, S errorCount)
  | Some (Some data) =>
      if accepted fileName
      then (<[fileName := data]> kvs, S successCount, errorCount)
      else (kvs, successCount, S errorCount)
  end.

(** [migrate()]: [None] is [process.exit(1)] for a missing token. *)
Definition migrate (accepted : string → bool) (m : migration)
    : option (gmap string json * nat * nat) :=
  if negb (token m) then None
  else Some (foldl (migrate_file accepted m) (remote m, 0%nat, 0%nat) FILES).

(** ** The upload route *)

(** The part of a [File] the route looks at, with its content. *)
Record File := {
  file_name : string;
  file_type : string;
  file_size : Z;
  file_content : string
}.

(** The environment variables the route reads; [None] is [undefined]. *)
Record upload_env := {
  VERCEL : option string;
  VERCEL_ENV : option string;
  BLOB_READ_WRITE_TOKEN : option string
}.

(** What the route can change: the requests handed to the blob store, and
    the uploads directory with its files, by their path. *)
Record uploads := Uploads {
  blobRequests : list (string * File);
  uploadDirExists : bool;
  uploaded : gmap string string
}.

(** What the platform answers during one request.  [formData] is [None]
    when [request.formData()] rejects and [Some None] when the form has no
    [file] field (a [file] field that is text and no file, which the route
    also answers with 400, is left out); [put_url] is the [url] of the
    blob, [None] when [put]
    rejects; the three flags tell whether [file.arrayBuffer()], [mkdir] and
    [writeFile] resolve; [Date_now] is [Date.now()] and [Math_random] is
    [Math.random().toString(36).substr(2, 9)], as the template prints
    them. *)
Record platform := {
  formData : option (option File);
  put_url : option string;
  arrayBuffer_ok : bool;
  mkdir_ok : bool;
  writeFile_ok : bool;
  Date_now : string;
  Math_random : string
}.

(** [NextResponse.json(body, { status })]; the status is 200 when none is
    given. *)
Record response := Response { status : Z; body : entity }.

Definition validTypes : list string :=
  ["image/jpeg"; "image/png"; "image/gif"; "image/webp"].

Fixpoint has_dot (s : string) : bool :=
  match s with
  | EmptyString => false
  | String c r => Ascii.eqb c "."%char || has_dot r
  end.

(** [s.split('.').pop()]: what follows the last dot, and all of [s] when
    it has none. *)
Fixpoint split_dot_pop (s : string) : string :=
  match s with
  | EmptyString => EmptyString
  | String c r =>
      if has_dot r then split_dot_pop r
      else if Ascii.eqb c "."%char then r else String c r
  end.

Definition uploadDir : string := "public/uploads".

Definition upload_failed : response :=
  Response 500 {[ "error" := JStr "Upload failed" ]}.

Definition upload_successful (url : string) : response :=
  Response 200 {[ "url" := JStr url; "message" := JStr "Upload successful" ]}.

(** [POST(request)]: every exception ends in the [catch], which answers
    500. *)
Definition POST (p : platform) (env : upload_env) (w : uploads)
    : response * uploads :=
  match formData p with
  | None => (upload_failed, w)
  | Some None => (Response 400 {[ "error" := JStr "No file uploaded" ]}, w)
  | Some (Some file) =>
      if negb (existsb (String.eqb (file_type file)) validTypes)
      then (Response 400 {[ "error" := JStr "Invalid file type" ]}, w)
      else if 5 * 1024 * 1024 <? file_size file
      then (Response 400 {[ "error" := JStr "File too large (max 5MB)" ]}, w)
      else
        let isVercel :=
          bool_decide (VERCEL env = Some "1") || bool_decide (is_Some (VERCEL_ENV env)) in
        if isVercel && match BLOB_READ_WRITE_TOKEN env with
                       | Some t => negb (String.eqb t "")
                       | None => false
                       end
        then
          let w := Uploads (blobRequests w ++ [(file_name file, file)])
                     (uploadDirExists w) (uploaded w) in
          match put_url p with
          | Some url => (upload_successful url, w)
          | None => (upload_failed, w)
          end
        else if negb (arrayBuffer_ok p) then (upload_failed, w)
        else if negb (uploadDirExists w) && negb (mkdir_ok p) then (upload_failed, w)
        else
          let w := Uploads (blobRequests w) true (uploaded w) in
          let ext := split_dot_pop (file_name file) in
          let filename :=
            "avatar_" +:+ Date_now p +:+ "_" +:+ Math_random p +:+ "." +:+ ext in
          let filepath := uploadDir +:+ "/" +:+ filename in
          if negb (writeFile_ok p) then (upload_failed, w)
          else (upload_successful ("/uploads/" +:+ filename),
                Uploads (blobRequests w) true
                  (<[filepath := file_content file]> (uploaded w)))
  end.

(** ** More vocabulary *)

(** The tiers from the lowest to the highest. *)
Definition Rank_level (r : Rank) : nat :=
  match r with
  | bronze => 0 | silver => 1 | gold => 2 | platinum => 3
  | diamond => 4 | master => 5 | legend => 6
  end.

(** Every run of [m] relates the state before to the state after by [R]. *)
Definition keeps {A} (R : state → state → Prop) (m : M A) : Prop :=
  ∀ s a s', m s = Some (a, s') → R s s'.

(** The backends are not mixed: the mode stays, a hosted process leaves the
    file system alone, and a local process leaves the cache alone and sends
    nothing to the remote store. *)
Definition backend_respected (s s' : state) : Prop :=
  isVercel s' = isVercel s ∧ kv s' = kv s ∧
  (isVercel s = true → files s' = files s ∧ dataDirExists s' = dataDirExists s) ∧
  (isVercel s = false →
     memoryStore s' = memoryStore s ∧ kvRequests s' = kvRequests s).

(** The documents the calls write, in the order of the calls. *)
Definition writes_of (cs : list call) : list (string * json) :=
  omap (fun c => match c with
                 | CallWrite name data => Some (name, data)
                 | _ => None
                 end) cs.

(** [m] run [k] times in a row. *)
Fixpoint times {A} (k : nat) (m : M A) : M unit :=
  match k with
  | O => ret tt
  | S k' => let* _ := m in times k' m
  end.

(** The collection a call reads or writes. *)
Definition call_name (c : call) : string :=
  match c with
  | CallRead name _ | CallReadAsync _ name _ | CallWrite name _ => name
  end.

(** [update id U] on the collection [key] of [name] answers null and keeps
    the collection when no entity has the id; otherwise it puts, in place of
    the first entity [old] with the id, an entity that has the properties
    of [U] and, for every other key, those of [old], with nothing added;
    an empty [U] leaves the collection as it was. *)
Definition merges_unstamped (name key : string)
    (update : string → entity → M (option entity)) : Prop :=
  ∀ id U s es, collection name key s = Some es →
    (Forall (λ e, id_is id e = false) es →
       ∃ s', update id U s = Some (None, s') ∧ collection name key s' = Some es) ∧
    (∀ i old, first_with (id_is id) es i old →
       ∃ merged s', update id U s = Some (Some merged, s') ∧
         collection name key s' = Some (<[i := merged]> es) ∧
         (∀ k, merged !! k = match U !! k with Some v => Some v | None => old !! k end) ∧
         (U = ∅ → merged = old ∧ collection name key s' = Some es)).

(** The document the migration stores under [fileName]: the parsed file,
    when there is one and the remote store accepts it. *)
Definition migrated (accepted : string → bool) (m : migration) (fileName : string)
    : option json :=
  match disk m !! fileName with
  | Some (Some data) => if accepted fileName then Some data else None
  | _ => None
  end.

(** ** More sample data *)

(** A profile nobody has voted for yet: it has no [votes]. *)
Definition carol : entity :=
  {[ "id" := JStr "p_carol"; "name" := JStr "Carol" ]}.

Definition user (id username : string) : entity :=
  {[ "id" := JStr id; "username" := JStr username; "password" := JStr "5e88" ]}.

Definition users_store (hosted : bool) (users : list entity) : state :=
  writeData "users" (collection_doc "users" users) (started hosted).

Definition chat_store (hosted : bool) (messages : list entity) : state :=
  writeData "chat" (collection_doc "messages" messages) (started hosted).

Definition message_at (id createdAt : string) : entity :=
  {[ "id" := JStr id; "createdAt" := JStr createdAt ]}.

(** A data directory with the users, an unreadable posts file and the
    votes, and a remote store that holds an old chat. *)
Definition sample_migration : migration :=
  Migration true
    {[ "users" := Some (collection_doc "users" [user "u1" "Ann"]);
       "posts" := None;
       "votes" := Some (collection_doc "votes" sample_votes) ]}
    {[ "chat" := collection_doc "messages" [message "m0"] ]}.

(** A JPEG photo of 2 MiB, and a request of a local process that carries
    it and meets no failure. *)
Definition photo : File :=
  {| file_name := "me.at.home.jpg"; file_type := "image/jpeg";
     file_size := 2097152; file_content := "JFIF" |}.

Definition photo_request : platform :=
  {| formData := Some (Some photo); put_url := None;
     arrayBuffer_ok := true; mkdir_ok := true; writeFile_ok := true;
     Date_now := "1714640400000"; Math_random := "k3j9x0q1z" |}.

(** ** Proof steps *)

(** Opens a repository function up to its first read of a collection whose
    entities are known by [H]. *)
Ltac open_read H :=
  unfold collection in H;
  unfold bind at 1; unfold readDataM at 1;
  destruct (readData _ _ _) as [?data ?s1] eqn:?Hread; simpl in H;
  try unfold bind at 1; unfold typed at 1; rewrite H.

(** * Properties *)

(** ** Strings and paths *)

Lemma append_length a b :
  String.length (a +:+ b) = (String.length a + String.length b)%nat.
Proof. induction a as [|c a IH]; simpl; [done | by rewrite IH]. Qed.

Lemma append_inj_r c a b : a +:+ c = b +:+ c → a = b.
Proof.
  revert b. induction a as [|x a IH]; intros [|y b] H.
  - done.
  - apply (f_equal String.length) in H. rewrite !append_length in H. simpl in H. lia.
  - apply (f_equal String.length) in H. rewrite !append_length in H. simpl in H. lia.
  - injection H as -> H. f_equal. by apply IH.
Qed.

Lemma substring_append a b : substring 0 (String.length a) (a +:+ b) = a.
Proof. induction a as [|c a IH]; simpl; [by destruct b | by rewrite IH]. Qed.

Lemma startsWith_spec c t :
  startsWith c t = true ↔ substring 0 (String.length t) c = t.
Proof. apply prefix_correct. Qed.

Lemma getFilePath_inj s name name' :
  isVercel s = false → getFilePath s name = getFilePath s name' → name = name'.
Proof.
  intros Hv. unfold getFilePath, path, DATA_DIR. rewrite Hv. simpl.
  intros H. do 2 apply (inj (String.app _)) in H. by apply append_inj_r in H.
Qed.

Lemma getFilePath_eq s s' name :
  isVercel s = isVercel s' → getFilePath s name = getFilePath s' name.
Proof. intros H. unfold getFilePath, path, DATA_DIR. by rewrite H. Qed.

Lemma getFilePath_ensureDataDir s name :
  getFilePath (ensureDataDir s) name = getFilePath s name.
Proof. unfold ensureDataDir. by destruct (_ && _). Qed.

Lemma getFilePath_set_files f s name :
  getFilePath (set_files f s) name = getFilePath s name.
Proof. done. Qed.

Lemma files_ensureDataDir s : files (ensureDataDir s) = files s.
Proof. unfold ensureDataDir. by destruct (_ && _). Qed.

Lemma isVercel_ensureDataDir s : isVercel (ensureDataDir s) = isVercel s.
Proof. unfold ensureDataDir. by destruct (_ && _). Qed.

Lemma ensureDataDir_idem s : ensureDataDir (ensureDataDir s) = ensureDataDir s.
Proof. destruct s as [[] ? [] ? ? ?]; reflexivity. Qed.

(** ** Record store *)

Lemma readDataAsync_local r name d s :
  isVercel s = false → readDataAsync r name d s = readData name d s.
Proof. intros Hv. unfold readDataAsync, readData, fs. by rewrite Hv. Qed.

Lemma readData_hosted name d s :
  isVercel s = true → readData name d s = (or_default (memoryStore s !! name) d, s).
Proof. intros Hv. unfold readData. by rewrite Hv. Qed.

Lemma readData_local_hit name d s data :
  isVercel s = false → files s !! getFilePath s name = Some data →
  readData name d s = (data, ensureDataDir s).
Proof.
  intros Hv Hf. unfold readData, fs. rewrite Hv. simpl.
  by rewrite files_ensureDataDir, getFilePath_ensureDataDir, Hf.
Qed.

Lemma readData_local_miss name d s :
  isVercel s = false → files s !! getFilePath s name = None →
  readData name d s =
    (d, set_files (<[getFilePath s name := d]> (files s)) (ensureDataDir s)).
Proof.
  intros Hv Hf. unfold readData, fs. rewrite Hv. simpl.
  by rewrite files_ensureDataDir, getFilePath_ensureDataDir, Hf.
Qed.

Lemma writeData_hosted name data s :
  isVercel s = true →
  memoryStore (writeData name data s) = <[name := data]> (memoryStore s).
Proof.
  intros Hv. unfold writeData, writeDataAsync, fs. rewrite Hv. simpl. rewrite Hv. simpl.
  destruct (kv s); simpl; [done|]. by rewrite insert_insert_eq.
Qed.

Lemma writeData_local name data s :
  isVercel s = false →
  writeData name data s =
    set_files (<[getFilePath s name := data]> (files s)) (ensureDataDir s).
Proof.
  intros Hv. unfold writeData, fs. rewrite Hv. simpl.
  by rewrite files_ensureDataDir, getFilePath_ensureDataDir.
Qed.

Lemma isVercel_readData name d s : isVercel (snd (readData name d s)) = isVercel s.
Proof.
  unfold readData, fs. destruct (isVercel s) eqn:Hv; simpl; [done|].
  rewrite files_ensureDataDir, getFilePath_ensureDataDir.
  destruct (files s !! _); simpl; by rewrite isVercel_ensureDataDir.
Qed.

Lemma isVercel_writeData name d s : isVercel (writeData name d s) = isVercel s.
Proof.
  unfold writeData, writeDataAsync, fs. destruct (isVercel s) eqn:Hv; simpl.
  - rewrite Hv. simpl. destruct (kv s); simpl; done.
  - by rewrite isVercel_ensureDataDir.
Qed.

Lemma memoryStore_readData name d s :
  memoryStore (snd (readData name d s)) = memoryStore s.
Proof.
  unfold readData, fs. destruct (isVercel s) eqn:Hv; simpl; [done|].
  destruct (files _ !! _); simpl; unfold ensureDataDir; by destruct (_ && _).
Qed.

Lemma memoryStore_writeData name data s :
  memoryStore (writeData name data s) =
    if isVercel s then <[name := data]> (memoryStore s) else memoryStore s.
Proof.
  destruct (isVercel s) eqn:Hv; [by apply writeData_hosted|].
  rewrite writeData_local by done. simpl.
  unfold ensureDataDir; by destruct (_ && _).
Qed.

Lemma files_readData name d s p :
  files (snd (readData name d s)) !! p =
    if isVercel s then files s !! p
    else if decide (p = getFilePath s name)
         then Some (fst (readData name d s))
         else files s !! p.
Proof.
  unfold readData, fs. destruct (isVercel s) eqn:Hv; simpl; [done|].
  rewrite files_ensureDataDir, getFilePath_ensureDataDir.
  destruct (files s !! getFilePath s name) eqn:Hf; simpl.
  - rewrite files_ensureDataDir. case_decide; by subst.
  - rewrite lookup_insert. repeat case_decide; by subst.
Qed.

Lemma files_writeData name data s :
  files (writeData name data s) =
    if isVercel s then files s else <[getFilePath s name := data]> (files s).
Proof.
  destruct (isVercel s) eqn:Hv; [|by rewrite writeData_local].
  unfold writeData, writeDataAsync, fs. rewrite Hv. simpl. rewrite Hv. simpl.
  by destruct (kv s).
Qed.

(** What a read returns depends on the mode, on the cache entry and on the
    file of the collection only. *)
Lemma readData_fst_eq name d s s' :
  isVercel s = isVercel s' →
  memoryStore s !! name = memoryStore s' !! name →
  files s !! getFilePath s name = files s' !! getFilePath s' name →
  fst (readData name d s) = fst (readData name d s').
Proof.
  intros Hv Hm Hf. unfold readData, fs. rewrite <- Hv.
  destruct (isVercel s); simpl; [by rewrite Hm|].
  rewrite !files_ensureDataDir, !getFilePath_ensureDataDir, <- Hf.
  by destruct (files s !! _).
Qed.

Lemma readData_readData_ne name n d d' s :
  n ≠ name →
  fst (readData name d (snd (readData n d' s))) = fst (readData name d s).
Proof.
  intros Hne. apply readData_fst_eq.
  - apply isVercel_readData.
  - by rewrite memoryStore_readData.
  - rewrite (getFilePath_eq _ s) by apply isVercel_readData.
    rewrite files_readData. destruct (isVercel s) eqn:Hv; [done|].
    case_decide as Hp; [|done]. apply getFilePath_inj in Hp; congruence.
Qed.

Lemma readData_writeData_ne name n d data s :
  n ≠ name →
  fst (readData name d (writeData n data s)) = fst (readData name d s).
Proof.
  intros Hne. apply readData_fst_eq.
  - apply isVercel_writeData.
  - rewrite memoryStore_writeData. destruct (isVercel s); [|done].
    by rewrite lookup_insert_ne.
  - rewrite (getFilePath_eq _ s) by apply isVercel_writeData.
    rewrite files_writeData. destruct (isVercel s) eqn:Hv; [done|].
    rewrite lookup_insert_ne; [done|]. intros Hp.
    apply getFilePath_inj in Hp; congruence.
Qed.

Lemma readData_again name d s :
  readData name d (snd (readData name d s)) = readData name d s.
Proof.
  destruct (isVercel s) eqn:Hv.
  - rewrite (readData_hosted _ _ s) by done. simpl. by rewrite readData_hosted.
  - destruct (files s !! getFilePath s name) eqn:Hf.
    + rewrite (readData_local_hit _ _ s j) by done. simpl.
      rewrite (readData_local_hit _ _ _ j).
      * by rewrite ensureDataDir_idem.
      * by rewrite isVercel_ensureDataDir.
      * by rewrite files_ensureDataDir, getFilePath_ensureDataDir.
    + rewrite (readData_local_miss _ _ s) by done. simpl.
      rewrite (readData_local_hit _ _ _ d).
      * f_equal. destruct s as [[] ? [] ? ? ?]; done.
      * simpl. by rewrite isVercel_ensureDataDir.
      * rewrite getFilePath_set_files, getFilePath_ensureDataDir. simpl.
        apply lookup_insert_eq.
Qed.

(** A write followed by a read of the same collection, whatever the
    document: the read returns it, except that in hosted mode a falsy
    document makes the read fall back to its default. *)
Lemma writeData_then_readData name D anyDefault s :
  fst (readData name anyDefault (writeData name D s))
  = if isVercel s && negb (truthy D) then anyDefault else D.
Proof.
  destruct (isVercel s) eqn:Hv.
  - rewrite readData_hosted by (by rewrite isVercel_writeData).
    simpl. rewrite writeData_hosted by done. rewrite lookup_insert_eq.
    simpl. by destruct (truthy D).
  - rewrite writeData_local by done.
    erewrite readData_local_hit; [done | simpl; by rewrite isVercel_ensureDataDir |].
    rewrite getFilePath_set_files, getFilePath_ensureDataDir. apply lookup_insert_eq.
Qed.

(** C3: [writeData(name, D)] followed immediately by
    [readData(name, anyDefault)] returns [D], in local-file mode and in
    hosted mode, whatever the collection, the default and the state of the
    store before: for every document [D], an object as every collection
    document is, and beyond the documents for every array, non-empty
    string, non-zero number and [true]; in local-file mode for every value
    at all. *)
Theorem writeData_readData name anyDefault s :
  (∀ fields,
     fst (readData name anyDefault (writeData name (JObj fields) s)) = JObj fields) ∧
  (∀ D, (isVercel s = true → truthy D = true) →
     fst (readData name anyDefault (writeData name D s)) = D).
Proof.
  assert (∀ D, (isVercel s = true → truthy D = true) →
     fst (readData name anyDefault (writeData name D s)) = D) as Hany.
  { intros D HD. rewrite writeData_then_readData.
    destruct (isVercel s); [|done]. by rewrite HD. }
  split; [|exact Hany]. intros fields. by apply Hany.
Qed.

Lemma writeData_readData_witness :
  fst (readData "votes" JNull
         (writeData "votes" (collection_doc "votes" sample_votes) (started true)))
  = collection_doc "votes" sample_votes ∧
  fst (readData "votes" JNull
         (writeData "votes" (collection_doc "votes" sample_votes) (started false)))
  = collection_doc "votes" sample_votes ∧
  fst (readData "votes" (collection_doc "votes" sample_votes)
         (writeData "votes" (collection_doc "votes" [])
            (writeData "votes" (collection_doc "votes" sample_votes) (started true))))
  = collection_doc "votes" [] ∧
  fst (readData "votes" (collection_doc "votes" []) (writeData "votes" (JArr []) (started true)))
  = JArr [].
Proof.
  split; [|split; [|split]].
  - apply (proj1 (writeData_readData "votes" JNull (started true))).
  - apply (proj1 (writeData_readData "votes" JNull (started false))).
  - apply (proj1 (writeData_readData "votes" (collection_doc "votes" sample_votes)
                    (writeData "votes" (collection_doc "votes" sample_votes)
                       (started true)))).
  - apply (proj2 (writeData_readData "votes" (collection_doc "votes" [])
                    (started true)) (JArr [])).
    intros _. reflexivity.
Defined.

(** Once the file of a collection holds [D], calls that do not write to the
    collection leave it there. *)
Lemma run_call_keeps_file name D c s :
  writes_to name c = false →
  isVercel s = false → files s !! getFilePath s name = Some D →
  isVercel (run_call c s) = false ∧
  files (run_call c s) !! getFilePath (run_call c s) name = Some D.
Proof.
  intros Hc Hv Hf. destruct c as [n d|r n d|n data]; simpl in *.
  - split; [by rewrite isVercel_readData|].
    rewrite (getFilePath_eq _ s) by apply isVercel_readData.
    rewrite files_readData, Hv. case_decide as Hp; [|done].
    rewrite Hp in Hf. by erewrite readData_local_hit.
  - rewrite readDataAsync_local by done.
    split; [by rewrite isVercel_readData|].
    rewrite (getFilePath_eq _ s) by apply isVercel_readData.
    rewrite files_readData, Hv. case_decide as Hp; [|done].
    rewrite Hp in Hf. by erewrite readData_local_hit.
  - split; [by rewrite isVercel_writeData|].
    rewrite (getFilePath_eq _ s) by apply isVercel_writeData.
    rewrite files_writeData, Hv. rewrite lookup_insert_ne; [done|].
    intros Hp. apply getFilePath_inj in Hp; [|done]. subst.
    by rewrite String.eqb_refl in Hc.
Qed.

Lemma run_calls_keep_file name D cs : ∀ s,
  forallb (fun c => negb (writes_to name c)) cs = true →
  isVercel s = false → files s !! getFilePath s name = Some D →
  isVercel (run_calls cs s) = false ∧
  files (run_calls cs s) !! getFilePath (run_calls cs s) name = Some D.
Proof.
  induction cs as [|c cs IH]; intros s Hcs Hv Hf; simpl in *; [done|].
  apply andb_prop in Hcs as [Hc Hcs]. apply negb_true_iff in Hc.
  destruct (run_call_keeps_file name D c s) as [Hv' Hf']; try done.
  by apply IH.
Qed.

(** In hosted mode a read stores nothing, whatever it returns. *)
Lemma readData_hosted_state name d s :
  isVercel s = true → snd (readData name d s) = s.
Proof. intros Hv. by rewrite readData_hosted. Qed.

(** In hosted mode a read through [readDataAsync] stores nothing either. *)
Lemma readDataAsync_hosted_state reply name d s :
  isVercel s = true → snd (readDataAsync reply name d s) = s.
Proof.
  intros Hv. unfold readDataAsync, fs. rewrite Hv. simpl.
  destruct (kv s); [by destruct reply | done].
Qed.

(** In hosted mode the cache entry of a collection is the same after calls
    that do not write to the collection. *)
Lemma run_calls_keep_cache name cs : ∀ s,
  forallb (fun c => negb (writes_to name c)) cs = true →
  isVercel s = true →
  isVercel (run_calls cs s) = true ∧
  memoryStore (run_calls cs s) !! name = memoryStore s !! name.
Proof.
  induction cs as [|c cs IH]; intros s Hcs Hv; simpl in *; [done|].
  apply andb_prop in Hcs as [Hc Hcs]. apply negb_true_iff in Hc.
  assert (isVercel (run_call c s) = true ∧
          memoryStore (run_call c s) !! name = memoryStore s !! name) as [Hv' Hm].
  { destruct c as [n d|r n d|n data]; simpl in *.
    - by rewrite readData_hosted_state.
    - by rewrite readDataAsync_hosted_state.
    - split; [by rewrite isVercel_writeData|].
      rewrite writeData_hosted by done. apply lookup_insert_ne.
      intros ->. by rewrite String.eqb_refl in Hc. }
  destruct (IH (run_call c s) Hcs Hv') as [Hv'' Hm']. split; [done|].
  by rewrite Hm'.
Qed.

(** C4 (as amended): a read of a collection never seen before returns the
    default [D], through [readData] in either mode and through
    [readDataAsync] when the remote store has no value either.  In local
    mode the read persists [D]: the file of the collection then exists with
    content [D], and every later read returns [D], whatever its own default,
    as long as no write to the collection comes in between.  In hosted mode
    the read persists nothing: it leaves the cache, and the requests to the
    remote store, as they were, and every later read returns its own
    default as long as no write to the collection comes in between. *)
Theorem readData_unseen name D s :
  unseen name s →
  fst (readData name D s) = D ∧
  fst (readDataAsync (KvValue None) name D s) = D ∧
  (isVercel s = false →
     ∀ s', s' = snd (readData name D s) ∨
           (∃ reply, s' = snd (readDataAsync reply name D s)) →
       files s' !! getFilePath s' name = Some D ∧
       ∀ cs D', forallb (fun c => negb (writes_to name c)) cs = true →
         fst (readData name D' (run_calls cs s')) = D) ∧
  (isVercel s = true →
     ∀ s', s' = snd (readData name D s) ∨
           (∃ reply, s' = snd (readDataAsync reply name D s)) →
       s' = s ∧
       ∀ cs D', forallb (fun c => negb (writes_to name c)) cs = true →
         fst (readData name D' (run_calls cs s')) = D').
Proof.
  unfold unseen. intros Hu. destruct (isVercel s) eqn:Hv.
  - split; [|split; [|split; [done|]]].
    + rewrite readData_hosted by done. simpl. by rewrite Hu.
    + unfold readDataAsync, fs. rewrite Hv. simpl.
      destruct (kv s); simpl; [done | by rewrite Hu].
    + intros _ s' Hs'.
      assert (s' = s) as ->.
      { destruct Hs' as [-> | [reply ->]];
          [by apply readData_hosted_state | by apply readDataAsync_hosted_state]. }
      split; [done|]. intros cs D' Hcs.
      destruct (run_calls_keep_cache name cs s Hcs Hv) as [Hv' Hm].
      rewrite readData_hosted by done. simpl. by rewrite Hm, Hu.
  - rewrite readDataAsync_local by done.
    rewrite readData_local_miss by done. simpl.
    split; [done|]. split; [done|]. split; [|done]. intros _ s' Hs'.
    set (s1 := set_files (<[getFilePath s name:=D]> (files s)) (ensureDataDir s)) in *.
    assert (s' = s1) as ->.
    { destruct Hs' as [-> | [reply ->]]; [done|].
      rewrite readDataAsync_local by done. by rewrite readData_local_miss. }
    assert (isVercel s1 = false) as Hv1
      by (unfold s1; simpl; by rewrite isVercel_ensureDataDir).
    assert (files s1 !! getFilePath s1 name = Some D) as Hf.
    { unfold s1. rewrite getFilePath_set_files, getFilePath_ensureDataDir. simpl.
      apply lookup_insert_eq. }
    split; [done|]. intros cs D' Hcs.
    destruct (run_calls_keep_file name D cs s1 Hcs Hv1 Hf) as [Hv' Hf'].
    by erewrite readData_local_hit.
Qed.

Lemma readData_unseen_witness :
  unseen "chat" (started false) ∧
  fst (readData "chat" (collection_doc "messages" []) (started false))
  = collection_doc "messages" [] ∧
  files (snd (readData "chat" (collection_doc "messages" []) (started false)))
    !! "data/chat.json" = Some (collection_doc "messages" []) ∧
  fst (readData "chat" JNull
         (run_calls [CallRead "votes" JNull; CallWrite "posts" (JArr [])]
            (snd (readData "chat" (collection_doc "messages" []) (started false)))))
  = collection_doc "messages" [].
Proof.
  split; [reflexivity|].
  destruct (readData_unseen "chat" (collection_doc "messages" []) (started false)
              eq_refl) as (Hret & _ & Hlocal & _).
  split; [exact Hret|].
  destruct (Hlocal eq_refl _ (or_introl eq_refl)) as [Hfile Hlater].
  split; [exact Hfile|].
  apply (Hlater [CallRead "votes" JNull; CallWrite "posts" (JArr [])] JNull).
  reflexivity.
Defined.

(** C4 as stated fails in hosted mode: the read of an unseen collection
    returns the default and persists nothing.  The state after the read is
    the state before it, with nothing in the cache and no request to the
    remote store, and a later read with another default returns that
    default. *)
Lemma readData_unseen_hosted :
  unseen "chat" (started true) ∧
  fst (readData "chat" (collection_doc "messages" []) (started true))
  = collection_doc "messages" [] ∧
  snd (readData "chat" (collection_doc "messages" []) (started true)) = started true ∧
  memoryStore (snd (readData "chat" (collection_doc "messages" []) (started true)))
    !! "chat" = None ∧
  kvRequests (snd (readData "chat" (collection_doc "messages" []) (started true))) = [] ∧
  fst (readData "chat" (collection_doc "messages" [message "m1"])
         (snd (readData "chat" (collection_doc "messages" []) (started true))))
  = collection_doc "messages" [message "m1"] ∧
  collection_doc "messages" [message "m1"] ≠ collection_doc "messages" [].
Proof. repeat split; try reflexivity. discriminate. Qed.

(** ** Collections *)

Lemma mapM_as_object es : mapM as_object (JObj <$> es) = Some es.
Proof. by apply mapM_fmap_Some. Qed.

Lemma get_list_collection_doc key es : get_list key (collection_doc key es) = Some es.
Proof.
  unfold get_list, collection_doc. rewrite lookup_singleton_eq. apply mapM_as_object.
Qed.

Lemma get_list_set_list key es data ps :
  get_list key data = Some ps → get_list key (set_list key es data) = Some es.
Proof.
  destruct data; try done. intros _. simpl. rewrite lookup_insert_eq.
  apply mapM_as_object.
Qed.

Lemma set_list_truthy key es data ps :
  get_list key data = Some ps → truthy (set_list key es data) = true.
Proof. by destruct data. Qed.

Lemma collection_writeData name key data s :
  truthy data = true → collection name key (writeData name data s) = get_list key data.
Proof.
  intros Ht. unfold collection. rewrite writeData_then_readData, Ht.
  by rewrite andb_false_r.
Qed.

Lemma collection_readData name key s :
  collection name key (snd (readData name (collection_doc key []) s))
  = collection name key s.
Proof. unfold collection. by rewrite readData_again. Qed.

Lemma collection_readData_ne name key n d s :
  n ≠ name → collection name key (snd (readData n d s)) = collection name key s.
Proof. intros Hne. unfold collection. by rewrite readData_readData_ne. Qed.

Lemma collection_writeData_ne name key n data s :
  n ≠ name → collection name key (writeData n data s) = collection name key s.
Proof. intros Hne. unfold collection. by rewrite readData_writeData_ne. Qed.

Lemma after_read name key s data s1 ps :
  readData name (collection_doc key []) s = (data, s1) →
  get_list key data = Some ps → collection name key s1 = Some ps.
Proof.
  intros Hr Hg. replace s1 with (snd (readData name (collection_doc key []) s))
    by (by rewrite Hr).
  rewrite collection_readData. unfold collection. by rewrite Hr.
Qed.

(** ** Searching an array *)

Section FindIndex.
Context {A : Type} (f : A → bool).

Lemma findIndex_first l i x : first_with f l i x → findIndex f l = Some i.
Proof.
  revert i. induction l as [|y l IH]; intros i (Hi & Hx & Hlt); [done|].
  simpl. destruct i as [|i]; simpl in Hi.
  - injection Hi as ->. by rewrite Hx.
  - rewrite (Hlt 0%nat y) by (done || lia).
    rewrite (IH i); [done|]. split; [done|]. split; [done|].
    intros j z Hj Hz. apply (Hlt (S j) z); [lia | done].
Qed.

Lemma findIndex_Some l i : findIndex f l = Some i → ∃ x, first_with f l i x.
Proof.
  revert i. induction l as [|y l IH]; intros i H; [done|]. simpl in H.
  destruct (f y) eqn:Hy.
  - injection H as <-. exists y. split; [done|]. split; [done|]. intros; lia.
  - destruct (findIndex f l) as [i'|] eqn:Hi; [|done]. injection H as <-.
    destruct (IH i' eq_refl) as (x & Hx1 & Hx2 & Hx3). exists x.
    split; [done|]. split; [done|]. intros [|j] z Hj Hz; simpl in Hz.
    + by injection Hz as <-.
    + apply (Hx3 j z); [lia | done].
Qed.

Lemma findIndex_None l : Forall (λ x, f x = false) l → findIndex f l = None.
Proof. induction 1 as [|x l Hx _ IH]; [done|]. simpl. by rewrite Hx, IH. Qed.

Lemma find_first l i x : first_with f l i x → List.find f l = Some x.
Proof.
  revert i. induction l as [|y l IH]; intros i (Hi & Hx & Hlt); [done|].
  simpl. destruct i as [|i]; simpl in Hi.
  - injection Hi as ->. by rewrite Hx.
  - rewrite (Hlt 0%nat y) by (done || lia).
    apply (IH i). split; [done|]. split; [done|].
    intros j z Hj Hz. apply (Hlt (S j) z); [lia | done].
Qed.

Lemma first_with_insert l i x y :
  first_with f l i x → f y = true → first_with f (<[i := y]> l) i y.
Proof.
  intros (Hi & Hx & Hlt) Hy. split; [|split; [done|]].
  - apply list_lookup_insert_eq. by apply lookup_lt_Some in Hi.
  - intros j z Hj Hz. rewrite list_lookup_insert_ne in Hz by lia. by apply (Hlt j).
Qed.

Lemma filter_none l :
  Forall (λ x, f x = false) l → List.filter (λ x, negb (f x)) l = l.
Proof. induction 1 as [|x l Hx _ IH]; [done|]. simpl. by rewrite Hx, IH. Qed.

Lemma existsb_false l : existsb f l = false ↔ Forall (λ x, f x = false) l.
Proof.
  induction l as [|x l IH]; simpl; [by split; intros; constructor|].
  rewrite orb_false_iff, Forall_cons, IH. done.
Qed.

Lemma filter_length_le l : (length (List.filter f l) ≤ length l)%nat.
Proof. induction l as [|x l IH]; simpl; [lia|]. destruct (f x); simpl; lia. Qed.

Lemma filter_length_existsb l :
  (length (List.filter (λ x, negb (f x)) l) =? length l)%nat = negb (existsb f l).
Proof.
  assert (∀ k, (length (List.filter (λ x, negb (f x)) k) ≤ length k)%nat) as Hle.
  { induction k as [|z k IHk]; simpl; [lia|]. destruct (f z); simpl; lia. }
  induction l as [|x l IH]; [done|]. simpl. destruct (f x); simpl.
  - specialize (Hle l). apply Nat.eqb_neq. lia.
  - done.
Qed.
End FindIndex.

Lemma is_str_true x t : is_str x t = true ↔ x = Some (JStr t).
Proof.
  unfold is_str. destruct x as [[]|]; try (split; by intros).
  rewrite String.eqb_eq. split; [by intros ->|by intros [= ->]].
Qed.

(** ** Profiles *)

Lemma getProfileById_run id s ps :
  collection "profiles" "profiles" s = Some ps →
  fst <$> getProfileById id s = Some (List.find (id_is id) ps).
Proof.
  intros H. unfold getProfileById, getAllProfiles. unfold bind at 1. open_read H.
  reflexivity.
Qed.

Lemma updateProfile_missing now id U s ps :
  collection "profiles" "profiles" s = Some ps →
  Forall (λ p, id_is id p = false) ps →
  ∃ s', updateProfile now id U s = Some (None, s') ∧
        collection "profiles" "profiles" s' = Some ps ∧
        ∀ name key, name ≠ "profiles" → collection name key s' = collection name key s.
Proof.
  intros H Hno. unfold updateProfile. open_read H.
  rewrite (findIndex_None _ _ Hno). eexists. split; [reflexivity|].
  split; [by eapply after_read|]. intros name key Hne.
  replace s1 with (snd (readData "profiles" (collection_doc "profiles" []) s))
    by (by rewrite Hread).
  by apply collection_readData_ne.
Qed.

Lemma updateProfile_found now id U s ps i old :
  collection "profiles" "profiles" s = Some ps →
  first_with (id_is id) ps i old →
  ∃ s', updateProfile now id U s
          = Some (Some (<["updatedAt" := JStr now]> (U ∪ old)), s') ∧
        collection "profiles" "profiles" s'
          = Some (<[i := <["updatedAt" := JStr now]> (U ∪ old)]> ps) ∧
        ∀ name key, name ≠ "profiles" → collection name key s' = collection name key s.
Proof.
  intros H Hfirst. unfold updateProfile. open_read H.
  rewrite (findIndex_first _ _ _ _ Hfirst).
  destruct Hfirst as (Hi & _ & _).
  unfold bind at 1; unfold typed at 1. rewrite Hi.
  unfold bind, writeDataM, ret.
  eexists. split; [reflexivity|]. split.
  - rewrite collection_writeData by (by eapply set_list_truthy).
    by eapply get_list_set_list.
  - intros name key Hne. rewrite collection_writeData_ne by done.
    replace s1 with (snd (readData "profiles" (collection_doc "profiles" []) s))
      by (by rewrite Hread).
    by apply collection_readData_ne.
Qed.

(** C8: [updateProfile(id, U)] returns null when no stored profile has the
    id.  Otherwise it returns and persists, in place of the first profile
    with that id, the merge of [U] over it: [updatedAt] is the current time
    even when [U] supplies one, every other property named in [U] has the
    value [U] gives it, every property [U] does not name keeps the value of
    the existing profile, and every other profile of the collection stays as
    it was. *)
Theorem updateProfile_merges now id U s ps :
  collection "profiles" "profiles" s = Some ps →
  (Forall (λ p, id_is id p = false) ps →
     ∃ s', updateProfile now id U s = Some (None, s') ∧
           collection "profiles" "profiles" s' = Some ps) ∧
  (∀ i old, first_with (id_is id) ps i old →
     ∃ merged s',
       updateProfile now id U s = Some (Some merged, s') ∧
       collection "profiles" "profiles" s' = Some (<[i := merged]> ps) ∧
       merged !! "updatedAt" = Some (JStr now) ∧
       (∀ k v, k ≠ "updatedAt" → U !! k = Some v → merged !! k = Some v) ∧
       (∀ k, k ≠ "updatedAt" → U !! k = None → merged !! k = old !! k) ∧
       length (<[i := merged]> ps) = length ps ∧
       (∀ j, j ≠ i → <[i := merged]> ps !! j = ps !! j)).
Proof.
  intros H. split.
  - intros Hno. destruct (updateProfile_missing now id U s ps H Hno) as (s' & ? & ? & _).
    by exists s'.
  - intros i old Hfirst.
    destruct (updateProfile_found now id U s ps i old H Hfirst) as (s' & ? & ? & _).
    eexists _, s'. split; [eassumption|]. split; [assumption|].
    split; [|split; [|split; [|split]]].
    + apply lookup_insert_eq.
    + intros k v Hk HU. rewrite lookup_insert_ne by done.
      by apply lookup_union_Some_l.
    + intros k Hk HU. rewrite lookup_insert_ne by done.
      by apply lookup_union_r.
    + apply length_insert.
    + intros j Hj. by apply list_lookup_insert_ne.
Qed.

Lemma updateProfile_merges_witness :
  collection "profiles" "profiles" (sample_store false) = Some [alice; bob] ∧
  ∃ merged s',
    updateProfile "2024-05-02T08:00:00.000Z" "p_bob"
      {[ "name" := JStr "Robert"; "updatedAt" := JStr "1999-01-01T00:00:00.000Z" ]}
      (sample_store false) = Some (Some merged, s') ∧
    collection "profiles" "profiles" s' = Some [alice; merged] ∧
    merged !! "updatedAt" = Some (JStr "2024-05-02T08:00:00.000Z") ∧
    merged !! "name" = Some (JStr "Robert") ∧
    merged !! "votes" = Some (JNum 3).
Proof.
  split; [reflexivity|].
  destruct (updateProfile_merges "2024-05-02T08:00:00.000Z" "p_bob"
              {[ "name" := JStr "Robert"; "updatedAt" := JStr "1999-01-01T00:00:00.000Z" ]}
              (sample_store false) [alice; bob] eq_refl) as [_ Hfound].
  destruct (Hfound 1%nat bob) as (merged & s' & Hrun & Hstored & Hat & Hnew & Hold & _).
  { split; [reflexivity|]. split; [reflexivity|].
    intros [|j] y Hj Hy; [injection Hy as <-; reflexivity | lia]. }
  exists merged, s'. split; [exact Hrun|]. split; [exact Hstored|].
  split; [exact Hat|]. split.
  - apply Hnew; [discriminate | reflexivity].
  - rewrite Hold; [reflexivity | discriminate | reflexivity].
Defined.

(** ** Ranks and vote counts *)

(** C2: [calculateRank(v)] is legend from 1000 votes on, master from 500 to
    999, diamond from 200 to 499, platinum from 100 to 199, gold from 50 to
    99, silver from 20 to 49 and bronze below 20; so 0 and 19 give bronze,
    20 gives silver, 999 gives master and 1000 gives legend. *)
Theorem calculateRank_tiers (v : Z) :
  (1000 <= v → calculateRank v = legend) ∧
  (500 <= v <= 999 → calculateRank v = master) ∧
  (200 <= v <= 499 → calculateRank v = diamond) ∧
  (100 <= v <= 199 → calculateRank v = platinum) ∧
  (50 <= v <= 99 → calculateRank v = gold) ∧
  (20 <= v <= 49 → calculateRank v = silver) ∧
  (v < 20 → calculateRank v = bronze) ∧
  calculateRank 0 = bronze ∧ calculateRank 19 = bronze ∧
  calculateRank 20 = silver ∧ calculateRank 999 = master ∧
  calculateRank 1000 = legend.
Proof.
  unfold calculateRank. rewrite !Z.geb_leb.
  repeat split; try reflexivity; intros;
    repeat (let E := fresh in
            destruct (_ <=? v) eqn:E;
            [apply Z.leb_le in E | apply Z.leb_gt in E]);
    first [reflexivity | lia].
Qed.

Lemma getVotesForProfile_run id s vs :
  collection "votes" "votes" s = Some vs →
  getVotesForProfile id s
  = Some (Z.of_nat (length (votes_for id vs)),
          snd (readData "votes" (collection_doc "votes" []) s)).
Proof.
  intros H. unfold getVotesForProfile, getVotes. unfold bind at 1. open_read H.
  reflexivity.
Qed.

(** C1: with [count] the number of stored votes whose [profileId] is the
    id, [updateProfileVotesAndRank(id)] returns null and leaves the profiles
    as they are when no profile has the id; otherwise it returns the updated
    profile, which is then the stored profile of that id, with [votes]
    equal to [count] and [rank] equal to [calculateRank(count)], the votes
    collection being untouched. *)
Theorem updateProfileVotesAndRank_recounts now id s ps vs :
  collection "profiles" "profiles" s = Some ps →
  collection "votes" "votes" s = Some vs →
  let count := Z.of_nat (length (votes_for id vs)) in
  (Forall (λ p, id_is id p = false) ps →
     ∃ s', updateProfileVotesAndRank now id s = Some (None, s') ∧
           collection "profiles" "profiles" s' = Some ps) ∧
  (∀ i old, first_with (id_is id) ps i old →
     ∃ updated s',
       updateProfileVotesAndRank now id s = Some (Some updated, s') ∧
       collection "profiles" "profiles" s' = Some (<[i := updated]> ps) ∧
       fst <$> getProfileById id s' = Some (Some updated) ∧
       collection "votes" "votes" s' = Some vs ∧
       updated !! "votes" = Some (JNum count) ∧
       updated !! "rank" = Some (JStr (Rank_string (calculateRank count)))).
Proof.
  intros Hp Hv count.
  set (s1 := snd (readData "votes" (collection_doc "votes" []) s)).
  assert (collection "profiles" "profiles" s1 = Some ps) as Hp1
    by (unfold s1; by rewrite collection_readData_ne).
  assert (collection "votes" "votes" s1 = Some vs) as Hv1
    by (unfold s1; by rewrite collection_readData).
  assert (updateProfileVotesAndRank now id s
          = updateProfile now id
              {[ "votes" := JNum count;
                 "rank" := JStr (Rank_string (calculateRank count)) ]} s1) as ->.
  { unfold updateProfileVotesAndRank. unfold bind at 1.
    by rewrite (getVotesForProfile_run id s vs Hv). }
  set (U := {[ "votes" := JNum count;
               "rank" := JStr (Rank_string (calculateRank count)) ]} : entity).
  split.
  - intros Hno.
    destruct (updateProfile_missing now id U s1 ps Hp1 Hno) as (s' & ? & ? & _).
    by exists s'.
  - intros i old Hfirst.
    destruct (updateProfile_found now id U s1 ps i old Hp1 Hfirst)
      as (s' & Hrun & Hps & Hframe).
    eexists _, s'. split; [eassumption|]. split; [assumption|].
    split; [|split; [|split]].
    + rewrite (getProfileById_run id s' _ Hps). do 2 f_equal.
      apply (find_first _ _ i). apply (first_with_insert _ _ _ old); [done|].
      destruct Hfirst as (_ & Hid & _). unfold id_is in *.
      rewrite lookup_insert_ne by done. rewrite lookup_union_r; [done|].
      unfold U. rewrite lookup_insert_ne by done. by rewrite lookup_singleton_ne.
    + by rewrite Hframe.
    + rewrite lookup_insert_ne by done. apply lookup_union_Some_l.
      apply lookup_insert_eq.
    + rewrite lookup_insert_ne by done. apply lookup_union_Some_l.
      unfold U. rewrite lookup_insert_ne by done. apply lookup_singleton_eq.
Qed.

Lemma updateProfileVotesAndRank_recounts_witness :
  collection "profiles" "profiles" (sample_store true) = Some [alice; bob] ∧
  collection "votes" "votes" (sample_store true) = Some sample_votes ∧
  ∃ updated s',
    updateProfileVotesAndRank "2024-05-02T08:00:00.000Z" "p_alice" (sample_store true)
    = Some (Some updated, s') ∧
    fst <$> getProfileById "p_alice" s' = Some (Some updated) ∧
    updated !! "votes" = Some (JNum 20) ∧
    updated !! "rank" = Some (JStr "silver").
Proof.
  split; [reflexivity|]. split; [reflexivity|].
  destruct (updateProfileVotesAndRank_recounts "2024-05-02T08:00:00.000Z" "p_alice"
              (sample_store true) [alice; bob] sample_votes eq_refl eq_refl)
    as [_ Hfound].
  destruct (Hfound 0%nat alice) as (updated & s' & Hrun & _ & Hget & _ & Hvotes & Hrank).
  { split; [reflexivity|]. split; [reflexivity|]. intros j y Hj. lia. }
  exists updated, s'. split; [exact Hrun|]. split; [exact Hget|].
  split; [exact Hvotes | exact Hrank].
Defined.

(** ** Deleting *)

(** The shape [deleteProfile] and [deletePost] share, for a collection
    [name] whose entities sit under [key]. *)
Lemma delete_run (name key id : string) (del : M bool) s ps :
  del = (let* data := readDataM name (collection_doc key []) in
         let* items := typed (get_list key data) in
         let filtered := List.filter (fun p => negb (id_is id p)) items in
         if (length filtered =? length items)%nat then ret false
         else let* _ := writeDataM name (collection_doc key filtered) in ret true) →
  collection name key s = Some ps →
  let filtered := List.filter (fun p => negb (id_is id p)) ps in
  let s1 := snd (readData name (collection_doc key []) s) in
  ∃ s', del s = Some (existsb (id_is id) ps, s') ∧
        collection name key s' = Some filtered ∧
        (existsb (id_is id) ps = false → filtered = ps ∧ s' = s1) ∧
        (existsb (id_is id) ps = true →
           s' = writeData name (collection_doc key filtered) s1 ∧
           (length filtered < length ps)%nat).
Proof.
  intros -> H filtered s1. unfold filtered, s1. clear filtered s1.
  open_read H. rewrite filter_length_existsb.
  destruct (existsb (id_is id) ps) eqn:Hex; simpl.
  - unfold bind, writeDataM, ret. eexists. split; [reflexivity|].
    split; [by rewrite collection_writeData, get_list_collection_doc|].
    split; [done|]. intros _. split; [done|].
    pose proof (filter_length_existsb (id_is id) ps) as Hl.
    rewrite Hex in Hl. apply Nat.eqb_neq in Hl.
    pose proof (filter_length_le (fun p => negb (id_is id p)) ps). lia.
  - unfold ret. eexists. split; [reflexivity|].
    apply existsb_false in Hex. rewrite (filter_none _ _ Hex).
    split; [by eapply after_read|]. split; [done|]. done.
Qed.

(** C9 (as amended): [deleteProfile(id)], and likewise [deletePost(id)],
    returns whether some stored entity has the id, and afterwards the
    stored collection is the stored sequence without the entities of that
    id.  The filtered sequence is written only when something was removed:
    for an id that is not stored the function returns false after its read,
    without any write, and the collection is unchanged in length and
    content; otherwise the state is the one after the read with the
    filtered document written to it, and the collection is shorter. *)
Theorem delete_removes id s :
  (∀ ps, collection "profiles" "profiles" s = Some ps →
     let filtered := List.filter (fun p => negb (id_is id p)) ps in
     let s1 := snd (readData "profiles" (collection_doc "profiles" []) s) in
     ∃ s', deleteProfile id s = Some (existsb (id_is id) ps, s') ∧
           collection "profiles" "profiles" s' = Some filtered ∧
           (existsb (id_is id) ps = false → filtered = ps ∧ s' = s1) ∧
           (existsb (id_is id) ps = true →
              s' = writeData "profiles" (collection_doc "profiles" filtered) s1 ∧
              (length filtered < length ps)%nat)) ∧
  (∀ ps, collection "posts" "posts" s = Some ps →
     let filtered := List.filter (fun p => negb (id_is id p)) ps in
     let s1 := snd (readData "posts" (collection_doc "posts" []) s) in
     ∃ s', deletePost id s = Some (existsb (id_is id) ps, s') ∧
           collection "posts" "posts" s' = Some filtered ∧
           (existsb (id_is id) ps = false → filtered = ps ∧ s' = s1) ∧
           (existsb (id_is id) ps = true →
              s' = writeData "posts" (collection_doc "posts" filtered) s1 ∧
              (length filtered < length ps)%nat)).
Proof.
  split; intros ps H.
  - by apply (delete_run "profiles" "profiles").
  - by apply (delete_run "posts" "posts").
Qed.

Lemma delete_removes_witness :
  collection "profiles" "profiles" (sample_store false) = Some [alice; bob] ∧
  (∃ s', deleteProfile "p_carol" (sample_store false) = Some (false, s') ∧
         collection "profiles" "profiles" s' = Some [alice; bob]) ∧
  (∃ s', deleteProfile "p_alice" (sample_store false) = Some (true, s') ∧
         collection "profiles" "profiles" s' = Some [bob]).
Proof.
  split; [reflexivity|]. split.
  - destruct (delete_removes "p_carol" (sample_store false)) as [Hprofiles _].
    destruct (Hprofiles [alice; bob] eq_refl) as (s' & Hrun & Hstored & _).
    exists s'. split; [exact Hrun | exact Hstored].
  - destruct (delete_removes "p_alice" (sample_store false)) as [Hprofiles _].
    destruct (Hprofiles [alice; bob] eq_refl) as (s' & Hrun & Hstored & _).
    exists s'. split; [exact Hrun | exact Hstored].
Defined.

(** C9 as stated fails on "persisting the filtered sequence
    unconditionally": in the hosted sample store, whose two writes issued
    two [kv.set] requests, deleting an id that is not stored returns false
    and leaves the whole state as it was, while writing the filtered
    sequence would have issued a third request. *)
Lemma deleteProfile_absent_writes_nothing :
  collection "profiles" "profiles" (sample_store true) = Some [alice; bob] ∧
  deleteProfile "p_carol" (sample_store true) = Some (false, sample_store true) ∧
  length (kvRequests (sample_store true)) = 2%nat ∧
  length (kvRequests
            (writeData "profiles" (collection_doc "profiles" [alice; bob])
               (sample_store true))) = 3%nat.
Proof. repeat split; reflexivity. Qed.

(** ** Liking a post *)

(** From -2^53 to 2^53 every integer is a double. *)
Lemma round_double_safe x :
  - MAX_SAFE_INTEGER - 1 <= x <= MAX_SAFE_INTEGER + 1 → round_double x = x.
Proof.
  intros Hx. unfold round_double.
  destruct (Z.abs x <=? MAX_SAFE_INTEGER) eqn:Hm; [done|].
  apply Z.leb_gt in Hm. unfold MAX_SAFE_INTEGER in *.
  assert (x = 9007199254740992 ∨ x = -9007199254740992) as [-> | ->] by lia;
    reflexivity.
Qed.

(** [likes || 0] of a post whose [likes] is a number or missing. *)
Lemma likes_or_zero (post : entity) likes :
  post !! "likes" = Some (JNum likes) ∨ (post !! "likes" = None ∧ likes = 0) →
  or_default (post !! "likes") (JNum 0) = JNum likes.
Proof.
  unfold or_default. intros [-> | [-> ->]]; [|done]. simpl.
  destruct (likes =? 0) eqn:Hz; [|done]. by apply Z.eqb_eq in Hz as ->.
Qed.

(** [likePost] of an id the first post of which is [post]: the post with
    the double nearest to [likes + 1] takes its place. *)
Lemma likePost_found id s ps i post n :
  collection "posts" "posts" s = Some ps →
  first_with (id_is id) ps i post →
  or_default (post !! "likes") (JNum 0) = JNum n →
  ∃ s', likePost id s
        = Some (Some (<["likes" := JNum (round_double (n + 1))]> post), s') ∧
        collection "posts" "posts" s'
        = Some (<[i := <["likes" := JNum (round_double (n + 1))]> post]> ps).
Proof.
  intros H Hfirst Hlikes. unfold likePost. open_read H.
  rewrite (findIndex_first _ _ _ _ Hfirst).
  destruct Hfirst as (Hi & _ & _).
  unfold bind at 1; unfold typed at 1. rewrite Hi.
  unfold bind at 1; unfold typed at 1. unfold or_zero_plus_one. rewrite Hlikes.
  unfold bind, writeDataM, ret.
  eexists. split; [reflexivity|].
  rewrite collection_writeData by (by eapply set_list_truthy).
  by eapply get_list_set_list.
Qed.

(** At 2^53 likes the sum 2^53 + 1 is rounded back to 2^53. *)
Lemma likePost_stuck id s ps i post :
  collection "posts" "posts" s = Some ps →
  first_with (id_is id) ps i post →
  post !! "likes" = Some (JNum (MAX_SAFE_INTEGER + 1)) →
  ∃ s', likePost id s = Some (Some post, s') ∧
        collection "posts" "posts" s' = Some ps.
Proof.
  intros H Hfirst Hlikes.
  destruct (likePost_found id s ps i post (MAX_SAFE_INTEGER + 1) H Hfirst)
    as (s' & Hrun & Hafter).
  { unfold or_default. by rewrite Hlikes. }
  change (round_double (MAX_SAFE_INTEGER + 1 + 1)) with (MAX_SAFE_INTEGER + 1)
    in Hrun, Hafter.
  rewrite (insert_id post "likes" _ Hlikes) in Hrun, Hafter.
  destruct Hfirst as (Hi & _ & _). rewrite (list_insert_id ps i post Hi) in Hafter.
  by exists s'.
Qed.

(** C10 (as amended): [likePost(id)] returns null and leaves the posts as
    they are when no post has the id.  Otherwise, when the [likes] of the
    first post with that id is a safe integer (at most 2^53 - 1 in absolute
    value) or missing, it returns and persists, in place of that post, the
    post with [likes] one higher, a missing [likes] counting as 0 (so a
    post without [likes] ends with 1); every other property of the post and
    every other post stay as they were.  At [likes] = 2^53 the sum is
    rounded back to 2^53: the call returns the post as it was and the
    stored posts are as they were. *)
Theorem likePost_increments id s ps :
  collection "posts" "posts" s = Some ps →
  (Forall (λ p, id_is id p = false) ps →
     ∃ s', likePost id s = Some (None, s') ∧
           collection "posts" "posts" s' = Some ps) ∧
  (∀ i post likes, first_with (id_is id) ps i post →
     post !! "likes" = Some (JNum likes) ∨ (post !! "likes" = None ∧ likes = 0) →
     - MAX_SAFE_INTEGER <= likes <= MAX_SAFE_INTEGER →
     ∃ liked s',
       likePost id s = Some (Some liked, s') ∧
       collection "posts" "posts" s' = Some (<[i := liked]> ps) ∧
       liked !! "likes" = Some (JNum (likes + 1)) ∧
       (∀ k, k ≠ "likes" → liked !! k = post !! k) ∧
       length (<[i := liked]> ps) = length ps ∧
       (∀ j, j ≠ i → <[i := liked]> ps !! j = ps !! j)) ∧
  (∀ i post, first_with (id_is id) ps i post →
     post !! "likes" = Some (JNum (MAX_SAFE_INTEGER + 1)) →
     ∃ s', likePost id s = Some (Some post, s') ∧
           collection "posts" "posts" s' = Some ps).
Proof.
  intros H. split; [|split].
  - intros Hno. unfold likePost. open_read H.
    rewrite (findIndex_None _ _ Hno). eexists. split; [reflexivity|].
    by eapply after_read.
  - intros i post likes Hfirst Hlikes Hsafe.
    destruct (likePost_found id s ps i post likes H Hfirst (likes_or_zero _ _ Hlikes))
      as (s' & Hrun & Hafter).
    rewrite round_double_safe in Hrun, Hafter by lia.
    eexists _, s'. split; [exact Hrun|].
    split; [exact Hafter|]. split; [|split; [|split]].
    + apply lookup_insert_eq.
    + intros k Hk. by rewrite lookup_insert_ne.
    + apply length_insert.
    + intros j Hj. by apply list_lookup_insert_ne.
  - intros i post Hfirst Hlikes. by eapply likePost_stuck.
Qed.

Lemma likePost_increments_witness :
  collection "posts" "posts" (posts_store true [post_A; post_B]) = Some [post_A; post_B] ∧
  - MAX_SAFE_INTEGER <= 0 <= MAX_SAFE_INTEGER ∧
  ∃ liked s',
    likePost "B" (posts_store true [post_A; post_B]) = Some (Some liked, s') ∧
    collection "posts" "posts" s' = Some [post_A; liked] ∧
    liked !! "likes" = Some (JNum 1) ∧
    liked !! "createdAt" = post_B !! "createdAt".
Proof.
  split; [reflexivity|]. split; [unfold MAX_SAFE_INTEGER; lia|].
  destruct (likePost_increments "B" (posts_store true [post_A; post_B])
              [post_A; post_B] eq_refl) as (_ & Hfound & _).
  destruct (Hfound 1%nat post_B 0) as (liked & s' & Hrun & Hstored & Hlikes & Hrest & _).
  { split; [reflexivity|]. split; [reflexivity|].
    intros [|j] y Hj Hy; [injection Hy as <-; reflexivity | lia]. }
  { right. split; reflexivity. }
  { unfold MAX_SAFE_INTEGER; lia. }
  exists liked, s'. split; [exact Hrun|]. split; [exact Hstored|].
  split; [exact Hlikes|]. apply Hrest. discriminate.
Defined.

(** C10 as stated fails on a post whose [likes] is 2^53, where the doubles
    are two apart and 2^53 + 1 is rounded to 2^53: [likePost] returns the
    post with the [likes] it had, not one more, and stores the posts as
    they were. *)
Lemma likePost_beyond_safe_integers :
  collection "posts" "posts" (posts_store true [post_A; post_most_liked])
  = Some [post_A; post_most_liked] ∧
  post_most_liked !! "likes" = Some (JNum 9007199254740992) ∧
  fst <$> likePost "B" (posts_store true [post_A; post_most_liked])
  = Some (Some post_most_liked) ∧
  (likePost "B" (posts_store true [post_A; post_most_liked])
     ≫= λ r, collection "posts" "posts" (snd r))
  = Some [post_A; post_most_liked] ∧
  9007199254740992 ≠ 9007199254740992 + 1.
Proof. repeat split; try reflexivity. lia. Qed.

(** ** Chat retention *)

Lemma slice_last_length {A} n (l : list A) : (length (slice_last n l) ≤ n)%nat.
Proof. unfold slice_last. rewrite length_drop. lia. Qed.

Lemma slice_last_short {A} n (l : list A) : (length l ≤ n)%nat → slice_last n l = l.
Proof. intros H. unfold slice_last. by replace (length l - n)%nat with 0%nat by lia. Qed.

Lemma slice_last_app {A} n (l k : list A) :
  slice_last n (slice_last n l ++ k) = slice_last n (l ++ k).
Proof.
  destruct (decide (length l ≤ n)%nat) as [Hle|Hgt].
  - by rewrite (slice_last_short n l).
  - unfold slice_last. rewrite !length_app, length_drop.
    replace (length l - (length l - n) + length k - n)%nat with (length k) by lia.
    replace (length l + length k - n)%nat with ((length l - n) + length k)%nat by lia.
    rewrite <- (drop_drop (l ++ k)). f_equal.
    rewrite drop_app. f_equal.
    replace (length l - n - length l)%nat with 0%nat by lia. done.
Qed.

Lemma addChatMessage_run m s ms :
  collection "chat" "messages" s = Some ms →
  ∃ s', addChatMessage m s = Some (m, s') ∧
        collection "chat" "messages" s' = Some (slice_last 500 (ms ++ [m])).
Proof.
  intros H. unfold addChatMessage. open_read H.
  unfold bind, writeDataM, ret. eexists. split; [reflexivity|].
  rewrite collection_writeData by (by eapply set_list_truthy).
  erewrite get_list_set_list by done. f_equal.
  destruct (500 <? length (ms ++ [m]))%nat eqn:Hlen; [done|].
  apply Nat.ltb_ge in Hlen. by rewrite slice_last_short.
Qed.

Lemma addChatMessages_run msgs : ∀ s ms,
  collection "chat" "messages" s = Some ms → (length ms ≤ 500)%nat →
  ∃ s', addChatMessages msgs s = Some (tt, s') ∧
        collection "chat" "messages" s' = Some (slice_last 500 (ms ++ msgs)).
Proof.
  induction msgs as [|m msgs IH]; intros s ms H Hlen.
  - exists s. split; [done|]. by rewrite app_nil_r, slice_last_short.
  - destruct (addChatMessage_run m s ms H) as (s1 & Hrun & H1).
    destruct (IH s1 _ H1 (slice_last_length _ _)) as (s' & Hrun' & H').
    exists s'. split.
    + simpl. unfold bind. by rewrite Hrun.
    + by rewrite H', slice_last_app, <- app_assoc.
Qed.

(** C6: [addChatMessage(m)] returns [m] and stores the messages it found
    with [m] appended, cut down to the most recent 500: what is stored is a
    suffix of the appended sequence (the oldest go first, the others keep
    their order), it ends with [m], and its length is the smaller of 500 and
    the old length plus one, so never above 500.  Inserting 501 messages one
    after the other into an empty collection leaves exactly the last 500 of
    them, in insertion order, and the first one, when it differs from the
    others, is gone. *)
Theorem addChatMessage_retains m s ms :
  collection "chat" "messages" s = Some ms →
  (∃ s' stored,
     addChatMessage m s = Some (m, s') ∧
     collection "chat" "messages" s' = Some stored ∧
     stored `suffix_of` (ms ++ [m]) ∧
     length stored = Nat.min 500 (length ms + 1) ∧
     last stored = Some m) ∧
  (∀ msgs, ms = [] → length msgs = 501%nat →
     ∃ s', addChatMessages msgs s = Some (tt, s') ∧
           collection "chat" "messages" s' = Some (drop 1 msgs) ∧
           length (drop 1 msgs) = 500%nat ∧
           (NoDup msgs → ∀ first, head msgs = Some first → first ∉ drop 1 msgs)).
Proof.
  intros H. split.
  - destruct (addChatMessage_run m s ms H) as (s' & Hrun & H').
    exists s', (slice_last 500 (ms ++ [m])). split; [done|]. split; [done|].
    split; [apply suffix_drop|].
    split; [unfold slice_last; rewrite length_drop, !length_app;
            change (length [m]) with 1%nat; lia|].
    unfold slice_last.
    rewrite drop_app_le by (rewrite length_app; change (length [m]) with 1%nat; lia).
    apply last_snoc.
  - intros msgs -> Hlen.
    destruct (addChatMessages_run msgs s [] H) as (s' & Hrun & H'); [simpl; lia|].
    exists s'. split; [done|]. simpl in H'. unfold slice_last in H'.
    rewrite Hlen in H'. split; [done|].
    split; [rewrite length_drop; lia|].
    intros Hnd first Hfirst Hin. destruct msgs as [|x msgs]; [done|].
    injection Hfirst as ->. simpl in Hin. rewrite drop_0 in Hin.
    by apply NoDup_cons in Hnd as [? _].
Qed.

Lemma addChatMessage_retains_witness :
  collection "chat" "messages" (started true) = Some [] ∧
  (∃ s', addChatMessage (message "m1") (started true) = Some (message "m1", s') ∧
         collection "chat" "messages" s' = Some [message "m1"]) ∧
  (∃ s', addChatMessages (message "m0" :: replicate 500 (message "m1")) (started true)
         = Some (tt, s') ∧
         collection "chat" "messages" s' = Some (replicate 500 (message "m1"))).
Proof.
  split; [reflexivity|].
  destruct (addChatMessage_retains (message "m1") (started true) [] eq_refl)
    as [Hone Hmany].
  split.
  - destruct Hone as (s' & stored & Hrun & Hstored & Hsuffix & Hlen & Hlast).
    exists s'. split; [exact Hrun|]. rewrite Hstored. f_equal.
    destruct stored as [|x [|y stored]]; [discriminate | | discriminate].
    injection Hlast as ->. reflexivity.
  - destruct (Hmany (message "m0" :: replicate 500 (message "m1")) eq_refl eq_refl)
      as (s' & Hrun & Hstored & _).
    exists s'. split; [exact Hrun | exact Hstored].
Defined.

(** ** The daily vote check *)

Lemma some_spec {A} (f : A → option bool) l :
  Forall (λ x, is_Some (f x)) l →
  ∃ b, some f l = Some b ∧ (b = true ↔ ∃ x, x ∈ l ∧ f x = Some true).
Proof.
  induction 1 as [|x l [b Hb] _ (b' & Hb' & IH)]; simpl.
  - exists false. split; [done|]. split; [done|]. intros (x & Hx & _).
    by apply not_elem_of_nil in Hx.
  - rewrite Hb. destruct b.
    + exists true. split; [done|]. split; [|done]. intros _. exists x.
      split; [apply list_elem_of_here | done].
    + exists b'. split; [done|]. rewrite IH. split.
      * intros (y & Hy & Hfy). exists y. split; [by apply list_elem_of_further | done].
      * intros (y & Hy & Hfy). apply elem_of_cons in Hy as [-> | Hy].
        -- congruence.
        -- by exists y.
Qed.

Lemma voted_on_true today V P v :
  voted_on today V P v = Some true ↔
  ∃ c, v !! "voterId" = Some (JStr V) ∧ v !! "profileId" = Some (JStr P) ∧
       v !! "createdAt" = Some (JStr c) ∧
       substring 0 (String.length today) c = today.
Proof.
  unfold voted_on. split.
  - destruct (is_str (v !! "voterId") V) eqn:HV; [|done].
    destruct (is_str (v !! "profileId") P) eqn:HP; [|done]. simpl.
    apply is_str_true in HV, HP.
    destruct (v !! "createdAt") as [[]|]; try done.
    intros [= Hs]. apply startsWith_spec in Hs. by eexists.
  - intros (c & HV & HP & -> & Hs). apply is_str_true in HV, HP.
    rewrite HV, HP. simpl. f_equal. by apply startsWith_spec.
Qed.

(** The date of an ISO time stamp: what stands before its [T]. *)
Lemma split_T_0_date date time :
  "T"%char ∉ list_ascii_of_string date →
  split_T_0 (date +:+ "T" +:+ time) = date.
Proof.
  induction date as [|c date IH]; intros HT; [done|].
  change (String c date +:+ "T" +:+ time) with (String c (date +:+ "T" +:+ time)).
  simpl in *. apply not_elem_of_cons in HT as [Hc HT].
  destruct (Ascii.eqb c "T") eqn:Heq; [by apply Ascii.eqb_eq in Heq|].
  by rewrite IH.
Qed.

(** C7: when the clock reads [date]T[time], as the ISO string of every
    instant does with its UTC date for [date], a string without a [T],
    [hasVotedToday(V, P)] is true exactly when some stored vote has voter
    [V], profile [P] and a [createdAt] whose first characters, as many as
    [date] has, are [date].  A vote of the pair created on that date at
    whatever time makes it true; when every vote of the pair carries another
    date of the same length, such as the day before, it is false. *)
Theorem hasVotedToday_scans date time V P s vs :
  collection "votes" "votes" s = Some vs →
  Forall (λ v, has_string "createdAt" v = true) vs →
  "T"%char ∉ list_ascii_of_string date →
  ∃ b s',
    hasVotedToday (date +:+ "T" +:+ time) V P s = Some (b, s') ∧
    (b = true ↔
       ∃ v c, v ∈ vs ∧ v !! "voterId" = Some (JStr V) ∧
              v !! "profileId" = Some (JStr P) ∧
              v !! "createdAt" = Some (JStr c) ∧
              substring 0 (String.length date) c = date) ∧
    (∀ v rest, v ∈ vs → v !! "voterId" = Some (JStr V) →
       v !! "profileId" = Some (JStr P) →
       v !! "createdAt" = Some (JStr (date +:+ rest)) → b = true) ∧
    ((∀ v, v ∈ vs → v !! "voterId" = Some (JStr V) →
        v !! "profileId" = Some (JStr P) →
        ∃ day rest, v !! "createdAt" = Some (JStr (day +:+ rest)) ∧
                    String.length day = String.length date ∧ day ≠ date) →
     b = false).
Proof.
  intros H Htyped HT.
  pose proof (split_T_0_date date time HT) as Hdate.
  destruct (some_spec (voted_on date V P) vs) as (b & Hb & Hiff).
  { eapply Forall_impl; [exact Htyped|]. intros v Hv. unfold voted_on, has_string in *.
    destruct (_ && _); [|by eexists]. by destruct (v !! "createdAt") as [[]|]. }
  assert (b = true ↔
       ∃ v c, v ∈ vs ∧ v !! "voterId" = Some (JStr V) ∧
              v !! "profileId" = Some (JStr P) ∧
              v !! "createdAt" = Some (JStr c) ∧
              substring 0 (String.length date) c = date) as Hiff'.
  { rewrite Hiff. split.
    - intros (v & Hv & Hon). apply voted_on_true in Hon as (c & ? & ? & ? & ?).
      by exists v, c.
    - intros (v & c & Hv & ? & ? & ? & ?). exists v. split; [done|].
      apply voted_on_true. by exists c. }
  unfold hasVotedToday, getVotes. unfold bind at 1. open_read H.
  unfold ret. unfold typed. rewrite Hdate, Hb.
  eexists _, _. split; [reflexivity|]. split; [exact Hiff'|]. split.
  - intros v rest Hv HV HP Hc. apply Hiff'. exists v, (date +:+ rest).
    repeat (split; [done|]). apply substring_append.
  - intros Hall. destruct b; [|done]. exfalso.
    destruct Hiff' as [Hex _]. destruct (Hex eq_refl) as (v & c & Hv & HV & HP & Hc & Hs).
    destruct (Hall v Hv HV HP) as (day & rest & Hc' & Hlen & Hne).
    rewrite Hc in Hc'. injection Hc' as ->. rewrite <- Hlen in Hs.
    rewrite substring_append in Hs. done.
Qed.

Lemma hasVotedToday_scans_witness :
  collection "votes" "votes" (sample_store false) = Some sample_votes ∧
  Forall (λ v, has_string "createdAt" v = true) sample_votes ∧
  ("T"%char ∉ list_ascii_of_string "2024-05-02") ∧
  ("T"%char ∉ list_ascii_of_string "2024-05-01") ∧
  (∃ s', hasVotedToday "2024-05-02T08:00:00.000Z" "v1" "p_bob" (sample_store false)
         = Some (true, s')) ∧
  (∃ s', hasVotedToday "2024-05-02T08:00:00.000Z" "v1" "p_alice" (sample_store false)
         = Some (false, s')) ∧
  (∃ s', hasVotedToday "2024-05-01T23:59:59.999Z" "v1" "p_alice" (sample_store false)
         = Some (true, s')) ∧
  (∃ s', hasVotedToday "2024-05-01T23:59:59.999Z" "v1" "p_bob" (sample_store false)
         = Some (false, s')).
Proof.
  assert (Forall (λ v, has_string "createdAt" v = true) sample_votes) as Htyped
    by (apply Forall_forall; intros v Hv; apply elem_of_app in Hv as [Hv | Hv];
        [apply elem_of_replicate in Hv as [-> _] | apply list_elem_of_singleton in Hv as ->];
        reflexivity).
  assert ("T"%char ∉ list_ascii_of_string "2024-05-02") as Hmay2
    by (simpl; intros Hin; repeat (apply elem_of_cons in Hin as [Hin | Hin];
          [discriminate Hin|]); by apply not_elem_of_nil in Hin).
  assert ("T"%char ∉ list_ascii_of_string "2024-05-01") as Hmay1
    by (simpl; intros Hin; repeat (apply elem_of_cons in Hin as [Hin | Hin];
          [discriminate Hin|]); by apply not_elem_of_nil in Hin).
  split; [reflexivity|]. split; [exact Htyped|].
  split; [exact Hmay2|]. split; [exact Hmay1|].
  split; [|split; [|split]].
  - destruct (hasVotedToday_scans "2024-05-02" "08:00:00.000Z" "v1" "p_bob"
                (sample_store false) sample_votes eq_refl Htyped Hmay2)
      as (b & s' & Hrun & _ & Htoday & _).
    exists s'. refine (eq_trans Hrun _). do 2 f_equal.
    apply (Htoday (vote "v1" "p_bob" "2024-05-02T07:15:00.000Z") "T07:15:00.000Z");
      try reflexivity.
    apply elem_of_app. right. apply list_elem_of_here.
  - destruct (hasVotedToday_scans "2024-05-02" "08:00:00.000Z" "v1" "p_alice"
                (sample_store false) sample_votes eq_refl Htyped Hmay2)
      as (b & s' & Hrun & _ & _ & Hyesterday).
    exists s'. refine (eq_trans Hrun _). do 2 f_equal. apply Hyesterday.
    intros v Hv _ Hprofile. apply elem_of_app in Hv as [Hv | Hv].
    + apply elem_of_replicate in Hv as [-> _].
      exists "2024-05-01", "T23:59:59.999Z". split; [reflexivity|].
      split; [reflexivity | discriminate].
    + apply list_elem_of_singleton in Hv as ->. discriminate.
  - destruct (hasVotedToday_scans "2024-05-01" "23:59:59.999Z" "v1" "p_alice"
                (sample_store false) sample_votes eq_refl Htyped Hmay1)
      as (b & s' & Hrun & _ & Htoday & _).
    exists s'. refine (eq_trans Hrun _). do 2 f_equal.
    apply (Htoday (vote "v1" "p_alice" "2024-05-01T23:59:59.999Z") "T23:59:59.999Z");
      try reflexivity.
    apply elem_of_app. left. apply elem_of_replicate. split; [reflexivity | lia].
  - destruct (hasVotedToday_scans "2024-05-01" "23:59:59.999Z" "v1" "p_bob"
                (sample_store false) sample_votes eq_refl Htyped Hmay1)
      as (b & s' & Hrun & _ & _ & Hother).
    exists s'. refine (eq_trans Hrun _). do 2 f_equal. apply Hother.
    intros v Hv _ Hprofile. apply elem_of_app in Hv as [Hv | Hv].
    + apply elem_of_replicate in Hv as [-> _]. discriminate.
    + apply list_elem_of_singleton in Hv as ->.
      exists "2024-05-02", "T07:15:00.000Z". split; [reflexivity|].
      split; [reflexivity | discriminate].
Defined.

(** ** Sorting *)

Section Sort.
Context {A : Type} (cmp : A → A → Z).

Lemma sort_insert_perm x l : sort_insert cmp x l ≡ₚ x :: l.
Proof.
  induction l as [|y l IH]; simpl; [done|].
  destruct (cmp x y <=? 0); [done|]. rewrite IH. apply Permutation_swap.
Qed.

Lemma sort_perm l : sort cmp l ≡ₚ l.
Proof.
  induction l as [|x l IH]; [done|]. simpl.
  fold (sort cmp l). by rewrite sort_insert_perm, IH.
Qed.

(** Elements the comparator does not separate keep their order. *)
Lemma sort_insert_stable (g : A → bool) x l :
  (∀ y, y ∈ l → g x = true → g y = true → cmp x y <= 0) →
  List.filter g (sort_insert cmp x l) = List.filter g (x :: l).
Proof.
  induction l as [|y l IH]; intros Hg; [done|]. simpl.
  destruct (cmp x y <=? 0) eqn:Hc; [done|]. apply Z.leb_gt in Hc.
  simpl. rewrite IH by (intros z Hz; apply Hg; by right). simpl.
  destruct (g x) eqn:Hgx; [|done]. destruct (g y) eqn:Hgy; [|done].
  specialize (Hg y (list_elem_of_here _ _) eq_refl Hgy). lia.
Qed.

Lemma sort_stable (g : A → bool) l :
  (∀ x y, x ∈ l → y ∈ l → g x = true → g y = true → cmp x y <= 0) →
  List.filter g (sort cmp l) = List.filter g l.
Proof.
  induction l as [|x l IH]; intros Hg; [done|]. simpl. fold (sort cmp l).
  rewrite sort_insert_stable.
  - simpl. rewrite IH; [done|]. intros y z Hy Hz. apply Hg; by right.
  - intros y Hy. rewrite sort_perm in Hy. apply Hg; [left | by right].
Qed.

(** Among elements on which the comparator is a total preorder the result
    is ordered. *)
Variable P : A → Prop.
Hypothesis cmp_total : ∀ a b, P a → P b → 0 < cmp a b → cmp b a <= 0.
Hypothesis cmp_trans :
  ∀ a b c, P a → P b → P c → cmp a b <= 0 → cmp b c <= 0 → cmp a c <= 0.

Lemma sort_insert_sorted x l :
  P x → Forall P l →
  StronglySorted (λ a b, cmp a b <= 0) l →
  StronglySorted (λ a b, cmp a b <= 0) (sort_insert cmp x l).
Proof.
  intros Hx HP Hs. induction Hs as [|y l Hs IH Hy]; simpl.
  - by repeat constructor.
  - apply Forall_cons in HP as [HPy HP].
    destruct (cmp x y <=? 0) eqn:Hc.
    + apply Z.leb_le in Hc. constructor; [by constructor|].
      constructor; [done|].
      rewrite Forall_forall in Hy, HP |- *. intros z Hz.
      apply (cmp_trans x y z); auto.
    + apply Z.leb_gt in Hc. constructor; [by apply IH|].
      rewrite sort_insert_perm. constructor; [|done].
      by apply cmp_total.
Qed.

Lemma sort_sorted l :
  Forall P l → StronglySorted (λ a b, cmp a b <= 0) (sort cmp l).
Proof.
  induction 1 as [|x l Hx HP IH]; [constructor|]. simpl. fold (sort cmp l).
  apply sort_insert_sorted; [done | by rewrite sort_perm | done].
Qed.

(** When a key tells which elements the comparator does not separate, an
    ordered arrangement that keeps the order inside every key is unique:
    every sort that meets the contract of [Array.prototype.sort] returns
    what [sort] returns. *)
Context {K : Type} `{EqDecision K} (key : A → K).
Hypothesis key_eq :
  ∀ a b, P a → P b → cmp a b <= 0 → cmp b a <= 0 → key a = key b.
Hypothesis key_le : ∀ a b, P a → P b → key a = key b → cmp a b <= 0.

Lemma stable_sorted_unique l1 : ∀ l2,
  Forall P l1 → l1 ≡ₚ l2 →
  StronglySorted (λ a b, cmp a b <= 0) l1 →
  StronglySorted (λ a b, cmp a b <= 0) l2 →
  (∀ k, List.filter (λ x, bool_decide (key x = k)) l1
        = List.filter (λ x, bool_decide (key x = k)) l2) →
  l1 = l2.
Proof.
  induction l1 as [|x l1 IH]; intros l2 HP Hperm Hs1 Hs2 Hst.
  - by apply Permutation_nil in Hperm.
  - destruct l2 as [|y l2]; [by apply Permutation_sym, Permutation_nil in Hperm|].
    apply Forall_cons in HP as [HPx HP].
    apply StronglySorted_inv in Hs1 as [Hs1 Hx].
    apply StronglySorted_inv in Hs2 as [Hs2 Hy].
    assert (P y) as HPy.
    { assert (y ∈ x :: l1) as Hin by (rewrite Hperm; left).
      apply elem_of_cons in Hin as [-> | Hin]; [done|].
      rewrite Forall_forall in HP. auto. }
    assert (cmp x x <= 0) as Hxx by (by apply key_le).
    assert (cmp y y <= 0) as Hyy by (by apply key_le).
    assert (cmp x y <= 0) as Hxy.
    { assert (y ∈ x :: l1) as Hin by (rewrite Hperm; left).
      apply elem_of_cons in Hin as [-> | Hin]; [done|].
      rewrite Forall_forall in Hx. auto. }
    assert (cmp y x <= 0) as Hyx.
    { assert (x ∈ y :: l2) as Hin by (rewrite <- Hperm; left).
      apply elem_of_cons in Hin as [-> | Hin]; [done|].
      rewrite Forall_forall in Hy. auto. }
    assert (key x = key y) as Hk by (by apply key_eq).
    assert (x = y) as <-.
    { assert (bool_decide (key x = key x) = true) as Hcx
        by (by apply bool_decide_eq_true_2).
      assert (bool_decide (key y = key x) = true) as Hcy
        by (by apply bool_decide_eq_true_2).
      specialize (Hst (key x)). simpl in Hst. rewrite Hcx, Hcy in Hst.
      by injection Hst. }
    f_equal. apply IH; [done | by apply Permutation_cons_inv in Hperm | done | done |].
    intros k. specialize (Hst k). simpl in Hst.
    destruct (bool_decide (key x = k)); [|done]. by injection Hst.
Qed.

Lemma sort_unique l l' :
  Forall P l → l' ≡ₚ l →
  StronglySorted (λ a b, cmp a b <= 0) l' →
  (∀ k, List.filter (λ x, bool_decide (key x = k)) l'
        = List.filter (λ x, bool_decide (key x = k)) l) →
  l' = sort cmp l.
Proof.
  intros HP Hperm Hs Hst. apply stable_sorted_unique.
  - by rewrite Hperm.
  - by rewrite Hperm, sort_perm.
  - done.
  - by apply sort_sorted.
  - intros k. rewrite Hst. symmetry. apply sort_stable.
    intros x y Hx Hy Hkx Hky. apply bool_decide_eq_true_1 in Hkx, Hky.
    rewrite Forall_forall in HP. apply key_le; [auto | auto | congruence].
Qed.
End Sort.

Lemma StronglySorted_lookup {A} (R : A → A → Prop) l i j a b :
  StronglySorted R l → (i < j)%nat → l !! i = Some a → l !! j = Some b → R a b.
Proof.
  intros Hs. revert i j. induction Hs as [|x l Hs IH Hx]; intros i j Hij Hi Hj; [done|].
  destruct j as [|j]; [lia|]. simpl in Hj. destruct i as [|i]; simpl in Hi.
  - injection Hi as ->. rewrite Forall_forall in Hx. apply Hx.
    by eapply list_elem_of_lookup_2.
  - apply (IH i j); [lia | done | done].
Qed.

(** ** The order of posts *)

Section PostsOrder.
Variable Date_getTime : string → option Z.

Lemma comparePosts_dated a b ta tb :
  createdAt_time Date_getTime a = Some ta →
  createdAt_time Date_getTime b = Some tb →
  comparePosts Date_getTime a b
  = if isPinned a && negb (isPinned b) then -1
    else if negb (isPinned a) && isPinned b then 1
    else tb - ta.
Proof. intros Ha Hb. unfold comparePosts. by rewrite Ha, Hb. Qed.

Lemma comparePosts_total a b :
  is_Some (createdAt_time Date_getTime a) →
  is_Some (createdAt_time Date_getTime b) →
  0 < comparePosts Date_getTime a b → comparePosts Date_getTime b a <= 0.
Proof.
  intros [ta Ha] [tb Hb].
  rewrite (comparePosts_dated a b ta tb), (comparePosts_dated b a tb ta) by done.
  destruct (isPinned a), (isPinned b); simpl; lia.
Qed.

Lemma comparePosts_trans a b c :
  is_Some (createdAt_time Date_getTime a) →
  is_Some (createdAt_time Date_getTime b) →
  is_Some (createdAt_time Date_getTime c) →
  comparePosts Date_getTime a b <= 0 → comparePosts Date_getTime b c <= 0 →
  comparePosts Date_getTime a c <= 0.
Proof.
  intros [ta Ha] [tb Hb] [tc Hc].
  rewrite (comparePosts_dated a b ta tb), (comparePosts_dated b c tb tc),
    (comparePosts_dated a c ta tc) by done.
  destruct (isPinned a), (isPinned b), (isPinned c); simpl; lia.
Qed.

Lemma comparePosts_same_rank pin t a b :
  same_rank Date_getTime pin t a = true → same_rank Date_getTime pin t b = true →
  comparePosts Date_getTime a b <= 0.
Proof.
  unfold same_rank. intros [Ha Hta]%andb_prop [Hb Htb]%andb_prop.
  apply Bool.eqb_prop in Ha, Hb.
  destruct (createdAt_time Date_getTime a) as [ta|] eqn:Ea; [|done].
  destruct (createdAt_time Date_getTime b) as [tb|] eqn:Eb; [|done].
  apply Z.eqb_eq in Hta, Htb. subst ta tb.
  rewrite (comparePosts_dated a b t t), Ha, Hb by done.
  destruct pin; simpl; lia.
Qed.

Lemma dated_has_string p :
  is_Some (createdAt_time Date_getTime p) → has_string "createdAt" p = true.
Proof.
  unfold createdAt_time, has_string. intros [t Ht].
  by destruct (p !! "createdAt") as [[]|].
Qed.

Lemma getAllPosts_run s ps :
  collection "posts" "posts" s = Some ps →
  Forall (λ p, is_Some (createdAt_time Date_getTime p)) ps →
  ∃ s', getAllPosts Date_getTime s = Some (sort (comparePosts Date_getTime) ps, s').
Proof.
  intros H Hdated. unfold getAllPosts. open_read H.
  assert (forallb (has_string "createdAt") ps = true) as ->.
  { apply forallb_forall. intros p Hp. apply dated_has_string.
    rewrite Forall_forall in Hdated. apply Hdated. by apply list_elem_of_In. }
  unfold bind at 1. unfold bind, mutated, ret, typed.
  destruct (_ && _); by eexists.
Qed.

Lemma comparePosts_key_eq a b :
  is_Some (createdAt_time Date_getTime a) →
  is_Some (createdAt_time Date_getTime b) →
  comparePosts Date_getTime a b <= 0 → comparePosts Date_getTime b a <= 0 →
  (isPinned a, createdAt_time Date_getTime a)
  = (isPinned b, createdAt_time Date_getTime b).
Proof.
  intros [ta Ha] [tb Hb].
  rewrite (comparePosts_dated a b ta tb), (comparePosts_dated b a tb ta), Ha, Hb by done.
  destruct (isPinned a), (isPinned b); simpl; intros; try lia;
    do 2 f_equal; lia.
Qed.

Lemma comparePosts_key_le a b :
  is_Some (createdAt_time Date_getTime a) →
  is_Some (createdAt_time Date_getTime b) →
  (isPinned a, createdAt_time Date_getTime a)
  = (isPinned b, createdAt_time Date_getTime b) →
  comparePosts Date_getTime a b <= 0.
Proof.
  intros [ta Ha] [tb Hb] [= Hp Ht].
  rewrite (comparePosts_dated a b ta tb), Hp by done.
  assert (ta = tb) as -> by congruence.
  destruct (isPinned b); simpl; lia.
Qed.

(** What [getAllPosts] returns does not depend on the sorting algorithm of
    the engine: it is the only arrangement of the stored posts that is
    ordered by the comparator and keeps the stored order of the posts the
    comparator does not separate. *)
Lemma getAllPosts_any_sort s ps arranged :
  collection "posts" "posts" s = Some ps →
  Forall (λ p, is_Some (createdAt_time Date_getTime p)) ps →
  arranged ≡ₚ ps →
  StronglySorted (λ a b, comparePosts Date_getTime a b <= 0) arranged →
  (∀ k, List.filter
          (λ p, bool_decide ((isPinned p, createdAt_time Date_getTime p) = k)) arranged
        = List.filter
          (λ p, bool_decide ((isPinned p, createdAt_time Date_getTime p) = k)) ps) →
  ∃ s', getAllPosts Date_getTime s = Some (arranged, s').
Proof.
  intros H Hdated Hperm Hsorted Hstable.
  destruct (getAllPosts_run s ps H Hdated) as [s' Hrun]. exists s'.
  rewrite Hrun. do 2 f_equal. symmetry.
  by apply (sort_unique _ _ comparePosts_total comparePosts_trans
              (λ p, (isPinned p, createdAt_time Date_getTime p))
              comparePosts_key_eq comparePosts_key_le).
Qed.

(** C5 (as amended): for stored posts whose [createdAt] all parse,
    [getAllPosts()] returns all of them, every pinned post before every
    unpinned one, and within the pinned posts as within the unpinned ones in
    the order of [createdAt] descending, the timestamps compared as numbers;
    posts with the same pinned flag and the same timestamp keep their stored
    relative order.  For A (unpinned, created at t1), B (pinned, created at
    t0 < t1) and C (unpinned, created at t2 > t1) it returns [B, C, A]. *)
Theorem getAllPosts_order s ps :
  collection "posts" "posts" s = Some ps →
  Forall (λ p, is_Some (createdAt_time Date_getTime p)) ps →
  ∃ sorted s',
    getAllPosts Date_getTime s = Some (sorted, s') ∧
    sorted ≡ₚ ps ∧
    (∀ i j a b, (i < j)%nat → sorted !! i = Some a → sorted !! j = Some b →
       (isPinned b = true → isPinned a = true) ∧
       (isPinned a = isPinned b →
          ∀ ta tb, createdAt_time Date_getTime a = Some ta →
                   createdAt_time Date_getTime b = Some tb → tb <= ta)) ∧
    (∀ pin t, List.filter (same_rank Date_getTime pin t) sorted
              = List.filter (same_rank Date_getTime pin t) ps) ∧
    (∀ A B C t0 t1 t2,
       ps = [A; B; C] →
       isPinned A = false → isPinned B = true → isPinned C = false →
       createdAt_time Date_getTime A = Some t1 →
       createdAt_time Date_getTime B = Some t0 →
       createdAt_time Date_getTime C = Some t2 →
       t0 < t1 → t1 < t2 →
       sorted = [B; C; A]).
Proof.
  intros H Hdated. destruct (getAllPosts_run s ps H Hdated) as [s' Hrun].
  exists (sort (comparePosts Date_getTime) ps), s'.
  split; [done|]. split; [apply sort_perm|]. split; [|split].
  - intros i j a b Hij Hi Hj.
    assert (comparePosts Date_getTime a b <= 0) as Hle.
    { eapply (StronglySorted_lookup (λ a b, comparePosts Date_getTime a b <= 0));
        [|done..].
      by apply (sort_sorted _ _ comparePosts_total comparePosts_trans). }
    assert (∀ p, p ∈ sort (comparePosts Date_getTime) ps →
                 is_Some (createdAt_time Date_getTime p)) as Hin.
    { intros p Hp. rewrite sort_perm in Hp. rewrite Forall_forall in Hdated. auto. }
    destruct (Hin a) as [ta Ha]; [by eapply list_elem_of_lookup_2|].
    destruct (Hin b) as [tb Hb]; [by eapply list_elem_of_lookup_2|].
    rewrite (comparePosts_dated a b ta tb) in Hle by done. split.
    + intros Hpb. rewrite Hpb in Hle. destruct (isPinned a); [done|]. simpl in Hle. lia.
    + intros Hp ta' tb' Ha' Hb'. rewrite Hp in Hle.
      assert (ta' = ta) as -> by congruence. assert (tb' = tb) as -> by congruence.
      destruct (isPinned b); simpl in Hle; lia.
  - intros pin t. apply sort_stable. intros x y _ _. apply comparePosts_same_rank.
  - intros A B C t0 t1 t2 -> HA HB HC HtA HtB HtC H01 H12. simpl.
    rewrite (comparePosts_dated B C t0 t2), HB, HC by done. simpl.
    rewrite (comparePosts_dated A B t1 t0), HA, HB by done. simpl.
    rewrite (comparePosts_dated A C t1 t2), HA, HC by done. simpl.
    destruct (t2 - t1 <=? 0) eqn:Hc; [apply Z.leb_le in Hc; lia | done].
Qed.
End PostsOrder.

Lemma getAllPosts_order_witness :
  collection "posts" "posts" (posts_store false [post_A; post_B; post_C])
  = Some [post_A; post_B; post_C] ∧
  Forall (λ p, is_Some (createdAt_time iso_getTime p)) [post_A; post_B; post_C] ∧
  ∃ s', getAllPosts iso_getTime (posts_store false [post_A; post_B; post_C])
        = Some ([post_B; post_C; post_A], s').
Proof.
  assert (Forall (λ p, is_Some (createdAt_time iso_getTime p))
            [post_A; post_B; post_C]) as Hdated
    by (repeat constructor; eexists; reflexivity).
  split; [reflexivity|]. split; [exact Hdated|].
  destruct (getAllPosts_order iso_getTime (posts_store false [post_A; post_B; post_C])
              [post_A; post_B; post_C] eq_refl Hdated)
    as (sorted & s' & Hrun & _ & _ & _ & Hexample).
  exists s'. rewrite Hrun. do 2 f_equal.
  apply (Hexample post_A post_B post_C 1714521600000 1714608000000 1714694400000);
    reflexivity.
Defined.

(** C5 as stated fails on "the pinned posts keeping their stored relative
    order": the comparator falls through to the dates when both posts are
    pinned, so of two pinned posts stored oldest first the newer one comes
    out first. *)
Lemma getAllPosts_pinned_by_date :
  collection "posts" "posts" (posts_store false [pinned_old; pinned_new])
  = Some [pinned_old; pinned_new] ∧
  isPinned pinned_old = true ∧ isPinned pinned_new = true ∧
  fst <$> getAllPosts iso_getTime (posts_store false [pinned_old; pinned_new])
  = Some [pinned_new; pinned_old].
Proof. repeat split; reflexivity. Qed.

(** Why the dates have to parse: against a post whose [createdAt] is no
    date the comparator answers [NaN], which [sort] reads as 0, so the
    undated post ties with both its neighbours and the older post A stays
    in front of the newer post C. *)
Lemma getAllPosts_undated :
  createdAt_time iso_getTime post_undated = None ∧
  comparePosts iso_getTime post_A post_undated = 0 ∧
  comparePosts iso_getTime post_undated post_C = 0 ∧
  0 < comparePosts iso_getTime post_A post_C ∧
  fst <$> getAllPosts iso_getTime (posts_store false [post_A; post_undated; post_C])
  = Some [post_A; post_undated; post_C].
Proof. repeat split; reflexivity. Qed.

(** * More properties of the record store *)

(** ** The two backends are kept apart *)

Section Keeps.
Variable R : state → state → Prop.
Hypothesis R_refl : ∀ s, R s s.
Hypothesis R_trans : ∀ s1 s2 s3, R s1 s2 → R s2 s3 → R s1 s3.

Lemma keeps_ret {A} (a : A) : keeps R (ret a).
Proof. intros s a' s' [= _ <-]. apply R_refl. Qed.

Lemma keeps_typed {A} (o : option A) : keeps R (typed o).
Proof.
  intros s a s' H. unfold typed in H. destruct o; [|done].
  injection H as _ <-. apply R_refl.
Qed.

Lemma keeps_bind {A B} (m : M A) (k : A → M B) :
  keeps R m → (∀ a, keeps R (k a)) → keeps R (bind m k).
Proof.
  intros Hm Hk s b s' H. unfold bind in H.
  destruct (m s) as [[a s1]|] eqn:Hms; [|done].
  apply (R_trans s s1 s'); [by eapply Hm | by eapply Hk].
Qed.
End Keeps.

Lemma backend_respected_refl s : backend_respected s s.
Proof. by repeat split. Qed.

Lemma backend_respected_trans s1 s2 s3 :
  backend_respected s1 s2 → backend_respected s2 s3 → backend_respected s1 s3.
Proof.
  intros (Hv1 & Hk1 & Hh1 & Hl1) (Hv2 & Hk2 & Hh2 & Hl2).
  split; [congruence|]. split; [congruence|]. split.
  - intros Hv. destruct (Hh1 Hv) as [E1 E2].
    destruct Hh2 as [E3 E4]; [congruence|]. split; congruence.
  - intros Hv. destruct (Hl1 Hv) as [E1 E2].
    destruct Hl2 as [E3 E4]; [congruence|]. split; congruence.
Qed.

Lemma readData_respected name d s : backend_respected s (snd (readData name d s)).
Proof.
  destruct s as [[] k dd f m q]; unfold readData, fs; simpl.
  - by repeat split.
  - unfold ensureDataDir, fs. simpl. destruct dd; simpl;
      destruct (f !! _); simpl; by repeat split.
Qed.

Lemma writeData_respected name data s : backend_respected s (writeData name data s).
Proof.
  destruct s as [v k dd f m q]. destruct v, k, dd;
    unfold writeData, writeDataAsync, ensureDataDir, fs; simpl; by repeat split.
Qed.

Lemma keeps_readDataM name d : keeps backend_respected (readDataM name d).
Proof.
  intros s a s' [= H]. replace s' with (snd (readData name d s)) by (by rewrite H).
  apply readData_respected.
Qed.

Lemma keeps_writeDataM name d : keeps backend_respected (writeDataM name d).
Proof. intros s a s' [= _ <-]. apply writeData_respected. Qed.

Lemma keeps_mutated name d : keeps backend_respected (mutated name d).
Proof.
  intros s a s' H. unfold mutated in H.
  destruct (isVercel s) eqn:Hv; simpl in H.
  - destruct (memoryStore s !! name) as [v|]; [destruct (truthy v)|];
      injection H as _ <-; try apply backend_respected_refl.
    repeat split; try done. simpl. congruence.
  - injection H as _ <-. apply backend_respected_refl.
Qed.

Lemma keeps_rearranged name key es : keeps backend_respected (rearranged name key es).
Proof.
  intros s a s' H. unfold rearranged in H.
  destruct (isVercel s) eqn:Hv; simpl in H.
  - destruct (memoryStore s !! name) as [v|]; [destruct (truthy v)|];
      injection H as _ <-; try apply backend_respected_refl.
    repeat split; try done. simpl. congruence.
  - injection H as _ <-. apply backend_respected_refl.
Qed.

(** X1: no repository function mixes the backends.  Whatever it returns,
    the mode and the client stay as they were; run by a hosted process it
    leaves the files and the data directory untouched, and run by a local
    process it leaves the cache untouched and sends nothing to the remote
    store. *)
Theorem repositories_respect_backend :
  keeps backend_respected getAllProfiles ∧
  (∀ id, keeps backend_respected (getProfileById id)) ∧
  (∀ p, keeps backend_respected (createProfile p)) ∧
  (∀ now id U, keeps backend_respected (updateProfile now id U)) ∧
  (∀ id, keeps backend_respected (deleteProfile id)) ∧
  (∀ limit, keeps backend_respected (getTopProfiles limit)) ∧
  keeps backend_respected getAllUsers ∧
  (∀ id, keeps backend_respected (getUserById id)) ∧
  (∀ lower name, keeps backend_respected (getUserByUsername lower name)) ∧
  (∀ u, keeps backend_respected (createUser u)) ∧
  (∀ id U, keeps backend_respected (updateUser id U)) ∧
  (∀ getTime, keeps backend_respected (getAllPosts getTime)) ∧
  (∀ getTime id, keeps backend_respected (getPostById getTime id)) ∧
  (∀ p, keeps backend_respected (createPost p)) ∧
  (∀ id U, keeps backend_respected (updatePost id U)) ∧
  (∀ id, keeps backend_respected (deletePost id)) ∧
  (∀ id, keeps backend_respected (likePost id)) ∧
  (∀ getTime limit, keeps backend_respected (getChatMessages getTime limit)) ∧
  (∀ m, keeps backend_respected (addChatMessage m)) ∧
  keeps backend_respected getVotes ∧
  (∀ v, keeps backend_respected (addVote v)) ∧
  (∀ id, keeps backend_respected (getVotesForProfile id)) ∧
  (∀ now V P, keeps backend_respected (hasVotedToday now V P)) ∧
  (∀ now V, keeps backend_respected (getTodayVoteCount now V)) ∧
  (∀ now id, keeps backend_respected (updateProfileVotesAndRank now id)).
Proof.
  repeat apply conj; intros;
    unfold getProfileById, getTopProfiles, getUserById, getUserByUsername,
      getPostById, getVotesForProfile, hasVotedToday, getTodayVoteCount,
      updateProfileVotesAndRank, getVotesForProfile,
      getAllProfiles, createProfile, updateProfile, deleteProfile, getAllUsers,
      createUser, updateUser, getAllPosts, createPost, updatePost, deletePost,
      likePost, getChatMessages, addChatMessage, getVotes, addVote;
    repeat first
      [ apply keeps_readDataM | apply keeps_writeDataM | apply keeps_mutated
      | apply keeps_rearranged
      | apply (keeps_ret backend_respected backend_respected_refl)
      | apply (keeps_typed backend_respected backend_respected_refl)
      | apply (keeps_bind backend_respected backend_respected_trans); [|intros ?]
      | match goal with |- keeps _ (match ?x with _ => _ end) => destruct x end ].
Qed.

(** ** Runs of calls *)

Lemma readDataAsync_state r name d s :
  snd (readDataAsync r name d s) = s ∨
  snd (readDataAsync r name d s) = snd (readData name d s).
Proof.
  unfold readDataAsync, readData, fs. destruct (isVercel s); simpl.
  - destruct (kv s); simpl; [destruct r|]; by left.
  - by right.
Qed.

Lemma run_call_other name d c s :
  call_name c ≠ name →
  fst (readData name d (run_call c s)) = fst (readData name d s).
Proof.
  intros Hne. destruct c as [n d'|r n d'|n data]; simpl in *.
  - by apply readData_readData_ne.
  - destruct (readDataAsync_state r n d' s) as [-> | ->]; [done|].
    by apply readData_readData_ne.
  - by apply readData_writeData_ne.
Qed.

(** X2: the collections do not interfere.  Whatever is read, sync or
    async, and written under other names, in either mode, a read of [name]
    returns what it returned before. *)
Theorem collections_isolated name d cs s :
  Forall (λ c, call_name c ≠ name) cs →
  fst (readData name d (run_calls cs s)) = fst (readData name d s).
Proof.
  unfold run_calls. revert s. induction cs as [|c cs IH]; intros s Hcs; [done|].
  apply Forall_cons in Hcs as [Hc Hcs]. simpl. rewrite IH by done.
  by apply run_call_other.
Qed.

Lemma collections_isolated_witness :
  Forall (λ c, call_name c ≠ "votes")
    [CallWrite "chat" (collection_doc "messages" [message "m1"]);
     CallRead "posts" (collection_doc "posts" []);
     CallReadAsync KvError "profiles" JNull] ∧
  fst (readData "votes" JNull
         (run_calls [CallWrite "chat" (collection_doc "messages" [message "m1"]);
                     CallRead "posts" (collection_doc "posts" []);
                     CallReadAsync KvError "profiles" JNull] (sample_store false)))
  = collection_doc "votes" sample_votes.
Proof.
  assert (Forall (λ c, call_name c ≠ "votes")
            [CallWrite "chat" (collection_doc "messages" [message "m1"]);
             CallRead "posts" (collection_doc "posts" []);
             CallReadAsync KvError "profiles" JNull]) as Hcs
    by (repeat constructor; discriminate).
  split; [exact Hcs|].
  rewrite (collections_isolated "votes" JNull _ (sample_store false) Hcs).
  reflexivity.
Defined.

Lemma run_call_hosted c s :
  isVercel s = true →
  isVercel (run_call c s) = true ∧ kv (run_call c s) = kv s ∧
  files (run_call c s) = files s ∧ dataDirExists (run_call c s) = dataDirExists s ∧
  memoryStore (run_call c s)
  = foldl (λ m w, <[w.1 := w.2]> m) (memoryStore s) (writes_of [c]) ∧
  kvRequests (run_call c s)
  = if kv s then kvRequests s ++ writes_of [c] else kvRequests s.
Proof.
  intros Hv. destruct c as [n d|r n d|n data]; simpl.
  - rewrite readData_hosted by done. simpl. rewrite app_nil_r.
    repeat split; try done. by destruct (kv s).
  - unfold readDataAsync, fs. rewrite Hv. simpl. rewrite app_nil_r.
    destruct (kv s) eqn:Hk; simpl; [destruct r|]; simpl; rewrite ?Hk; by repeat split.
  - unfold writeData, writeDataAsync, fs. rewrite Hv. simpl. rewrite Hv. simpl.
    destruct (kv s) eqn:Hk; simpl; rewrite ?Hv, ?Hk; repeat split; try done.
    by rewrite insert_insert_eq.
Qed.

Lemma writes_of_cons c cs : writes_of (c :: cs) = writes_of [c] ++ writes_of cs.
Proof. by destruct c. Qed.

(** X3: in a hosted process the cache is the cache it started with
    overwritten by the documents written, in order; with a client every
    write, and nothing else, is sent to the remote store once, in the order
    of the calls, and without a client nothing is sent; no read, sync or
    async, changes the cache, and the file system is never touched. *)
Theorem hosted_writes_logged cs s :
  isVercel s = true →
  memoryStore (run_calls cs s)
  = foldl (λ m w, <[w.1 := w.2]> m) (memoryStore s) (writes_of cs) ∧
  kvRequests (run_calls cs s)
  = (if kv s then kvRequests s ++ writes_of cs else kvRequests s) ∧
  files (run_calls cs s) = files s ∧
  dataDirExists (run_calls cs s) = dataDirExists s.
Proof.
  unfold run_calls. revert s. induction cs as [|c cs IH]; intros s Hv.
  - simpl. rewrite app_nil_r. by destruct (kv s).
  - destruct (run_call_hosted c s Hv) as (Hv1 & Hk1 & Hf1 & Hd1 & Hm1 & Hq1).
    destruct (IH (run_call c s) Hv1) as (Hm & Hq & Hf & Hd).
    rewrite writes_of_cons, foldl_app.
    change (foldl (λ s0 c0, run_call c0 s0) s (c :: cs))
      with (foldl (λ s0 c0, run_call c0 s0) (run_call c s) cs).
    rewrite Hm, Hq, Hf, Hd, Hk1, Hm1, Hq1, Hf1, Hd1.
    repeat split; try done.
    destruct (kv s); [|done]. by rewrite app_assoc.
Qed.

Lemma hosted_writes_logged_witness :
  isVercel (started true) = true ∧
  kvRequests
    (run_calls [CallWrite "votes" (collection_doc "votes" sample_votes);
                CallRead "chat" (collection_doc "messages" []);
                CallReadAsync (KvValue None) "chat" (collection_doc "messages" []);
                CallWrite "chat" (collection_doc "messages" [message "m1"])]
       (started true))
  = [("votes", collection_doc "votes" sample_votes);
     ("chat", collection_doc "messages" [message "m1"])].
Proof.
  split; [reflexivity|].
  exact (proj1 (proj2 (hosted_writes_logged
    [CallWrite "votes" (collection_doc "votes" sample_votes);
     CallRead "chat" (collection_doc "messages" []);
     CallReadAsync (KvValue None) "chat" (collection_doc "messages" []);
     CallWrite "chat" (collection_doc "messages" [message "m1"])]
    (started true) eq_refl))).
Defined.

Lemma run_call_local c s :
  isVercel s = false →
  isVercel (run_call c s) = false ∧
  dataDirExists (run_call c s) = true ∧
  (∀ p, is_Some (files s !! p) → is_Some (files (run_call c s) !! p)) ∧
  is_Some (files (run_call c s) !! getFilePath s (call_name c)) ∧
  memoryStore (run_call c s) = memoryStore s ∧
  kvRequests (run_call c s) = kvRequests s.
Proof.
  intros Hv.
  assert (∀ n d,
    isVercel (snd (readData n d s)) = false ∧
    dataDirExists (snd (readData n d s)) = true ∧
    (∀ p, is_Some (files s !! p) → is_Some (files (snd (readData n d s)) !! p)) ∧
    is_Some (files (snd (readData n d s)) !! getFilePath s n) ∧
    memoryStore (snd (readData n d s)) = memoryStore s ∧
    kvRequests (snd (readData n d s)) = kvRequests s) as Hread.
  { intros n d. unfold readData, fs, ensureDataDir, fs. rewrite Hv. simpl.
    assert (getFilePath (if negb (dataDirExists s) then set_dataDirExists true s else s) n
            = getFilePath s n) as ->
      by (apply getFilePath_eq; by destruct (dataDirExists s)).
    assert (files (if negb (dataDirExists s) then set_dataDirExists true s else s)
            = files s) as -> by (by destruct (dataDirExists s)).
    destruct (files s !! getFilePath s n) eqn:Hf; simpl.
    - destruct (dataDirExists s) eqn:Hd; simpl; rewrite ?Hf; by repeat split.
    - destruct (dataDirExists s) eqn:Hd; simpl; rewrite ?lookup_insert_eq;
        repeat split; try done; intros p Hp;
        (destruct (decide (p = getFilePath s n)) as [->|Hne];
         [by rewrite lookup_insert_eq | by rewrite lookup_insert_ne]). }
  destruct c as [n d|r n d|n data]; simpl.
  - apply Hread.
  - rewrite readDataAsync_local by done. apply Hread.
  - rewrite writeData_local by done. unfold ensureDataDir, fs. rewrite Hv. simpl.
    destruct (dataDirExists s) eqn:Hd; simpl; rewrite ?lookup_insert_eq;
      repeat split; try done; intros p Hp;
      (destruct (decide (p = getFilePath s n)) as [->|Hne];
       [by rewrite lookup_insert_eq | by rewrite lookup_insert_ne]).
Qed.

(** X4: a local process never removes a file: every file that exists
    keeps existing, every collection a call names, reads included, has its
    file afterwards, the data directory exists after the first call, and
    neither the cache nor the remote store is used. *)
Theorem local_files_kept cs s :
  isVercel s = false →
  (∀ p, is_Some (files s !! p) → is_Some (files (run_calls cs s) !! p)) ∧
  (∀ c, c ∈ cs → is_Some (files (run_calls cs s) !! getFilePath s (call_name c))) ∧
  (cs ≠ [] → dataDirExists (run_calls cs s) = true) ∧
  memoryStore (run_calls cs s) = memoryStore s ∧
  kvRequests (run_calls cs s) = kvRequests s.
Proof.
  unfold run_calls. revert s. induction cs as [|c cs IH]; intros s Hv.
  - simpl. repeat split; try done. intros c Hc. by apply not_elem_of_nil in Hc.
  - destruct (run_call_local c s Hv) as (Hv1 & Hd1 & Hf1 & Hc1 & Hm1 & Hq1).
    destruct (IH (run_call c s) Hv1) as (Hf & Hc & Hd & Hm & Hq). simpl.
    split; [|split; [|split; [|split]]].
    + intros p Hp. by apply Hf, Hf1.
    + intros c' Hin. apply elem_of_cons in Hin as [->|Hin].
      * by apply Hf.
      * rewrite (getFilePath_eq s (run_call c s)) by congruence. by apply Hc.
    + intros _. destruct cs as [|c' cs]; [done|]. by apply Hd.
    + congruence.
    + congruence.
Qed.

Lemma local_files_kept_witness :
  isVercel (started false) = false ∧
  is_Some (files (run_calls [CallRead "chat" (collection_doc "messages" []);
                             CallWrite "votes" (collection_doc "votes" sample_votes)]
                    (started false)) !! "data/chat.json") ∧
  dataDirExists (run_calls [CallRead "chat" (collection_doc "messages" []);
                            CallWrite "votes" (collection_doc "votes" sample_votes)]
                   (started false)) = true ∧
  memoryStore (run_calls [CallRead "chat" (collection_doc "messages" []);
                          CallWrite "votes" (collection_doc "votes" sample_votes)]
                 (started false)) = ∅.
Proof.
  split; [reflexivity|].
  destruct (local_files_kept
              [CallRead "chat" (collection_doc "messages" []);
               CallWrite "votes" (collection_doc "votes" sample_votes)]
              (started false) eq_refl) as (_ & Hnamed & Hdir & Hcache & _).
  split; [|split].
  - apply (Hnamed (CallRead "chat" (collection_doc "messages" []))). by left.
  - by apply Hdir.
  - exact Hcache.
Defined.

(** ** The two reads of a hosted process *)

(** X5: after a hosted process with a client wrote a truthy document [D],
    the sync read returns [D], while the async read asks the remote store
    and looks at the cache only when that request fails: it returns [D]
    on a failure, the default when the remote store has no value or a falsy
    one, and whatever truthy value the remote store holds otherwise. *)
Theorem readDataAsync_after_writeData name D d s :
  isVercel s = true → kv s = true → truthy D = true →
  fst (readData name d (writeData name D s)) = D ∧
  fst (readDataAsync KvError name d (writeData name D s)) = D ∧
  fst (readDataAsync (KvValue None) name d (writeData name D s)) = d ∧
  (∀ R, truthy R = true →
        fst (readDataAsync (KvValue (Some R)) name d (writeData name D s)) = R) ∧
  (∀ R, truthy R = false →
        fst (readDataAsync (KvValue (Some R)) name d (writeData name D s)) = d).
Proof.
  intros Hv Hk Ht.
  assert (isVercel (writeData name D s) = true) as Hv' by (by rewrite isVercel_writeData).
  assert (kv (writeData name D s) = true) as Hk'.
  { unfold writeData, writeDataAsync. rewrite Hv. simpl. by rewrite Hv, Hk. }
  split; [by rewrite writeData_then_readData, Hv, Ht|].
  unfold readDataAsync. rewrite Hv', Hk'. simpl.
  rewrite writeData_hosted by done. rewrite lookup_insert_eq. simpl. rewrite Ht.
  repeat split; try done; intros R HR; by rewrite HR.
Qed.

Lemma readDataAsync_after_writeData_witness :
  isVercel (started true) = true ∧ kv (started true) = true ∧
  truthy (collection_doc "messages" [message "m1"]) = true ∧
  fst (readData "chat" (collection_doc "messages" [])
         (writeData "chat" (collection_doc "messages" [message "m1"]) (started true)))
  = collection_doc "messages" [message "m1"] ∧
  fst (readDataAsync (KvValue None) "chat" (collection_doc "messages" [])
         (writeData "chat" (collection_doc "messages" [message "m1"]) (started true)))
  = collection_doc "messages" [].
Proof.
  split; [reflexivity|]. split; [reflexivity|]. split; [reflexivity|].
  destruct (readDataAsync_after_writeData "chat"
              (collection_doc "messages" [message "m1"]) (collection_doc "messages" [])
              (started true) eq_refl eq_refl eq_refl) as (Hsync & _ & Hnone & _).
  split; [exact Hsync | exact Hnone].
Defined.

(** * More properties of the repositories *)

(** ** Appending and merging *)

(** The shape [createProfile], [createUser], [createPost] and [addVote]
    share. *)
Lemma create_run (name key : string) (x : entity) (create : M entity) s es :
  create = (let* data := readDataM name (collection_doc key []) in
            let* items := typed (get_list key data) in
            let* _ := writeDataM name (set_list key (items ++ [x]) data) in
            ret x) →
  collection name key s = Some es →
  ∃ s', create s = Some (x, s') ∧
        collection name key s' = Some (es ++ [x]) ∧
        ∀ name' key', name' ≠ name → collection name' key' s' = collection name' key' s.
Proof.
  intros -> H. open_read H. unfold bind, writeDataM, ret.
  eexists. split; [reflexivity|]. split.
  - rewrite collection_writeData by (by eapply set_list_truthy).
    by eapply get_list_set_list.
  - intros name' key' Hne. rewrite collection_writeData_ne by done.
    replace s1 with (snd (readData name (collection_doc key []) s))
      by (by rewrite Hread).
    by apply collection_readData_ne.
Qed.

(** The shape [updateUser] and [updatePost] share. *)
Lemma update_run (name key id : string) (U : entity) (update : M (option entity)) s es :
  update = (let* data := readDataM name (collection_doc key []) in
            let* items := typed (get_list key data) in
            match findIndex (id_is id) items with
            | None => ret None
            | Some index =>
                let* old := typed (items !! index) in
                let merged := U ∪ old in
                let data := set_list key (<[index := merged]> items) data in
                let* _ := writeDataM name data in
                ret (Some merged)
            end) →
  collection name key s = Some es →
  (Forall (λ p, id_is id p = false) es →
     ∃ s', update s = Some (None, s') ∧ collection name key s' = Some es) ∧
  (∀ i old, first_with (id_is id) es i old →
     ∃ s', update s = Some (Some (U ∪ old), s') ∧
           collection name key s' = Some (<[i := U ∪ old]> es)).
Proof.
  intros -> H. split.
  - intros Hno. open_read H. rewrite (findIndex_None _ _ Hno).
    eexists. split; [reflexivity|]. by eapply after_read.
  - intros i old Hfirst. open_read H.
    rewrite (findIndex_first _ _ _ _ Hfirst). destruct Hfirst as (Hi & _ & _).
    unfold bind at 1; unfold typed at 1. rewrite Hi.
    unfold bind, writeDataM, ret. eexists. split; [reflexivity|].
    rewrite collection_writeData by (by eapply set_list_truthy).
    by eapply get_list_set_list.
Qed.

Lemma find_app_fresh {A} (f : A → bool) l x :
  Forall (λ y, f y = false) l → List.find f (l ++ [x]) = if f x then Some x else None.
Proof. induction 1 as [|y l Hy _ IH]; simpl; [done | by rewrite Hy]. Qed.

Lemma find_app_found {A} (f : A → bool) l k y :
  List.find f l = Some y → List.find f (l ++ k) = Some y.
Proof.
  induction l as [|z l IH]; simpl; [done|]. destruct (f z); [done | apply IH].
Qed.

Lemma find_app_other {A} (f : A → bool) l x :
  f x = false → List.find f (l ++ [x]) = List.find f l.
Proof.
  intros Hx. induction l as [|z l IH]; simpl; [by rewrite Hx|].
  by destruct (f z).
Qed.

Lemma find_none {A} (f : A → bool) l :
  Forall (λ y, f y = false) l → List.find f l = None.
Proof. induction 1 as [|y l Hy _ IH]; simpl; [done | by rewrite Hy]. Qed.

Lemma find_ext {A} (f g : A → bool) l :
  (∀ x, f x = g x) → List.find f l = List.find g l.
Proof. intros H. induction l as [|x l IH]; [done|]. simpl. by rewrite H, IH. Qed.

Lemma find_filter_out {A} (f g : A → bool) l :
  (∀ x, f x = true → g x = true) →
  List.find f (List.filter g l) = List.find f l.
Proof.
  intros Hfg. induction l as [|x l IH]; simpl; [done|].
  destruct (g x) eqn:Hg; simpl.
  - by rewrite IH.
  - destruct (f x) eqn:Hf; [|done]. apply Hfg in Hf. congruence.
Qed.

Lemma find_filter_gone {A} (f : A → bool) l :
  List.find f (List.filter (λ x, negb (f x)) l) = None.
Proof.
  induction l as [|x l IH]; simpl; [done|].
  destruct (f x) eqn:Hf; simpl; [done|]. by rewrite Hf.
Qed.

Lemma existsb_filter_gone {A} (f : A → bool) l :
  existsb f (List.filter (λ x, negb (f x)) l) = false.
Proof.
  induction l as [|x l IH]; simpl; [done|].
  destruct (f x) eqn:Hf; simpl; [done|]. by rewrite Hf.
Qed.

Lemma id_is_functional p id id' : id_is id p = true → id_is id' p = true → id = id'.
Proof.
  unfold id_is. intros H1%is_str_true H2%is_str_true. congruence.
Qed.

(** ** Profiles: creating, deleting and looking up *)

Lemma getAllProfiles_run s ps :
  collection "profiles" "profiles" s = Some ps →
  fst <$> getAllProfiles s = Some ps.
Proof. intros H. unfold getAllProfiles. open_read H. reflexivity. Qed.

(** X7: [createProfile(p)] puts [p] at the end of the stored profiles and
    checks nothing: [getProfileById] of its id returns [p] when no stored
    profile had that id, and otherwise keeps returning the first stored
    profile with the id, so that the new one is not reachable by its id;
    lookups of the other ids are unchanged. *)
Theorem createProfile_then_lookup p id s ps :
  collection "profiles" "profiles" s = Some ps →
  id_is id p = true →
  ∃ s', createProfile p s = Some (p, s') ∧
        fst <$> getAllProfiles s' = Some (ps ++ [p]) ∧
        (Forall (λ q, id_is id q = false) ps →
           fst <$> getProfileById id s' = Some (Some p)) ∧
        (∀ i q, first_with (id_is id) ps i q →
           fst <$> getProfileById id s' = Some (Some q)) ∧
        (∀ id', id_is id' p = false →
           fst <$> getProfileById id' s' = fst <$> getProfileById id' s).
Proof.
  intros H Hid.
  destruct (create_run "profiles" "profiles" p (createProfile p) s ps eq_refl H)
    as (s' & Hrun & Hafter & _).
  exists s'. split; [done|]. split; [by apply getAllProfiles_run|].
  split; [|split].
  - intros Hfresh. rewrite (getProfileById_run _ s' _ Hafter).
    by rewrite find_app_fresh, Hid.
  - intros i q Hfirst. rewrite (getProfileById_run _ s' _ Hafter).
    f_equal. apply find_app_found. by eapply find_first.
  - intros id' Hother.
    rewrite (getProfileById_run _ s' _ Hafter), (getProfileById_run _ s _ H).
    f_equal. by apply find_app_other.
Qed.

Lemma createProfile_then_lookup_witness :
  collection "profiles" "profiles" (sample_store false) = Some [alice; bob] ∧
  id_is "p_carol" carol = true ∧
  ∃ s', createProfile carol (sample_store false) = Some (carol, s') ∧
        fst <$> getProfileById "p_carol" s' = Some (Some carol) ∧
        fst <$> getProfileById "p_bob" s' = Some (Some bob).
Proof.
  split; [reflexivity|]. split; [reflexivity|].
  destruct (createProfile_then_lookup carol "p_carol" (sample_store false) [alice; bob]
              eq_refl eq_refl) as (s' & Hrun & _ & Hfresh & _ & Hother).
  exists s'. split; [exact Hrun|]. split.
  - apply Hfresh. by repeat constructor.
  - rewrite (Hother "p_bob" eq_refl). reflexivity.
Defined.

(** X8: after [deleteProfile(id)], which returns whether a stored profile
    had the id, no profile with the id is left, however many there were:
    [getProfileById(id)] returns null and a second [deleteProfile(id)]
    returns false; lookups of the other ids are unchanged. *)
Theorem deleteProfile_then_lookup id s ps :
  collection "profiles" "profiles" s = Some ps →
  ∃ s' s'',
    deleteProfile id s = Some (existsb (id_is id) ps, s') ∧
    fst <$> getProfileById id s' = Some None ∧
    deleteProfile id s' = Some (false, s'') ∧
    (∀ id', id' ≠ id →
       fst <$> getProfileById id' s' = fst <$> getProfileById id' s).
Proof.
  intros H.
  destruct (delete_run "profiles" "profiles" id (deleteProfile id) s ps eq_refl H)
    as (s' & Hrun & Hafter & _).
  destruct (delete_run "profiles" "profiles" id (deleteProfile id) s' _ eq_refl Hafter)
    as (s'' & Hrun' & _).
  rewrite existsb_filter_gone in Hrun'.
  exists s', s''. split; [done|]. split; [|split; [done|]].
  - by rewrite (getProfileById_run _ s' _ Hafter), find_filter_gone.
  - intros id' Hne.
    rewrite (getProfileById_run _ s' _ Hafter), (getProfileById_run _ s _ H). f_equal.
    apply find_filter_out. intros x Hx. apply negb_true_iff.
    destruct (id_is id x) eqn:Hx'; [|done].
    exfalso. apply Hne. by eapply id_is_functional.
Qed.

Lemma deleteProfile_then_lookup_witness :
  collection "profiles" "profiles" (sample_store true) = Some [alice; bob] ∧
  ∃ s' s'',
    deleteProfile "p_alice" (sample_store true) = Some (true, s') ∧
    fst <$> getProfileById "p_alice" s' = Some None ∧
    deleteProfile "p_alice" s' = Some (false, s'') ∧
    fst <$> getProfileById "p_bob" s' = Some (Some bob).
Proof.
  split; [reflexivity|].
  destruct (deleteProfile_then_lookup "p_alice" (sample_store true) [alice; bob] eq_refl)
    as (s' & s'' & Hrun & Hgone & Hagain & Hother).
  exists s', s''. split; [exact Hrun|]. split; [exact Hgone|]. split; [exact Hagain|].
  rewrite (Hother "p_bob") by discriminate. reflexivity.
Defined.

(** ** A deleted profile that comes back *)

Lemma kvRequests_writeData name data s :
  isVercel s = true → kv s = true →
  kvRequests (writeData name data s) = kvRequests s ++ [(name, data)].
Proof.
  intros Hv Hk. unfold writeData, writeDataAsync. rewrite Hv. simpl. by rewrite Hv, Hk.
Qed.

Lemma collection_resume name key data s :
  isVercel s = true → truthy data = true →
  collection name key (writeDataAsync_resume name data s) = get_list key data.
Proof.
  intros Hv Ht. unfold collection. rewrite readData_hosted by done. simpl.
  rewrite lookup_insert_eq. simpl. by rewrite Ht.
Qed.

Lemma filter_app_fresh (id : string) (p : entity) ps :
  id_is id p = true → Forall (λ q, id_is id q = false) ps →
  List.filter (λ q, negb (id_is id q)) (ps ++ [p]) = ps.
Proof.
  intros Hid Hfresh. rewrite List.filter_app. simpl. rewrite Hid. simpl.
  rewrite app_nil_r. induction Hfresh as [|q ps Hq _ IH]; simpl; [done|].
  by rewrite Hq, IH.
Qed.

(** X6: a request that settles puts its object back into the cache, also
    when a later write has replaced it there.  In a hosted process with a
    client, [createProfile(p)] with a new id followed by [deleteProfile] of
    that id leaves two requests pending: the first with the object
    [created] that was in the cache after the creation, which holds [p] and
    which the deletion did not change, the second with the new object that
    the deletion wrote.  The profile is gone after the deletion; once the
    first request has settled [getProfileById] returns [p] again, until the
    second settles too, and when the requests settle in the other order the
    cache ends with the deleted profile in it. *)
Theorem createProfile_deleteProfile_stale p id s ps :
  isVercel s = true → kv s = true →
  collection "profiles" "profiles" s = Some ps →
  id_is id p = true →
  Forall (λ q, id_is id q = false) ps →
  ∃ created s1 s2,
    createProfile p s = Some (p, s1) ∧
    memoryStore s1 !! "profiles" = Some created ∧
    get_list "profiles" created = Some (ps ++ [p]) ∧
    deleteProfile id s1 = Some (true, s2) ∧
    memoryStore s2 !! "profiles" = Some (collection_doc "profiles" ps) ∧
    kvRequests s2 = kvRequests s ++ [("profiles", created);
                                     ("profiles", collection_doc "profiles" ps)] ∧
    fst <$> getProfileById id s2 = Some None ∧
    fst <$> getProfileById id (writeDataAsync_resume "profiles" created s2)
    = Some (Some p) ∧
    fst <$> getProfileById id
              (writeDataAsync_resume "profiles" (collection_doc "profiles" ps)
                 (writeDataAsync_resume "profiles" created s2)) = Some None ∧
    fst <$> getProfileById id
              (writeDataAsync_resume "profiles" created
                 (writeDataAsync_resume "profiles" (collection_doc "profiles" ps) s2))
    = Some (Some p).
Proof.
  intros Hv Hk H Hid Hfresh.
  set (data := fst (readData "profiles" (collection_doc "profiles" []) s)).
  assert (get_list "profiles" data = Some ps) as Hdata by exact H.
  set (created := set_list "profiles" (ps ++ [p]) data).
  assert (truthy created = true) as Htruthy by (by eapply set_list_truthy).
  assert (get_list "profiles" created = Some (ps ++ [p])) as Hcreated
    by (by eapply get_list_set_list).
  set (s1 := writeData "profiles" created s).
  assert (createProfile p s = Some (p, s1)) as Hcreate.
  { unfold createProfile, bind, readDataM, typed, writeDataM, ret.
    rewrite readData_hosted by done. unfold data in Hdata.
    rewrite readData_hosted in Hdata by done. simpl in Hdata. rewrite Hdata.
    unfold s1, created, data. by rewrite readData_hosted. }
  assert (isVercel s1 = true) as Hv1 by (unfold s1; by rewrite isVercel_writeData).
  assert (kv s1 = true) as Hk1.
  { unfold s1, writeData, writeDataAsync. rewrite Hv. simpl. by rewrite Hv, Hk. }
  assert (collection "profiles" "profiles" s1 = Some (ps ++ [p])) as H1.
  { unfold s1. by rewrite collection_writeData. }
  destruct (delete_run "profiles" "profiles" id (deleteProfile id) s1 _ eq_refl H1)
    as (s2 & Hdelete & H2 & _ & Hwrote).
  assert (existsb (id_is id) (ps ++ [p]) = true) as Hex.
  { rewrite existsb_app. simpl. rewrite Hid. by rewrite orb_true_r. }
  rewrite Hex in Hdelete. destruct (Hwrote Hex) as [Hs2 _]. clear Hwrote.
  rewrite (filter_app_fresh id p ps Hid Hfresh) in H2, Hs2.
  rewrite readData_hosted_state in Hs2 by done.
  assert (isVercel s2 = true) as Hv2 by (rewrite Hs2; by rewrite isVercel_writeData).
  exists created, s1, s2.
  split; [done|]. split; [unfold s1; rewrite writeData_hosted by done; apply lookup_insert_eq|].
  split; [done|]. split; [done|].
  split; [rewrite Hs2, writeData_hosted by done; apply lookup_insert_eq|].
  split.
  { rewrite Hs2, kvRequests_writeData by done. unfold s1.
    rewrite kvRequests_writeData by done. by rewrite <- app_assoc. }
  split; [by rewrite (getProfileById_run _ _ _ H2), find_none|].
  assert (∀ s', isVercel s' = true →
    fst <$> getProfileById id (writeDataAsync_resume "profiles" created s')
    = Some (Some p)) as Hback.
  { intros s' Hv'. erewrite getProfileById_run
      by (rewrite collection_resume by done; exact Hcreated).
    by rewrite find_app_fresh, Hid. }
  split; [by apply Hback|]. split; [|by apply Hback].
  erewrite getProfileById_run
    by (rewrite collection_resume by done; apply get_list_collection_doc).
  by rewrite find_none.
Qed.

Lemma createProfile_deleteProfile_stale_witness :
  isVercel (sample_store true) = true ∧ kv (sample_store true) = true ∧
  collection "profiles" "profiles" (sample_store true) = Some [alice; bob] ∧
  id_is "p_carol" carol = true ∧
  ∃ s1 s2,
    createProfile carol (sample_store true) = Some (carol, s1) ∧
    memoryStore s1 !! "profiles" = Some (collection_doc "profiles" [alice; bob; carol]) ∧
    deleteProfile "p_carol" s1 = Some (true, s2) ∧
    memoryStore s2 !! "profiles" = Some (collection_doc "profiles" [alice; bob]) ∧
    fst <$> getProfileById "p_carol" s2 = Some None ∧
    fst <$> getProfileById "p_carol"
              (writeDataAsync_resume "profiles"
                 (collection_doc "profiles" [alice; bob; carol]) s2)
    = Some (Some carol).
Proof.
  split; [reflexivity|]. split; [reflexivity|]. split; [reflexivity|].
  split; [reflexivity|].
  destruct (createProfile_deleteProfile_stale carol "p_carol" (sample_store true)
              [alice; bob] eq_refl eq_refl eq_refl eq_refl)
    as (created & s1 & s2 & Hcreate & Hcache & _ & Hdelete & Hcache' & _ & Hgone & Hback & _).
  { by repeat constructor. }
  assert (s1 = writeData "profiles" (collection_doc "profiles" [alice; bob; carol])
                 (sample_store true)) as Hs1.
  { apply (f_equal (fmap snd)) in Hcreate. apply (inj Some) in Hcreate. by symmetry. }
  assert (created = collection_doc "profiles" [alice; bob; carol]) as Hdoc.
  { apply (inj Some). rewrite <- Hcache, Hs1. reflexivity. }
  rewrite Hdoc in Hcache, Hback.
  exists s1, s2. split; [exact Hcreate|]. split; [exact Hcache|].
  split; [exact Hdelete|]. split; [exact Hcache'|]. split; [exact Hgone | exact Hback].
Defined.

(** ** Getters that sort *)

(** What is stored after a getter sorted the array it read. *)
Lemma mutated_collection name key es sorted s data s1 s' :
  readData name (collection_doc key []) s = (data, s1) →
  get_list key data = Some es →
  sorted ≡ₚ es →
  mutated name (set_list key sorted data) s1 = Some (tt, s') →
  collection name key s' = Some (if isVercel s then sorted else es) ∧
  (∀ name' key', name' ≠ name → collection name' key' s' = collection name' key' s).
Proof.
  intros Hread Hget Hperm Hmut. unfold mutated in Hmut.
  destruct (isVercel s) eqn:Hv.
  - rewrite readData_hosted in Hread by done. injection Hread as <- <-.
    rewrite Hv in Hmut. simpl in Hmut.
    destruct (memoryStore s !! name) as [v|] eqn:Hm; simpl in *.
    + destruct (truthy v) eqn:Ht; injection Hmut as <-.
      * split.
        -- unfold collection. rewrite readData_hosted by done. simpl.
           rewrite lookup_insert_eq. simpl.
           rewrite (set_list_truthy _ _ _ _ Hget). by eapply get_list_set_list.
        -- intros name' key' Hne. unfold collection. f_equal.
           apply readData_fst_eq; simpl; [done| by rewrite lookup_insert_ne |done].
      * unfold or_default in Hget. rewrite ?Ht in Hget.
        assert (Some es = Some []) as [= ->]
          by (rewrite <- Hget; exact (get_list_collection_doc key [])).
        apply Permutation_nil_r in Hperm as ->. split; [|done].
        unfold collection. rewrite readData_hosted, Hm by done. simpl. rewrite Ht.
        exact (get_list_collection_doc key []).
    + injection Hmut as <-.
      assert (Some es = Some []) as [= ->]
        by (rewrite <- Hget; exact (get_list_collection_doc key [])).
      apply Permutation_nil_r in Hperm as ->. split; [|done].
      unfold collection. rewrite readData_hosted, Hm by done. simpl.
      exact (get_list_collection_doc key []).
  - assert (isVercel s1 = false) as Hv1.
    { replace s1 with (snd (readData name (collection_doc key []) s)) by (by rewrite Hread).
      by rewrite isVercel_readData. }
    rewrite Hv1 in Hmut. simpl in Hmut. injection Hmut as <-. split.
    + by eapply after_read.
    + intros name' key' Hne.
      replace s1 with (snd (readData name (collection_doc key []) s)) by (by rewrite Hread).
      by apply collection_readData_ne.
Qed.

Lemma rearranged_mutated name key es data s :
  data = fst (readData name (collection_doc key []) s) →
  isVercel s = true →
  rearranged name key es s = mutated name (set_list key es data) s.
Proof.
  intros -> Hv. unfold rearranged, mutated. rewrite readData_hosted by done.
  rewrite Hv. simpl. destruct (memoryStore s !! name) as [v|]; [|done]. simpl.
  by destruct (truthy v).
Qed.

Lemma slice_to_prefix {A} e (l : list A) : slice_to e l `prefix_of` l.
Proof. unfold slice_to. destruct (e <? 0); apply prefix_take. Qed.

Lemma slice_to_length {A} e (l : list A) :
  length (slice_to e l)
  = if e <? 0 then (length l - Z.to_nat (- e))%nat else (Z.to_nat e `min` length l)%nat.
Proof. unfold slice_to. destruct (e <? 0); rewrite length_take; lia. Qed.

Lemma slice_from_suffix {A} b (l : list A) : slice_from b l `suffix_of` l.
Proof. unfold slice_from. destruct (b <? 0); apply suffix_drop. Qed.

Lemma slice_from_neg_length {A} n (l : list A) :
  length (slice_from (- n) l)
  = if 0 <? n then (Z.to_nat n `min` length l)%nat else (length l - Z.to_nat (- n))%nat.
Proof.
  unfold slice_from. destruct (0 <? n) eqn:Hn.
  - apply Z.ltb_lt in Hn. replace (- n <? 0) with true by (symmetry; apply Z.ltb_lt; lia).
    rewrite length_drop, Z.opp_involutive. lia.
  - apply Z.ltb_ge in Hn. replace (- n <? 0) with false by (symmetry; apply Z.ltb_ge; lia).
    by rewrite length_drop.
Qed.

Lemma has_votes_forallb ps :
  Forall (λ p, has_votes p = true) ps → forallb has_votes ps = true.
Proof. induction 1 as [|p ps Hp _ IH]; [done|]. simpl. by rewrite Hp, IH. Qed.

Lemma has_string_forallb key ps :
  Forall (λ p, has_string key p = true) ps → forallb (has_string key) ps = true.
Proof. induction 1 as [|p ps Hp _ IH]; [done|]. simpl. by rewrite Hp, IH. Qed.

Lemma StronglySorted_mono_on {A} (P : A → Prop) (R R' : A → A → Prop) l :
  (∀ a b, P a → P b → R a b → R' a b) → Forall P l →
  StronglySorted R l → StronglySorted R' l.
Proof.
  intros HR HP. induction 1 as [|x l _ IH Hx]; [constructor|].
  apply Forall_cons in HP as [Hx' HP]. constructor; [by apply IH|].
  rewrite Forall_forall in Hx, HP |- *. intros y Hy. apply HR; auto.
Qed.

Lemma compareVotes_le a b :
  compareVotes a b <= 0 ↔ default 0 (votes_or_zero b) <= default 0 (votes_or_zero a).
Proof. unfold compareVotes. lia. Qed.

(** ** The leaderboard *)

(** X9: for stored profiles whose [votes] is a number or missing,
    [getTopProfiles(limit)] returns the first profiles of the ranking, the
    stored profiles arranged by [votes] from the highest to the lowest, a
    missing [votes] counting as 0 and profiles with equal votes keeping
    their stored order.  With a limit of 0 or more it returns [limit]
    profiles, or all of them when there are fewer; a negative limit leaves
    out the last [-limit] profiles of the ranking instead of returning
    none; the limit is 10 when none is given.  The stored order is the
    ranking afterwards in a hosted process, and unchanged in a local one. *)
Theorem getTopProfiles_ranking limit s ps :
  collection "profiles" "profiles" s = Some ps →
  Forall (λ p, has_votes p = true) ps →
  ∃ ranking top s',
    getTopProfiles limit s = Some (top, s') ∧
    ranking ≡ₚ ps ∧
    StronglySorted (λ a b, default 0 (votes_or_zero b) <= default 0 (votes_or_zero a))
      ranking ∧
    (∀ n, List.filter (λ p, bool_decide (default 0 (votes_or_zero p) = n)) ranking
          = List.filter (λ p, bool_decide (default 0 (votes_or_zero p) = n)) ps) ∧
    top `prefix_of` ranking ∧
    length top
    = (if default 10 limit <? 0
       then (length ps - Z.to_nat (- default 10 limit)%Z)%nat
       else (Z.to_nat (default 10 limit)%Z `min` length ps)%nat) ∧
    collection "profiles" "profiles" s' = Some (if isVercel s then ranking else ps).
Proof.
  intros H Htyped. exists (sort compareVotes ps).
  assert (sort compareVotes ps ≡ₚ ps) as Hperm by apply sort_perm.
  unfold getTopProfiles, getAllProfiles.
  assert (H' := H). unfold bind at 1. unfold bind at 1. open_read H.
  rewrite (has_votes_forallb _ Htyped). unfold typed at 1. unfold ret.
  destruct (rearranged "profiles" "profiles" (sort compareVotes ps) s1)
    as [[[] s']|] eqn:Hre.
  2:{ unfold rearranged in Hre. repeat case_match; done. }
  exists (slice_to (default 10 limit) (sort compareVotes ps)), s'.
  split; [done|]. split; [done|]. split; [|split; [|split; [|split]]].
  - eapply (StronglySorted_mono_on (λ _, True));
      [| |apply (sort_sorted compareVotes (λ _, True))].
    + intros a b _ _. apply compareVotes_le.
    + by apply Forall_true.
    + intros a b _ _. unfold compareVotes. lia.
    + intros a b c _ _ _. unfold compareVotes. lia.
    + by apply Forall_true.
  - intros n. apply sort_stable. intros x y _ _ Hx Hy.
    apply bool_decide_eq_true in Hx, Hy. unfold compareVotes. lia.
  - apply slice_to_prefix.
  - rewrite slice_to_length, (Permutation_length Hperm). done.
  - destruct (isVercel s) eqn:Hv.
    + assert (s1 = s) as ->.
      { rewrite readData_hosted in Hread by done. by injection Hread. }
      rewrite (rearranged_mutated _ _ _ data) in Hre
        by (by rewrite ?Hread).
      destruct (mutated_collection _ _ _ _ _ _ _ _ Hread H Hperm Hre) as [Hc _].
      by rewrite Hv in Hc.
    + assert (isVercel s1 = false) as Hv1.
      { replace s1 with (snd (readData "profiles" (collection_doc "profiles" []) s))
          by (by rewrite Hread).
        by rewrite isVercel_readData. }
      unfold rearranged in Hre. rewrite Hv1 in Hre. injection Hre as <-.
      by eapply after_read.
Qed.

Lemma getTopProfiles_ranking_witness :
  collection "profiles" "profiles"
    (writeData "profiles" (collection_doc "profiles" [alice; carol; bob]) (started true))
  = Some [alice; carol; bob] ∧
  Forall (λ p, has_votes p = true) [alice; carol; bob] ∧
  ∃ ranking top s',
    getTopProfiles (Some (-1))
      (writeData "profiles" (collection_doc "profiles" [alice; carol; bob]) (started true))
    = Some (top, s') ∧
    length top = 2%nat ∧
    top `prefix_of` ranking ∧
    collection "profiles" "profiles" s' = Some ranking.
Proof.
  assert (Forall (λ p, has_votes p = true) [alice; carol; bob]) as Htyped
    by (by repeat constructor).
  split; [reflexivity|]. split; [exact Htyped|].
  destruct (getTopProfiles_ranking (Some (-1))
              (writeData "profiles" (collection_doc "profiles" [alice; carol; bob])
                 (started true))
              [alice; carol; bob] eq_refl Htyped)
    as (ranking & top & s' & Hrun & _ & _ & _ & Hprefix & Hlen & Hafter).
  exists ranking, top, s'. split; [exact Hrun|]. split; [exact Hlen|].
  split; [exact Hprefix | exact Hafter].
Defined.

(** ** Users *)

Lemma find_throwing_typed {A} (f : A → option bool) l :
  Forall (λ x, is_Some (f x)) l →
  find_throwing f l = Some (List.find (λ x, default false (f x)) l).
Proof.
  induction 1 as [|x l [b Hb] _ IH]; simpl; [done|].
  rewrite Hb. simpl. by destruct b.
Qed.

Section UsersFacts.
Variable toLowerCase : string → string.

Lemma username_is_typed name u :
  has_string "username" u = true → is_Some (username_is toLowerCase name u).
Proof.
  unfold has_string, username_is. by destruct (u !! "username") as [[]|].
Qed.

Lemma username_is_lower name name' u :
  toLowerCase name = toLowerCase name' →
  username_is toLowerCase name u = username_is toLowerCase name' u.
Proof. intros H. unfold username_is. by rewrite H. Qed.

Lemma getUserByUsername_run name s us :
  collection "users" "users" s = Some us →
  Forall (λ u, has_string "username" u = true) us →
  fst <$> getUserByUsername toLowerCase name s
  = Some (List.find (λ u, default false (username_is toLowerCase name u)) us).
Proof.
  intros H Htyped. unfold getUserByUsername, getAllUsers. unfold bind at 1. open_read H.
  unfold typed. rewrite find_throwing_typed; [done|].
  eapply Forall_impl; [exact Htyped|]. intros u. apply username_is_typed.
Qed.

(** X10: [createUser(u)] puts [u] at the end of the stored users and
    checks nothing.  Afterwards [getUserByUsername], under every spelling
    that has the lower-case form of [u]'s username, returns [u] when no
    stored user had that name up to case, and otherwise the first stored
    user that has it, so that the new user is not reachable by name. *)
Theorem createUser_then_getUserByUsername u n s us :
  collection "users" "users" s = Some us →
  Forall (λ e, has_string "username" e = true) us →
  u !! "username" = Some (JStr n) →
  ∃ s', createUser u s = Some (u, s') ∧
    ∀ name, toLowerCase name = toLowerCase n →
      (Forall (λ e, username_is toLowerCase n e = Some false) us →
         fst <$> getUserByUsername toLowerCase name s' = Some (Some u)) ∧
      (∀ i e, first_with (λ e, default false (username_is toLowerCase n e)) us i e →
         fst <$> getUserByUsername toLowerCase name s' = Some (Some e)).
Proof.
  intros H Htyped Hn.
  destruct (create_run "users" "users" u (createUser u) s us eq_refl H)
    as (s' & Hrun & Hafter & _).
  exists s'. split; [done|]. intros name Hname.
  assert (Forall (λ e, has_string "username" e = true) (us ++ [u])) as Htyped'.
  { apply Forall_app. split; [done|]. constructor; [|done].
    unfold has_string. by rewrite Hn. }
  rewrite (getUserByUsername_run name s' _ Hafter Htyped').
  rewrite (find_ext _ (λ e, default false (username_is toLowerCase n e)))
    by (intros e; by rewrite (username_is_lower name n)).
  split.
  - intros Hfree. rewrite find_app_fresh.
    + unfold username_is. rewrite Hn. simpl. by rewrite String.eqb_refl.
    + eapply Forall_impl; [exact Hfree|]. by intros e ->.
  - intros i e Hfirst. f_equal. apply find_app_found. by eapply find_first.
Qed.
End UsersFacts.

Lemma createUser_then_getUserByUsername_witness :
  collection "users" "users" (users_store false [user "u1" "Ann"])
  = Some [user "u1" "Ann"] ∧
  Forall (λ e, has_string "username" e = true) [user "u1" "Ann"] ∧
  user "u2" "Bob" !! "username" = Some (JStr "Bob") ∧
  ∃ s', createUser (user "u2" "Bob") (users_store false [user "u1" "Ann"])
        = Some (user "u2" "Bob", s') ∧
        fst <$> getUserByUsername ascii_toLowerCase "BOB" s'
        = Some (Some (user "u2" "Bob")).
Proof.
  assert (Forall (λ e, has_string "username" e = true) [user "u1" "Ann"]) as Htyped
    by (by repeat constructor).
  split; [reflexivity|]. split; [exact Htyped|]. split; [reflexivity|].
  destruct (createUser_then_getUserByUsername ascii_toLowerCase (user "u2" "Bob") "Bob"
              (users_store false [user "u1" "Ann"]) [user "u1" "Ann"]
              eq_refl Htyped eq_refl) as (s' & Hrun & Hlookup).
  exists s'. split; [exact Hrun|].
  destruct (Hlookup "BOB" eq_refl) as [Hfresh _].
  apply Hfresh. by repeat constructor.
Defined.

(** ** Updates without a time stamp *)

Lemma update_unstamped name key update :
  (∀ id U, update id U
     = (let* data := readDataM name (collection_doc key []) in
        let* items := typed (get_list key data) in
        match findIndex (id_is id) items with
        | None => ret None
        | Some index =>
            let* old := typed (items !! index) in
            let merged := U ∪ old in
            let data := set_list key (<[index := merged]> items) data in
            let* _ := writeDataM name data in
            ret (Some merged)
        end)) →
  merges_unstamped name key update.
Proof.
  intros Hdef id U s es H.
  destruct (update_run name key id U (update id U) s es (Hdef id U) H) as [Hno Hyes].
  split; [done|]. intros i old Hfirst.
  destruct (Hyes i old Hfirst) as (s' & Hrun & Hafter).
  exists (U ∪ old), s'. split; [done|]. split; [done|]. split.
  - intros k. rewrite lookup_union. destruct (U !! k), (old !! k); done.
  - intros ->. rewrite (left_id_L ∅ (∪)) in Hafter |- *. split; [done|].
    rewrite Hafter. f_equal. apply list_insert_id, Hfirst.
Qed.

(** X11: [updateUser] and [updatePost] merge the update over the first
    stored entity with the id and add nothing: unlike [updateProfile] they
    set no [updatedAt], an [updatedAt] changes only when the update carries
    one, and an empty update stores the collection it found.  With no
    entity of that id they return null and leave the collection alone. *)
Theorem updateUser_updatePost_unstamped :
  merges_unstamped "users" "users" updateUser ∧
  merges_unstamped "posts" "posts" updatePost.
Proof. split; by apply update_unstamped. Qed.

(** ** Posts read through the sorted list *)

Section PostsLookup.
Variable Date_getTime : string → option Z.

Lemma getAllPosts_state s ps :
  collection "posts" "posts" s = Some ps →
  Forall (λ p, has_string "createdAt" p = true) ps →
  ∃ s', getAllPosts Date_getTime s = Some (sort (comparePosts Date_getTime) ps, s') ∧
        collection "posts" "posts" s'
        = Some (if isVercel s then sort (comparePosts Date_getTime) ps else ps) ∧
        (∀ name key, name ≠ "posts" → collection name key s' = collection name key s).
Proof.
  intros H Htyped. unfold getAllPosts. assert (H' := H). open_read H.
  rewrite (has_string_forallb _ _ Htyped).
  unfold bind at 1. unfold typed at 1. unfold bind, ret.
  destruct (mutated "posts" _ s1) as [[[] s']|] eqn:Hmut.
  2:{ unfold mutated in Hmut. by destruct (_ && _). }
  exists s'. split; [done|].
  apply (mutated_collection _ _ _ _ _ _ _ _ Hread H (sort_perm _ _) Hmut).
Qed.

(** X12: reading the posts reorders what a hosted process stores.  For
    stored posts whose [createdAt] is a string, [getAllPosts] returns them
    sorted; in a hosted process the stored collection is then the sorted
    list it returned, and a post created next is appended to that list; in
    a local process the stored order is unchanged.  The other collections
    are unchanged in both. *)
Theorem getAllPosts_sorts_cache s ps :
  collection "posts" "posts" s = Some ps →
  Forall (λ p, has_string "createdAt" p = true) ps →
  ∃ sorted s', getAllPosts Date_getTime s = Some (sorted, s') ∧
    sorted ≡ₚ ps ∧
    (isVercel s = true → collection "posts" "posts" s' = Some sorted) ∧
    (isVercel s = false → collection "posts" "posts" s' = Some ps) ∧
    (∀ name key, name ≠ "posts" → collection name key s' = collection name key s) ∧
    ∀ p, ∃ s'', createPost p s' = Some (p, s'') ∧
      collection "posts" "posts" s''
      = Some ((if isVercel s then sorted else ps) ++ [p]).
Proof.
  intros H Htyped.
  destruct (getAllPosts_state s ps H Htyped) as (s' & Hrun & Hafter & Hframe).
  eexists _, s'. split; [exact Hrun|]. split; [apply sort_perm|].
  split; [by intros Hv; rewrite Hv in Hafter|].
  split; [by intros Hv; rewrite Hv in Hafter|].
  split; [done|]. intros p.
  destruct (create_run "posts" "posts" p (createPost p) s' _ eq_refl Hafter)
    as (s'' & Hc & Hafter' & _).
  by exists s''.
Qed.

(** X13: for stored posts whose [createdAt] is a string,
    [getPostById(id)] returns null exactly when no stored post has the id,
    and otherwise a stored post that has it, which is the post with the id
    when there is only one. *)
Theorem getPostById_finds id s ps :
  collection "posts" "posts" s = Some ps →
  Forall (λ p, has_string "createdAt" p = true) ps →
  ∃ r s', getPostById Date_getTime id s = Some (r, s') ∧
    (r = None ↔ Forall (λ p, id_is id p = false) ps) ∧
    (∀ p, r = Some p → p ∈ ps ∧ id_is id p = true) ∧
    (∀ p, p ∈ ps → id_is id p = true →
          (∀ q, q ∈ ps → id_is id q = true → q = p) → r = Some p).
Proof.
  intros H Htyped.
  destruct (getAllPosts_state s ps H Htyped) as (s' & Hrun & _).
  unfold getPostById. unfold bind. rewrite Hrun. unfold ret.
  eexists _, s'. split; [reflexivity|].
  set (sorted := sort (comparePosts Date_getTime) ps).
  assert (sorted ≡ₚ ps) as Hperm by apply sort_perm.
  assert (∀ p, List.find (id_is id) sorted = Some p → p ∈ ps ∧ id_is id p = true) as Hsome.
  { intros p Hp. apply List.find_some in Hp as [Hin Hid]. split; [|done].
    rewrite <- Hperm. by apply list_elem_of_In. }
  assert (List.find (id_is id) sorted = None ↔ Forall (λ p, id_is id p = false) ps) as Hnone.
  { split.
    - intros Hn. rewrite <- Hperm. apply Forall_forall. intros x Hx.
      apply (List.find_none _ _ Hn). by apply list_elem_of_In.
    - intros Hall. apply find_none. by rewrite Hperm. }
  split; [done|]. split; [done|].
  intros p Hin Hid Huniq.
  destruct (List.find (id_is id) sorted) as [q|] eqn:Hq.
  - destruct (Hsome q eq_refl) as [Hqin Hqid]. f_equal. by apply Huniq.
  - destruct Hnone as [Hnone _]. specialize (Hnone eq_refl).
    rewrite Forall_forall in Hnone. specialize (Hnone p Hin). congruence.
Qed.
End PostsLookup.

Lemma getAllPosts_sorts_cache_witness :
  collection "posts" "posts" (posts_store true [post_A; post_B; post_C])
  = Some [post_A; post_B; post_C] ∧
  Forall (λ p, has_string "createdAt" p = true) [post_A; post_B; post_C] ∧
  ∃ sorted s',
    getAllPosts iso_getTime (posts_store true [post_A; post_B; post_C])
    = Some (sorted, s') ∧
    collection "posts" "posts" s' = Some sorted.
Proof.
  assert (Forall (λ p, has_string "createdAt" p = true) [post_A; post_B; post_C])
    as Htyped by (by repeat constructor).
  split; [reflexivity|]. split; [exact Htyped|].
  destruct (getAllPosts_sorts_cache iso_getTime (posts_store true [post_A; post_B; post_C])
              [post_A; post_B; post_C] eq_refl Htyped)
    as (sorted & s' & Hrun & _ & Hhosted & _).
  exists sorted, s'. split; [exact Hrun|]. by apply Hhosted.
Defined.

Lemma getPostById_finds_witness :
  collection "posts" "posts" (posts_store false [post_A; post_B; post_C])
  = Some [post_A; post_B; post_C] ∧
  Forall (λ p, has_string "createdAt" p = true) [post_A; post_B; post_C] ∧
  ∃ s', getPostById iso_getTime "B" (posts_store false [post_A; post_B; post_C])
        = Some (Some post_B, s').
Proof.
  assert (Forall (λ p, has_string "createdAt" p = true) [post_A; post_B; post_C])
    as Htyped by (by repeat constructor).
  split; [reflexivity|]. split; [exact Htyped|].
  destruct (getPostById_finds iso_getTime "B" (posts_store false [post_A; post_B; post_C])
              [post_A; post_B; post_C] eq_refl Htyped)
    as (r & s' & Hrun & _ & _ & Honly).
  exists s'. rewrite Hrun. do 2 f_equal. apply Honly.
  - apply elem_of_cons. right. by left.
  - reflexivity.
  - intros q Hq Hid.
    apply elem_of_cons in Hq as [-> | Hq]; [discriminate Hid|].
    apply elem_of_cons in Hq as [-> | Hq]; [reflexivity|].
    apply list_elem_of_singleton in Hq as ->. discriminate Hid.
Defined.

(** ** Likes add up *)

Lemma likePost_times k id : ∀ s ps i post n,
  collection "posts" "posts" s = Some ps →
  first_with (id_is id) ps i post →
  or_default (post !! "likes") (JNum 0) = JNum n →
  - MAX_SAFE_INTEGER - 1 <= n → n + Z.of_nat (S k) <= MAX_SAFE_INTEGER + 1 →
  ∃ s', times (S k) (likePost id) s = Some (tt, s') ∧
        collection "posts" "posts" s'
        = Some (<[i := <["likes" := JNum (n + Z.of_nat (S k))]> post]> ps).
Proof.
  induction k as [|k IH]; intros s ps i post n H Hfirst Hlikes Hlow Hhigh.
  - destruct (likePost_found id s ps i post n H Hfirst Hlikes) as (s1 & Hrun & Hafter).
    rewrite round_double_safe in Hrun, Hafter by lia.
    exists s1. simpl. unfold bind. rewrite Hrun. split; [done|].
    by replace (n + Z.of_nat 1) with (n + 1) by lia.
  - destruct (likePost_found id s ps i post n H Hfirst Hlikes) as (s1 & Hrun & Hafter).
    rewrite round_double_safe in Hrun, Hafter by lia.
    assert (first_with (id_is id) (<[i := <["likes" := JNum (n + 1)]> post]> ps) i
              (<["likes" := JNum (n + 1)]> post)) as Hfirst'.
    { eapply first_with_insert; [done|]. destruct Hfirst as (_ & Hid & _).
      unfold id_is in *. by rewrite lookup_insert_ne. }
    destruct (IH s1 _ i _ (n + 1) Hafter Hfirst') as (s' & Hrun' & Hafter');
      [|lia|lia|].
    { unfold or_default. rewrite lookup_insert_eq. simpl.
      destruct (n + 1 =? 0) eqn:Hz; [|done]. apply Z.eqb_eq in Hz. by rewrite Hz. }
    exists s'. split.
    + change (times (S (S k)) (likePost id) s)
        with (bind (likePost id) (λ _, times (S k) (likePost id)) s).
      unfold bind at 1. by rewrite Hrun.
    + rewrite Hafter', list_insert_insert_eq, insert_insert_eq. do 4 f_equal. lia.
Qed.

Lemma likePost_times_stuck k id : ∀ s ps i post,
  collection "posts" "posts" s = Some ps →
  first_with (id_is id) ps i post →
  post !! "likes" = Some (JNum (MAX_SAFE_INTEGER + 1)) →
  ∃ s', times (S k) (likePost id) s = Some (tt, s') ∧
        collection "posts" "posts" s' = Some ps.
Proof.
  induction k as [|k IH]; intros s ps i post H Hfirst Hlikes;
    destruct (likePost_stuck id s ps i post H Hfirst Hlikes) as (s1 & Hrun & Hafter).
  - exists s1. simpl. unfold bind. by rewrite Hrun.
  - destruct (IH s1 ps i post Hafter Hfirst Hlikes) as (s' & Hrun' & Hafter').
    exists s'. split; [|done].
    change (times (S (S k)) (likePost id) s)
      with (bind (likePost id) (λ _, times (S k) (likePost id)) s).
    unfold bind at 1. by rewrite Hrun.
Qed.

(** X14: likes add up until they reach 2^53, where the doubles stop being
    one apart.  [likePost(id)] called [k + 1] times in a row on a post whose
    [likes] is at least -2^53, a missing [likes] counting as 0, and at most
    2^53 - ([k] + 1), leaves the first post with the id with [likes] higher
    by [k + 1], every other property of it and every other post as they
    were.  Called on a post whose [likes] is 2^53 it leaves the posts as
    they were, however often. *)
Theorem likePost_accumulates k id s ps i post :
  collection "posts" "posts" s = Some ps →
  first_with (id_is id) ps i post →
  (∀ likes,
     post !! "likes" = Some (JNum likes) ∨ (post !! "likes" = None ∧ likes = 0) →
     - MAX_SAFE_INTEGER - 1 <= likes →
     likes + Z.of_nat (S k) <= MAX_SAFE_INTEGER + 1 →
     ∃ liked s',
       times (S k) (likePost id) s = Some (tt, s') ∧
       collection "posts" "posts" s' = Some (<[i := liked]> ps) ∧
       liked !! "likes" = Some (JNum (likes + Z.of_nat (S k))) ∧
       (∀ key, key ≠ "likes" → liked !! key = post !! key)) ∧
  (post !! "likes" = Some (JNum (MAX_SAFE_INTEGER + 1)) →
     ∃ s', times (S k) (likePost id) s = Some (tt, s') ∧
           collection "posts" "posts" s' = Some ps).
Proof.
  intros H Hfirst. split.
  - intros likes Hlikes Hlow Hhigh.
    destruct (likePost_times k id s ps i post likes H Hfirst (likes_or_zero _ _ Hlikes)
                Hlow Hhigh) as (s' & Hrun & Hafter).
    eexists _, s'. split; [exact Hrun|]. split; [exact Hafter|]. split.
    + apply lookup_insert_eq.
    + intros key Hkey. by rewrite lookup_insert_ne.
  - intros Hlikes. by eapply likePost_times_stuck.
Qed.

Lemma likePost_accumulates_witness :
  collection "posts" "posts" (posts_store true [post_A; post_B]) = Some [post_A; post_B] ∧
  first_with (id_is "B") [post_A; post_B] 1 post_B ∧
  post_B !! "likes" = None ∧
  - MAX_SAFE_INTEGER - 1 <= 0 ∧
  0 + Z.of_nat 3 <= MAX_SAFE_INTEGER + 1 ∧
  (∃ liked s',
     times 3 (likePost "B") (posts_store true [post_A; post_B]) = Some (tt, s') ∧
     collection "posts" "posts" s' = Some [post_A; liked] ∧
     liked !! "likes" = Some (JNum 3)) ∧
  first_with (id_is "B") [post_A; post_most_liked] 1 post_most_liked ∧
  ∃ s', times 3 (likePost "B") (posts_store true [post_A; post_most_liked])
        = Some (tt, s') ∧
        collection "posts" "posts" s' = Some [post_A; post_most_liked].
Proof.
  assert (first_with (id_is "B") [post_A; post_B] 1 post_B) as Hfirst.
  { split; [reflexivity|]. split; [reflexivity|].
    intros [|j] y Hj Hy; [injection Hy as <-; reflexivity | lia]. }
  assert (first_with (id_is "B") [post_A; post_most_liked] 1 post_most_liked) as Hfirst'.
  { split; [reflexivity|]. split; [reflexivity|].
    intros [|j] y Hj Hy; [injection Hy as <-; reflexivity | lia]. }
  split; [reflexivity|]. split; [exact Hfirst|]. split; [reflexivity|].
  split; [unfold MAX_SAFE_INTEGER; lia|]. split; [unfold MAX_SAFE_INTEGER; lia|].
  split; [|split; [exact Hfirst'|]].
  - destruct (likePost_accumulates 2 "B" (posts_store true [post_A; post_B])
                [post_A; post_B] 1 post_B eq_refl Hfirst) as [Hadd _].
    destruct (Hadd 0) as (liked & s' & Hrun & Hafter & Hlikes & _).
    { right. split; reflexivity. }
    { unfold MAX_SAFE_INTEGER; lia. }
    { unfold MAX_SAFE_INTEGER; lia. }
    exists liked, s'. split; [exact Hrun|]. split; [exact Hafter | exact Hlikes].
  - destruct (likePost_accumulates 2 "B" (posts_store true [post_A; post_most_liked])
                [post_A; post_most_liked] 1 post_most_liked eq_refl Hfirst')
      as [_ Hstuck].
    apply Hstuck. reflexivity.
Defined.

(** ** The chat timeline *)

Lemma sort_insert_snoc {A} (cmp : A → A → Z) x l m :
  cmp x m <= 0 → sort_insert cmp x (l ++ [m]) = sort_insert cmp x l ++ [m].
Proof.
  intros Hx. induction l as [|y l IH]; simpl.
  - by replace (cmp x m <=? 0) with true by (symmetry; by apply Z.leb_le).
  - destruct (cmp x y <=? 0); [done|]. by rewrite IH.
Qed.

Lemma sort_snoc {A} (cmp : A → A → Z) l m :
  Forall (λ x, cmp x m <= 0) l → sort cmp (l ++ [m]) = sort cmp l ++ [m].
Proof.
  unfold sort. induction 1 as [|x l Hx _ IH]; [done|]. simpl.
  rewrite IH. by apply sort_insert_snoc.
Qed.

Section ChatOrder.
Variable Date_getTime : string → option Z.

Lemma compareChat_dated a b ta tb :
  createdAt_time Date_getTime a = Some ta → createdAt_time Date_getTime b = Some tb →
  compareChat Date_getTime a b = ta - tb.
Proof. intros Ha Hb. unfold compareChat. by rewrite Ha, Hb. Qed.

Lemma getChatMessages_run limit s ms :
  collection "chat" "messages" s = Some ms →
  Forall (λ m, has_string "createdAt" m = true) ms →
  ∃ s', getChatMessages Date_getTime limit s
        = Some (slice_from (- default 100 limit)
                  (sort (compareChat Date_getTime) ms), s') ∧
        collection "chat" "messages" s'
        = Some (if isVercel s then sort (compareChat Date_getTime) ms else ms).
Proof.
  intros H Htyped. unfold getChatMessages. assert (H' := H). open_read H.
  rewrite (has_string_forallb _ _ Htyped).
  unfold bind at 1. unfold typed at 1. unfold bind, ret.
  destruct (mutated "chat" _ s1) as [[[] s']|] eqn:Hmut.
  2:{ unfold mutated in Hmut. by destruct (_ && _). }
  exists s'. split; [reflexivity|].
  by destruct (mutated_collection _ _ _ _ _ _ _ _ Hread H (sort_perm _ _) Hmut) as [Hc _].
Qed.

Lemma dated_has_createdAt ms :
  Forall (λ m, is_Some (createdAt_time Date_getTime m)) ms →
  Forall (λ m, has_string "createdAt" m = true) ms.
Proof.
  intros H. eapply Forall_impl; [exact H|].
  intros m [t Ht]. unfold createdAt_time in Ht. unfold has_string.
  by destruct (m !! "createdAt") as [[]|].
Qed.

(** X15: for stored messages whose [createdAt] parses,
    [getChatMessages(limit)] returns the end of the timeline, the stored
    messages arranged from the oldest to the newest, messages of the same
    time keeping their stored order.  With a limit above 0 it returns the
    last [limit] messages, or all of them when there are fewer; with the
    limit 0 it returns every message, not none; a negative limit leaves out
    the first [-limit] messages.  The limit is 100 when none is given.  The
    stored order is the timeline afterwards in a hosted process, and
    unchanged in a local one. *)
Theorem getChatMessages_latest limit s ms :
  collection "chat" "messages" s = Some ms →
  Forall (λ m, is_Some (createdAt_time Date_getTime m)) ms →
  ∃ timeline latest s',
    getChatMessages Date_getTime limit s = Some (latest, s') ∧
    timeline ≡ₚ ms ∧
    StronglySorted (λ a b, ∃ ta tb, createdAt_time Date_getTime a = Some ta ∧
                                    createdAt_time Date_getTime b = Some tb ∧ ta <= tb)
      timeline ∧
    (∀ t, List.filter (λ m, bool_decide (createdAt_time Date_getTime m = Some t)) timeline
          = List.filter (λ m, bool_decide (createdAt_time Date_getTime m = Some t)) ms) ∧
    latest `suffix_of` timeline ∧
    length latest
    = (if 0 <? default 100 limit
       then (Z.to_nat (default 100 limit)%Z `min` length ms)%nat
       else (length ms - Z.to_nat (- default 100 limit)%Z)%nat) ∧
    (default 100 limit = 0 → latest = timeline) ∧
    collection "chat" "messages" s' = Some (if isVercel s then timeline else ms).
Proof.
  intros H Hdated. exists (sort (compareChat Date_getTime) ms).
  assert (sort (compareChat Date_getTime) ms ≡ₚ ms) as Hperm by apply sort_perm.
  destruct (getChatMessages_run limit s ms H (dated_has_createdAt _ Hdated))
    as (s' & Hrun & Hafter).
  eexists _, s'. split; [exact Hrun|]. split; [done|].
  split; [|split; [|split; [|split; [|split]]]].
  - eapply (StronglySorted_mono_on (λ m, is_Some (createdAt_time Date_getTime m)));
      [| |apply (sort_sorted (compareChat Date_getTime)
                  (λ m, is_Some (createdAt_time Date_getTime m)))].
    + intros a b [ta Ha] [tb Hb] Hle. exists ta, tb.
      rewrite (compareChat_dated a b ta tb) in Hle by done. repeat split; [done..|lia].
    + by rewrite Hperm.
    + intros a b [ta Ha] [tb Hb].
      rewrite (compareChat_dated a b ta tb), (compareChat_dated b a tb ta) by done. lia.
    + intros a b c [ta Ha] [tb Hb] [tc Hc].
      rewrite (compareChat_dated a b ta tb), (compareChat_dated b c tb tc),
        (compareChat_dated a c ta tc) by done. lia.
    + done.
  - intros t. apply sort_stable. intros x y _ _ Hx Hy.
    apply bool_decide_eq_true in Hx, Hy.
    rewrite (compareChat_dated x y t t) by done. lia.
  - apply slice_from_suffix.
  - rewrite slice_from_neg_length, (Permutation_length Hperm). done.
  - intros ->. done.
  - done.
Qed.

(** X16: a message that was just added is the last one returned.  When
    the stored messages have parsed times, none later than the time of
    [m], and the limit is above 0, [getChatMessages(limit)] after
    [addChatMessage(m)] ends with [m], and returns as many messages as the
    limit and the 500 retained messages allow. *)
Theorem addChatMessage_then_getChatMessages limit m tm s ms :
  collection "chat" "messages" s = Some ms →
  Forall (λ x, ∃ t, createdAt_time Date_getTime x = Some t ∧ t <= tm) ms →
  createdAt_time Date_getTime m = Some tm →
  0 < default 100 limit →
  ∃ s1 latest s2,
    addChatMessage m s = Some (m, s1) ∧
    getChatMessages Date_getTime limit s1 = Some (latest, s2) ∧
    last latest = Some m ∧
    length latest
    = (Z.to_nat (default 100 limit)%Z `min` (500 `min` S (length ms)))%nat.
Proof.
  intros H Hdated Hm Hlim.
  destruct (addChatMessage_run m s ms H) as (s1 & Hadd & Hafter).
  set (kept := drop (length ms + 1 - 500) ms).
  assert (slice_last 500 (ms ++ [m]) = kept ++ [m]) as Hkept.
  { unfold slice_last, kept. rewrite length_app. simpl.
    rewrite drop_app_le by lia. done. }
  rewrite Hkept in Hafter.
  assert (Forall (λ x, ∃ t, createdAt_time Date_getTime x = Some t ∧ t <= tm) kept)
    as Hkdated.
  { by apply Forall_drop. }
  destruct (getChatMessages_run limit s1 (kept ++ [m]) Hafter) as (s2 & Hget & _).
  { apply Forall_app. split.
    - eapply Forall_impl; [exact Hkdated|]. intros x (t & Ht & _).
      unfold createdAt_time in Ht. unfold has_string.
      by destruct (x !! "createdAt") as [[]|].
    - constructor; [|done]. unfold createdAt_time in Hm. unfold has_string.
      by destruct (m !! "createdAt") as [[]|]. }
  rewrite sort_snoc in Hget.
  2:{ eapply Forall_impl; [exact Hkdated|]. intros x (t & Ht & Hle).
      rewrite (compareChat_dated x m t tm) by done. lia. }
  exists s1, (slice_from (- default 100 limit)
                (sort (compareChat Date_getTime) kept ++ [m])), s2.
  split; [done|]. split; [done|].
  assert (length (sort (compareChat Date_getTime) kept) = length kept) as Hlen
    by apply Permutation_length, sort_perm.
  assert (length kept = (500 `min` S (length ms) - 1)%nat) as Hklen
    by (unfold kept; rewrite length_drop; lia).
  split.
  - unfold slice_from.
    replace (- default 100 limit <? 0) with true by (symmetry; apply Z.ltb_lt; lia).
    rewrite length_app. change (length [m]) with 1%nat.
    rewrite drop_app_le by lia. apply last_snoc.
  - rewrite slice_from_neg_length.
    replace (0 <? default 100 limit) with true by (symmetry; by apply Z.ltb_lt).
    rewrite length_app, Hlen, Hklen. change (length [m]) with 1%nat. lia.
Qed.
End ChatOrder.

Lemma getChatMessages_latest_witness :
  collection "chat" "messages"
    (chat_store true [message_at "m2" "2024-05-02T09:00:00.000Z";
                      message_at "m1" "2024-05-02T08:00:00.000Z"])
  = Some [message_at "m2" "2024-05-02T09:00:00.000Z";
          message_at "m1" "2024-05-02T08:00:00.000Z"] ∧
  Forall (λ m, is_Some (createdAt_time iso_getTime m))
    [message_at "m2" "2024-05-02T09:00:00.000Z";
     message_at "m1" "2024-05-02T08:00:00.000Z"] ∧
  ∃ timeline latest s',
    getChatMessages iso_getTime (Some 0)
      (chat_store true [message_at "m2" "2024-05-02T09:00:00.000Z";
                        message_at "m1" "2024-05-02T08:00:00.000Z"])
    = Some (latest, s') ∧
    latest = timeline ∧ length latest = 2%nat ∧
    collection "chat" "messages" s' = Some timeline.
Proof.
  assert (Forall (λ m, is_Some (createdAt_time iso_getTime m))
            [message_at "m2" "2024-05-02T09:00:00.000Z";
             message_at "m1" "2024-05-02T08:00:00.000Z"]) as Hdated
    by (repeat constructor; eexists; reflexivity).
  split; [reflexivity|]. split; [exact Hdated|].
  destruct (getChatMessages_latest iso_getTime (Some 0)
              (chat_store true [message_at "m2" "2024-05-02T09:00:00.000Z";
                                message_at "m1" "2024-05-02T08:00:00.000Z"])
              _ eq_refl Hdated)
    as (timeline & latest & s' & Hrun & _ & _ & _ & _ & Hlen & Hall & Hafter).
  exists timeline, latest, s'. split; [exact Hrun|].
  split; [by apply Hall|]. split; [exact Hlen | exact Hafter].
Defined.

Lemma addChatMessage_then_getChatMessages_witness :
  collection "chat" "messages"
    (chat_store false [message_at "m1" "2024-05-02T08:00:00.000Z"])
  = Some [message_at "m1" "2024-05-02T08:00:00.000Z"] ∧
  Forall (λ x, ∃ t, createdAt_time iso_getTime x = Some t ∧ t <= 1714640400000)
    [message_at "m1" "2024-05-02T08:00:00.000Z"] ∧
  createdAt_time iso_getTime (message_at "m2" "2024-05-02T09:00:00.000Z")
  = Some 1714640400000 ∧
  ∃ s1 latest s2,
    addChatMessage (message_at "m2" "2024-05-02T09:00:00.000Z")
      (chat_store false [message_at "m1" "2024-05-02T08:00:00.000Z"])
    = Some (message_at "m2" "2024-05-02T09:00:00.000Z", s1) ∧
    getChatMessages iso_getTime None s1 = Some (latest, s2) ∧
    last latest = Some (message_at "m2" "2024-05-02T09:00:00.000Z") ∧
    length latest = 2%nat.
Proof.
  assert (Forall (λ x, ∃ t, createdAt_time iso_getTime x = Some t ∧ t <= 1714640400000)
            [message_at "m1" "2024-05-02T08:00:00.000Z"]) as Hdated.
  { repeat constructor. exists 1714636800000. split; [reflexivity|]. discriminate. }
  split; [reflexivity|]. split; [exact Hdated|]. split; [reflexivity|].
  destruct (addChatMessage_then_getChatMessages iso_getTime None
              (message_at "m2" "2024-05-02T09:00:00.000Z") 1714640400000
              (chat_store false [message_at "m1" "2024-05-02T08:00:00.000Z"])
              _ eq_refl Hdated eq_refl eq_refl)
    as (s1 & latest & s2 & Hadd & Hget & Hlast & Hlen).
  exists s1, latest, s2. split; [exact Hadd|]. split; [exact Hget|].
  split; [exact Hlast | exact Hlen].
Defined.

(** ** Votes *)

Lemma filter_throwing_typed {A} (f : A → option bool) l :
  Forall (λ x, is_Some (f x)) l →
  filter_throwing f l = Some (List.filter (λ x, default false (f x)) l).
Proof.
  induction 1 as [|x l [b Hb] _ IH]; simpl; [done|].
  rewrite Hb, IH. simpl. by destruct b.
Qed.

Lemma some_typed {A} (f : A → option bool) l :
  Forall (λ x, is_Some (f x)) l →
  some f l = Some (existsb (λ x, default false (f x)) l).
Proof.
  induction 1 as [|x l [b Hb] _ IH]; simpl; [done|].
  rewrite Hb. simpl. by destruct b.
Qed.

Lemma split_T_0_prefix s : startsWith s (split_T_0 s) = true.
Proof.
  unfold startsWith. induction s as [|c s IH]; [done|]. simpl.
  destruct (Ascii.eqb c "T"); [done|]. simpl.
  destruct (ascii_dec c c); [done|congruence].
Qed.

Lemma voted_on_typed today V P v :
  has_string "createdAt" v = true → is_Some (voted_on today V P v).
Proof.
  unfold has_string, voted_on. destruct (_ && _); [|by eexists].
  by destruct (v !! "createdAt") as [[]|].
Qed.

Lemma voted_today_typed today V v :
  has_string "createdAt" v = true → is_Some (voted_today today V v).
Proof.
  unfold has_string, voted_today. destruct (is_str _ _); [|by eexists].
  by destruct (v !! "createdAt") as [[]|].
Qed.

Lemma voted_on_today today V P v :
  voted_on today V P v = Some true → voted_today today V v = Some true.
Proof.
  unfold voted_on, voted_today. destruct (is_str (v !! "voterId") V); [|done].
  simpl. by destruct (is_str (v !! "profileId") P).
Qed.

Lemma getVotes_run s vs :
  collection "votes" "votes" s = Some vs → fst <$> getVotes s = Some vs.
Proof. intros H. unfold getVotes. by open_read H. Qed.

Lemma hasVotedToday_run now V P s vs :
  collection "votes" "votes" s = Some vs →
  Forall (λ v, has_string "createdAt" v = true) vs →
  fst <$> hasVotedToday now V P s
  = Some (existsb (λ v, default false (voted_on (split_T_0 now) V P v)) vs).
Proof.
  intros H Htyped. unfold hasVotedToday, getVotes. unfold bind at 1. open_read H.
  unfold typed. rewrite some_typed; [done|].
  eapply Forall_impl; [exact Htyped|]. intros v. apply voted_on_typed.
Qed.

Lemma getTodayVoteCount_run now V s vs :
  collection "votes" "votes" s = Some vs →
  Forall (λ v, has_string "createdAt" v = true) vs →
  fst <$> getTodayVoteCount now V s
  = Some (Z.of_nat (length
      (List.filter (λ v, default false (voted_today (split_T_0 now) V v)) vs))).
Proof.
  intros H Htyped. unfold getTodayVoteCount, getVotes. unfold bind at 1. open_read H.
  unfold bind, typed, ret. rewrite filter_throwing_typed; [done|].
  eapply Forall_impl; [exact Htyped|]. intros v. apply voted_today_typed.
Qed.

Lemma getVotesForProfile_fst P s vs :
  collection "votes" "votes" s = Some vs →
  fst <$> getVotesForProfile P s = Some (Z.of_nat (length (votes_for P vs))).
Proof. intros H. by rewrite (getVotesForProfile_run P s vs H). Qed.

Lemma votes_for_app P vs ws : votes_for P (vs ++ ws) = votes_for P vs ++ votes_for P ws.
Proof. apply List.filter_app. Qed.

Lemma sample_votes_typed : Forall (λ v, has_string "createdAt" v = true) sample_votes.
Proof.
  apply Forall_app. split; [apply Forall_replicate|]; by repeat constructor.
Defined.

(** X17: [addVote(v)] puts [v] at the end of the stored votes and checks
    nothing: the count of [v]'s profile goes up by one, also when the
    voter has voted for it before, the counts of the other profiles stay,
    and no profile is touched, so the [votes] and [rank] a profile carries
    stay as they were until they are recounted. *)
Theorem addVote_counts v P s vs :
  collection "votes" "votes" s = Some vs →
  v !! "profileId" = Some (JStr P) →
  ∃ s', addVote v s = Some (v, s') ∧
    fst <$> getVotes s' = Some (vs ++ [v]) ∧
    fst <$> getVotesForProfile P s' = Some (Z.of_nat (length (votes_for P vs)) + 1) ∧
    (∀ P', P' ≠ P → fst <$> getVotesForProfile P' s' = fst <$> getVotesForProfile P' s) ∧
    (∀ id, fst <$> getProfileById id s' = fst <$> getProfileById id s).
Proof.
  intros H HP.
  destruct (create_run "votes" "votes" v (addVote v) s vs eq_refl H)
    as (s' & Hrun & Hafter & Hframe).
  exists s'. split; [done|]. split; [by apply getVotes_run|].
  split; [|split].
  - rewrite (getVotesForProfile_fst P s' _ Hafter), votes_for_app, length_app.
    simpl. unfold is_str. rewrite HP, String.eqb_refl. simpl. f_equal. lia.
  - intros P' Hne.
    rewrite (getVotesForProfile_fst P' s' _ Hafter), (getVotesForProfile_fst P' s _ H).
    rewrite votes_for_app, length_app. unfold votes_for at 2. simpl.
    unfold is_str at 1. rewrite HP.
    destruct (String.eqb_spec P P'); [congruence|]. simpl. do 2 f_equal. lia.
  - intros id. unfold getProfileById, getAllProfiles, bind, readDataM, typed, ret.
    specialize (Hframe "profiles" "profiles"). unfold collection in Hframe.
    destruct (readData "profiles" _ s') as [d' t'].
    destruct (readData "profiles" _ s) as [d t]. simpl in Hframe.
    rewrite Hframe by done. by destruct (get_list "profiles" d).
Qed.

Lemma addVote_counts_witness :
  collection "votes" "votes" (sample_store false) = Some sample_votes ∧
  vote "v1" "p_bob" "2024-05-02T10:00:00.000Z" !! "profileId" = Some (JStr "p_bob") ∧
  ∃ s', addVote (vote "v1" "p_bob" "2024-05-02T10:00:00.000Z") (sample_store false)
        = Some (vote "v1" "p_bob" "2024-05-02T10:00:00.000Z", s') ∧
        fst <$> getVotesForProfile "p_bob" s' = Some 2 ∧
        fst <$> getVotesForProfile "p_alice" s' = Some 20 ∧
        fst <$> getProfileById "p_bob" s' = Some (Some bob).
Proof.
  split; [reflexivity|]. split; [reflexivity|].
  destruct (addVote_counts (vote "v1" "p_bob" "2024-05-02T10:00:00.000Z") "p_bob"
              (sample_store false) sample_votes eq_refl eq_refl)
    as (s' & Hrun & _ & Hcount & Hothers & Hprofiles).
  exists s'. split; [exact Hrun|]. split; [exact Hcount|]. split.
  - rewrite (Hothers "p_alice") by discriminate. reflexivity.
  - rewrite (Hprofiles "p_bob"). reflexivity.
Defined.

(** X18: a vote cast today is seen by both daily checks.  After
    [addVote(v)], with [v] dated on the day of the clock,
    [hasVotedToday] of [v]'s voter and profile is true and
    [getTodayVoteCount] of the voter is one higher than before. *)
Theorem addVote_then_hasVotedToday now v V P c s vs :
  collection "votes" "votes" s = Some vs →
  Forall (λ w, has_string "createdAt" w = true) vs →
  v !! "voterId" = Some (JStr V) → v !! "profileId" = Some (JStr P) →
  v !! "createdAt" = Some (JStr c) → split_T_0 c = split_T_0 now →
  ∃ s' n, addVote v s = Some (v, s') ∧
    fst <$> hasVotedToday now V P s' = Some true ∧
    fst <$> getTodayVoteCount now V s = Some n ∧
    fst <$> getTodayVoteCount now V s' = Some (n + 1).
Proof.
  intros H Htyped HV HP Hc Hday.
  destruct (create_run "votes" "votes" v (addVote v) s vs eq_refl H)
    as (s' & Hrun & Hafter & _).
  assert (Forall (λ w, has_string "createdAt" w = true) (vs ++ [v])) as Htyped'.
  { apply Forall_app. split; [done|]. constructor; [|done].
    unfold has_string. by rewrite Hc. }
  assert (startsWith c (split_T_0 now) = true) as Hstart
    by (rewrite <- Hday; apply split_T_0_prefix).
  eexists s', _. split; [done|]. split; [|split].
  - rewrite (hasVotedToday_run now V P s' _ Hafter Htyped'). f_equal.
    rewrite existsb_app. apply orb_true_iff. right. simpl.
    unfold voted_on, is_str. rewrite HV, HP, Hc, !String.eqb_refl. simpl.
    by rewrite Hstart.
  - by apply getTodayVoteCount_run.
  - rewrite (getTodayVoteCount_run now V s' _ Hafter Htyped'). f_equal.
    rewrite List.filter_app, length_app. simpl.
    unfold voted_today at 2. unfold is_str. rewrite HV, Hc, String.eqb_refl. simpl.
    rewrite Hstart. simpl. lia.
Qed.

Lemma addVote_then_hasVotedToday_witness :
  collection "votes" "votes" (sample_store true) = Some sample_votes ∧
  Forall (λ w, has_string "createdAt" w = true) sample_votes ∧
  split_T_0 "2024-05-02T10:00:00.000Z" = split_T_0 "2024-05-02T10:00:00.500Z" ∧
  ∃ s', addVote (vote "v2" "p_alice" "2024-05-02T10:00:00.000Z") (sample_store true)
        = Some (vote "v2" "p_alice" "2024-05-02T10:00:00.000Z", s') ∧
        fst <$> hasVotedToday "2024-05-02T10:00:00.500Z" "v2" "p_alice" s' = Some true ∧
        fst <$> getTodayVoteCount "2024-05-02T10:00:00.500Z" "v2" s' = Some 1.
Proof.
  split; [reflexivity|]. split; [exact sample_votes_typed|]. split; [reflexivity|].
  destruct (addVote_then_hasVotedToday "2024-05-02T10:00:00.500Z"
              (vote "v2" "p_alice" "2024-05-02T10:00:00.000Z") "v2" "p_alice"
              "2024-05-02T10:00:00.000Z" (sample_store true) sample_votes
              eq_refl sample_votes_typed eq_refl eq_refl eq_refl eq_refl)
    as (s' & n & Hrun & Hvoted & Hbefore & Hafter).
  exists s'. split; [exact Hrun|]. split; [exact Hvoted|].
  rewrite Hafter. injection Hbefore as <-. reflexivity.
Defined.

(** X19: the daily count against the daily check.  For stored votes whose
    [createdAt] is a string, [getTodayVoteCount(voter)] is between 0 and
    the number of stored votes; it is at least 1 when [hasVotedToday] is
    true for the voter and some profile, so that a count of 0 means
    [hasVotedToday] is false for every profile; and when every vote names
    its profile, [hasVotedToday] false for every profile means a count of
    0. *)
Theorem getTodayVoteCount_hasVotedToday now V s vs :
  collection "votes" "votes" s = Some vs →
  Forall (λ v, has_string "createdAt" v = true) vs →
  ∃ n s', getTodayVoteCount now V s = Some (n, s') ∧
    0 <= n <= Z.of_nat (length vs) ∧
    (∀ P, fst <$> hasVotedToday now V P s = Some true → 1 <= n) ∧
    (n = 0 → ∀ P, fst <$> hasVotedToday now V P s = Some false) ∧
    (Forall (λ v, has_string "profileId" v = true) vs →
     (∀ P, fst <$> hasVotedToday now V P s = Some false) → n = 0).
Proof.
  intros H Htyped.
  pose proof (getTodayVoteCount_run now V s vs H Htyped) as Hrun.
  destruct (getTodayVoteCount now V s) as [[n s']|] eqn:Hn; [|done].
  simpl in Hrun. injection Hrun as Hrun. exists n, s'. split; [done|].
  set (today := split_T_0 now) in *.
  assert (∀ P, existsb (λ v, default false (voted_on today V P v)) vs = true → 1 <= n)
    as Hone.
  { intros P Hex. apply existsb_exists in Hex as (v & Hin & Hv).
    assert (default false (voted_today today V v) = true) as Hv'.
    { destruct (voted_on today V P v) as [[]|] eqn:Hon; try done.
      by rewrite (voted_on_today _ _ _ _ Hon). }
    rewrite Hrun.
    assert (In v (List.filter (λ v, default false (voted_today today V v)) vs)) as Hf
      by (apply filter_In; done).
    destruct (List.filter _ vs); [done|]. simpl. lia. }
  split; [|split; [|split]].
  - rewrite Hrun. split; [lia|]. apply inj_le.
    apply filter_length_le.
  - intros P HP. rewrite (hasVotedToday_run now V P s vs H Htyped) in HP.
    injection HP as HP. by apply (Hone P).
  - intros Hz P. rewrite (hasVotedToday_run now V P s vs H Htyped). f_equal.
    destruct (existsb _ vs) eqn:Hex; [|done]. specialize (Hone P Hex). lia.
  - intros Hprof Hall. rewrite Hrun.
    destruct (List.filter _ vs) as [|v rest] eqn:Hf; [done|]. exfalso.
    assert (In v (List.filter (λ v, default false (voted_today today V v)) vs)) as Hin
      by (rewrite Hf; by left).
    apply filter_In in Hin as [Hin Hv].
    rewrite Forall_forall in Hprof. specialize (Hprof v).
    unfold has_string in Hprof.
    destruct (v !! "profileId") as [[| | |P| |]|] eqn:HP;
      try (by specialize (Hprof ltac:(by apply list_elem_of_In))).
    specialize (Hall P). rewrite (hasVotedToday_run now V P s vs H Htyped) in Hall.
    injection Hall as Hall.
    assert (existsb (λ v, default false (voted_on today V P v)) vs = true) as Hex;
      [|unfold today in Hex; congruence].
    apply existsb_exists. exists v. split; [done|].
    unfold voted_today in Hv. unfold voted_on.
    destruct (is_str (v !! "voterId") V); [|done]. simpl.
    unfold is_str at 1. by rewrite HP, String.eqb_refl.
Qed.

Lemma getTodayVoteCount_hasVotedToday_witness :
  collection "votes" "votes" (sample_store false) = Some sample_votes ∧
  Forall (λ v, has_string "createdAt" v = true) sample_votes ∧
  ∃ n s', getTodayVoteCount "2024-05-02T08:00:00.000Z" "v1" (sample_store false)
          = Some (n, s') ∧
          1 <= n <= 21.
Proof.
  split; [reflexivity|]. split; [exact sample_votes_typed|].
  destruct (getTodayVoteCount_hasVotedToday "2024-05-02T08:00:00.000Z" "v1"
              (sample_store false) sample_votes eq_refl sample_votes_typed)
    as (n & s' & Hrun & [_ Hmax] & Hone & _).
  exists n, s'. split; [exact Hrun|]. split; [|exact Hmax].
  apply (Hone "p_bob"). reflexivity.
Defined.

(** ** Ranks *)

Lemma Rank_level_calculateRank v :
  Rank_level (calculateRank v)
  = (Nat.b2n (20 <=? v)%Z + Nat.b2n (50 <=? v)%Z + Nat.b2n (100 <=? v)%Z
     + Nat.b2n (200 <=? v)%Z + Nat.b2n (500 <=? v)%Z + Nat.b2n (1000 <=? v)%Z)%nat.
Proof.
  unfold calculateRank. rewrite !Z.geb_leb.
  repeat match goal with
         | |- context [?a <=? v] => destruct (Z.leb_spec a v)
         end; simpl; try reflexivity; lia.
Qed.

Lemma Rank_level_mono v w :
  v <= w → (Rank_level (calculateRank v) ≤ Rank_level (calculateRank w))%nat.
Proof.
  intros Hle. rewrite !Rank_level_calculateRank.
  repeat match goal with
         | |- context [?a <=? ?x] => destruct (Z.leb_spec a x)
         end; simpl; lia.
Qed.

(** X20: more votes never give a lower rank: for [v <= w] the rank of [w]
    is the rank of [v] or a higher tier. *)
Theorem calculateRank_monotone v w :
  v <= w →
  (Rank_level (calculateRank v) ≤ Rank_level (calculateRank w))%nat ∧
  (calculateRank v = calculateRank w ∨
   Rank_level (calculateRank v) < Rank_level (calculateRank w))%nat.
Proof.
  intros Hle. pose proof (Rank_level_mono v w Hle) as Hm. split; [done|].
  destruct (decide (Rank_level (calculateRank v) = Rank_level (calculateRank w))) as [E|E].
  - left. by destruct (calculateRank v), (calculateRank w).
  - right. lia.
Qed.

Lemma calculateRank_monotone_witness :
  19 <= 20 ∧ (Rank_level (calculateRank 19) ≤ Rank_level (calculateRank 20))%nat.
Proof.
  assert (19 <= 20) as Hle by discriminate.
  split; [exact Hle|]. exact (proj1 (calculateRank_monotone 19 20 Hle)).
Defined.

(** ** Recounting *)

Lemma findIndex_None_inv {A} (f : A → bool) l :
  findIndex f l = None → Forall (λ x, f x = false) l.
Proof.
  induction l as [|x l IH]; simpl; [constructor|].
  destruct (f x) eqn:Hx; [done|]. destruct (findIndex f l); [done|].
  intros _. constructor; [done|]. by apply IH.
Qed.

Lemma findIndex_cases {A} (f : A → bool) l :
  Forall (λ x, f x = false) l ∨ ∃ i x, first_with f l i x.
Proof.
  destruct (findIndex f l) as [i|] eqn:Hi.
  - right. exists i. by apply findIndex_Some.
  - left. by apply findIndex_None_inv.
Qed.

Lemma updateProfileVotesAndRank_run now id s vs :
  collection "votes" "votes" s = Some vs →
  updateProfileVotesAndRank now id s
  = updateProfile now id
      {[ "votes" := JNum (Z.of_nat (length (votes_for id vs)));
         "rank" := JStr (Rank_string (calculateRank (Z.of_nat (length (votes_for id vs))))) ]}
      (snd (readData "votes" (collection_doc "votes" []) s)).
Proof.
  intros Hv. unfold updateProfileVotesAndRank. unfold bind at 1.
  by rewrite (getVotesForProfile_run id s vs Hv).
Qed.

Lemma stamp_again (U old : entity) now now' :
  <["updatedAt" := JStr now']> (U ∪ <["updatedAt" := JStr now]> (U ∪ old))
  = <["updatedAt" := JStr now']> (U ∪ old).
Proof.
  apply map_eq. intros k. destruct (decide (k = "updatedAt")) as [->|Hk].
  - by rewrite !lookup_insert_eq.
  - rewrite !lookup_insert_ne by done. rewrite !lookup_union.
    rewrite lookup_insert_ne by done. rewrite lookup_union.
    by destruct (U !! k), (old !! k).
Qed.

(** X21: recounting twice is recounting once.  A second
    [updateProfileVotesAndRank(id)] returns, and leaves stored, what a
    single call at the time of the second would have: only [updatedAt]
    tells that there were two, and with the same clock value the second
    call changes nothing.  The votes are untouched. *)
Theorem updateProfileVotesAndRank_again now now' id s ps vs :
  collection "profiles" "profiles" s = Some ps →
  collection "votes" "votes" s = Some vs →
  ∃ r1 s1 r2 s2 s2',
    updateProfileVotesAndRank now id s = Some (r1, s1) ∧
    updateProfileVotesAndRank now' id s1 = Some (r2, s2) ∧
    updateProfileVotesAndRank now' id s = Some (r2, s2') ∧
    collection "profiles" "profiles" s2 = collection "profiles" "profiles" s2' ∧
    collection "votes" "votes" s2 = Some vs ∧
    (now' = now → r2 = r1 ∧
       collection "profiles" "profiles" s2 = collection "profiles" "profiles" s1).
Proof.
  intros Hp Hv.
  set (U := {[ "votes" := JNum (Z.of_nat (length (votes_for id vs)));
               "rank" := JStr (Rank_string (calculateRank
                                  (Z.of_nat (length (votes_for id vs))))) ]} : entity).
  set (t := snd (readData "votes" (collection_doc "votes" []) s)).
  assert (collection "profiles" "profiles" t = Some ps) as Hpt
    by (unfold t; by rewrite collection_readData_ne).
  rewrite !(updateProfileVotesAndRank_run _ id s vs Hv). fold U t.
  destruct (findIndex_cases (id_is id) ps) as [Hno | (i & old & Hfirst)].
  - destruct (updateProfile_missing now id U t ps Hpt Hno) as (s1 & Hrun1 & Hp1 & Hf1).
    destruct (updateProfile_missing now' id U t ps Hpt Hno) as (s2' & Hrun2' & Hp2' & _).
    assert (collection "votes" "votes" s1 = Some vs) as Hv1.
    { rewrite Hf1 by done. unfold t. by rewrite collection_readData. }
    set (t1 := snd (readData "votes" (collection_doc "votes" []) s1)).
    assert (collection "profiles" "profiles" t1 = Some ps) as Hpt1
      by (unfold t1; by rewrite collection_readData_ne).
    destruct (updateProfile_missing now' id U t1 ps Hpt1 Hno) as (s2 & Hrun2 & Hp2 & Hf2).
    exists None, s1, None, s2, s2'. split; [done|].
    rewrite (updateProfileVotesAndRank_run _ id s1 vs Hv1). fold U t1.
    split; [done|]. split; [done|]. split; [congruence|]. split.
    + rewrite Hf2 by done. unfold t1. by rewrite collection_readData.
    + intros _. split; [done|congruence].
  - destruct (updateProfile_found now id U t ps i old Hpt Hfirst)
      as (s1 & Hrun1 & Hp1 & Hf1).
    destruct (updateProfile_found now' id U t ps i old Hpt Hfirst)
      as (s2' & Hrun2' & Hp2' & _).
    assert (collection "votes" "votes" s1 = Some vs) as Hv1.
    { rewrite Hf1 by done. unfold t. by rewrite collection_readData. }
    set (t1 := snd (readData "votes" (collection_doc "votes" []) s1)).
    assert (collection "profiles" "profiles" t1
            = Some (<[i := <["updatedAt" := JStr now]> (U ∪ old)]> ps)) as Hpt1
      by (unfold t1; by rewrite collection_readData_ne).
    assert (first_with (id_is id) (<[i := <["updatedAt" := JStr now]> (U ∪ old)]> ps) i
              (<["updatedAt" := JStr now]> (U ∪ old))) as Hfirst1.
    { eapply first_with_insert; [done|]. destruct Hfirst as (_ & Hid & _).
      unfold id_is in *. rewrite lookup_insert_ne by done.
      rewrite lookup_union_r; [done|]. by apply lookup_insert_None. }
    destruct (updateProfile_found now' id U t1 _ i _ Hpt1 Hfirst1)
      as (s2 & Hrun2 & Hp2 & Hf2).
    rewrite stamp_again, list_insert_insert_eq in Hp2. rewrite stamp_again in Hrun2.
    eexists _, s1, _, s2, s2'. split; [exact Hrun1|].
    rewrite (updateProfileVotesAndRank_run _ id s1 vs Hv1). fold U t1.
    split; [exact Hrun2|]. split; [exact Hrun2'|]. split; [congruence|]. split.
    + rewrite Hf2 by done. unfold t1. by rewrite collection_readData.
    + intros ->. split; [done|congruence].
Qed.

Lemma updateProfileVotesAndRank_again_witness :
  collection "profiles" "profiles" (sample_store true) = Some [alice; bob] ∧
  collection "votes" "votes" (sample_store true) = Some sample_votes ∧
  ∃ r s1 s2,
    updateProfileVotesAndRank "2024-05-02T08:00:00.000Z" "p_alice" (sample_store true)
    = Some (r, s1) ∧
    updateProfileVotesAndRank "2024-05-02T08:00:00.000Z" "p_alice" s1 = Some (r, s2) ∧
    collection "profiles" "profiles" s2 = collection "profiles" "profiles" s1.
Proof.
  split; [reflexivity|]. split; [reflexivity|].
  destruct (updateProfileVotesAndRank_again "2024-05-02T08:00:00.000Z"
              "2024-05-02T08:00:00.000Z" "p_alice" (sample_store true)
              [alice; bob] sample_votes eq_refl eq_refl)
    as (r1 & s1 & r2 & s2 & s2' & Hrun1 & Hrun2 & _ & _ & _ & Hsame).
  destruct (Hsame eq_refl) as [-> Hstored].
  exists r1, s1, s2. split; [exact Hrun1|]. split; [exact Hrun2 | exact Hstored].
Defined.

(** X22: voting, then recounting.  After [addVote(v)] the profile [v]
    names still carries its old [votes] and [rank];
    [updateProfileVotesAndRank] of it then stores and returns it with
    [votes] one above the count before the vote and the rank of that
    number, which is the rank of the old count or a higher tier. *)
Theorem addVote_then_recount now v P s ps vs i old :
  collection "profiles" "profiles" s = Some ps →
  collection "votes" "votes" s = Some vs →
  v !! "profileId" = Some (JStr P) →
  first_with (id_is P) ps i old →
  let count := Z.of_nat (length (votes_for P vs)) in
  ∃ s1 updated s2,
    addVote v s = Some (v, s1) ∧
    fst <$> getProfileById P s1 = Some (Some old) ∧
    updateProfileVotesAndRank now P s1 = Some (Some updated, s2) ∧
    fst <$> getProfileById P s2 = Some (Some updated) ∧
    updated !! "votes" = Some (JNum (count + 1)) ∧
    updated !! "rank" = Some (JStr (Rank_string (calculateRank (count + 1)))) ∧
    (Rank_level (calculateRank count) ≤ Rank_level (calculateRank (count + 1)))%nat.
Proof.
  intros Hp Hv HP Hfirst count.
  destruct (create_run "votes" "votes" v (addVote v) s vs eq_refl Hv)
    as (s1 & Hrun & Hafter & Hframe).
  assert (collection "profiles" "profiles" s1 = Some ps) as Hp1
    by (by rewrite Hframe).
  assert (Z.of_nat (length (votes_for P (vs ++ [v]))) = count + 1) as Hcount.
  { rewrite votes_for_app, length_app. simpl. unfold is_str. rewrite HP, String.eqb_refl.
    simpl. unfold count. lia. }
  set (t1 := snd (readData "votes" (collection_doc "votes" []) s1)).
  assert (collection "profiles" "profiles" t1 = Some ps) as Hpt1
    by (unfold t1; by rewrite collection_readData_ne).
  set (U := {[ "votes" := JNum (count + 1);
               "rank" := JStr (Rank_string (calculateRank (count + 1))) ]} : entity).
  destruct (updateProfile_found now P U t1 ps i old Hpt1 Hfirst)
    as (s2 & Hrun2 & Hp2 & _).
  exists s1, (<["updatedAt" := JStr now]> (U ∪ old)), s2.
  split; [done|]. split; [|split; [|split; [|split; [|split]]]].
  - rewrite (getProfileById_run P s1 ps Hp1). f_equal. by eapply find_first.
  - rewrite (updateProfileVotesAndRank_run now P s1 _ Hafter), Hcount. exact Hrun2.
  - rewrite (getProfileById_run P s2 _ Hp2). f_equal.
    eapply find_first. eapply first_with_insert; [done|].
    destruct Hfirst as (_ & Hid & _). unfold id_is in *.
    rewrite lookup_insert_ne by done. rewrite lookup_union_r; [done|].
    by apply lookup_insert_None.
  - rewrite lookup_insert_ne by done. apply lookup_union_Some_l.
    unfold U. by rewrite lookup_insert_eq.
  - rewrite lookup_insert_ne by done. apply lookup_union_Some_l.
    unfold U. rewrite lookup_insert_ne by done. by rewrite lookup_singleton_eq.
  - apply Rank_level_mono. lia.
Qed.

Lemma addVote_then_recount_witness :
  collection "profiles" "profiles" (sample_store false) = Some [alice; bob] ∧
  collection "votes" "votes" (sample_store false) = Some sample_votes ∧
  first_with (id_is "p_alice") [alice; bob] 0 alice ∧
  ∃ s1 updated s2,
    addVote (vote "v2" "p_alice" "2024-05-02T10:00:00.000Z") (sample_store false)
    = Some (vote "v2" "p_alice" "2024-05-02T10:00:00.000Z", s1) ∧
    fst <$> getProfileById "p_alice" s1 = Some (Some alice) ∧
    updateProfileVotesAndRank "2024-05-02T10:00:01.000Z" "p_alice" s1
    = Some (Some updated, s2) ∧
    updated !! "votes" = Some (JNum 21) ∧
    updated !! "rank" = Some (JStr "silver").
Proof.
  assert (first_with (id_is "p_alice") [alice; bob] 0 alice) as Hfirst.
  { split; [reflexivity|]. split; [reflexivity|]. intros j y Hj. lia. }
  split; [reflexivity|]. split; [reflexivity|]. split; [exact Hfirst|].
  destruct (addVote_then_recount "2024-05-02T10:00:01.000Z"
              (vote "v2" "p_alice" "2024-05-02T10:00:00.000Z") "p_alice"
              (sample_store false) [alice; bob] sample_votes 0 alice
              eq_refl eq_refl eq_refl Hfirst)
    as (s1 & updated & s2 & Hadd & Hold & Hrun & _ & Hvotes & Hrank & _).
  exists s1, updated, s2. split; [exact Hadd|]. split; [exact Hold|].
  split; [exact Hrun|]. split; [exact Hvotes | exact Hrank].
Defined.

(** * The migration script *)

Lemma migrate_file_spec accepted m kvs ok err f :
  migrate_file accepted m (kvs, ok, err) f
  = (match migrated accepted m f with Some d => <[f := d]> kvs | None => kvs end,
     (ok + if bool_decide (is_Some (migrated accepted m f)) then 1 else 0)%nat,
     (err + if bool_decide (is_Some (disk m !! f))
                && negb (bool_decide (is_Some (migrated accepted m f)))
            then 1 else 0)%nat).
Proof.
  unfold migrate_file, migrated.
  destruct (disk m !! f) as [[d|]|]; simpl; [destruct (accepted f); simpl|..];
    repeat f_equal; lia.
Qed.

Lemma migrate_files_spec accepted m l : ∀ kvs ok err,
  ∃ kvs' ok' err',
    foldl (migrate_file accepted m) (kvs, ok, err) l = (kvs', ok', err') ∧
    ok' = (ok + length (List.filter
             (λ f, bool_decide (is_Some (migrated accepted m f))) l))%nat ∧
    (ok' + err')%nat
    = (ok + err + length (List.filter
             (λ f, bool_decide (is_Some (disk m !! f))) l))%nat ∧
    ∀ k, kvs' !! k
         = match (if bool_decide (k ∈ l) then migrated accepted m k else None) with
           | Some d => Some d
           | None => kvs !! k
           end.
Proof.
  induction l as [|f l IH]; intros kvs ok err.
  - exists kvs, ok, err. simpl. repeat split; lia.
  - cbn [foldl]. rewrite migrate_file_spec.
    edestruct IH as (kvs' & ok' & err' & Hrun & Hok & Hsum & Hkv).
    exists kvs', ok', err'. split; [exact Hrun|]. split; [|split].
    + rewrite Hok. simpl.
      destruct (bool_decide (is_Some (migrated accepted m f))); simpl; lia.
    + rewrite Hsum. simpl.
      assert (is_Some (migrated accepted m f) → is_Some (disk m !! f)) as Himp.
      { unfold migrated. destruct (disk m !! f); [by eexists|by intros []]. }
      destruct (bool_decide_reflect (is_Some (migrated accepted m f))) as [Hy|Hn];
        destruct (bool_decide_reflect (is_Some (disk m !! f))) as [Hy'|Hn'];
        simpl; try lia. by destruct Hn', Himp.
    + intros k. rewrite Hkv.
      destruct (decide (k = f)) as [->|Hne].
      * rewrite (bool_decide_eq_true_2 (f ∈ f :: l)) by (by left).
        destruct (bool_decide (f ∈ l)).
        -- destruct (migrated accepted m f); [done|done].
        -- destruct (migrated accepted m f); [by rewrite lookup_insert_eq|done].
      * assert (bool_decide (k ∈ f :: l) = bool_decide (k ∈ l)) as ->.
        { apply bool_decide_ext. rewrite elem_of_cons.
          split; [by intros [?|?]|by right]. }
        destruct (if bool_decide (k ∈ l) then migrated accepted m k else None); [done|].
        destruct (migrated accepted m f); [by rewrite lookup_insert_ne|done].
Qed.

(** X23: what the migration does.  Without a token it exits before it
    reads or stores anything.  With one, [successCount] is the number of
    the five collections whose file exists, parses and is accepted by the
    remote store, [successCount + errorCount] is the number of those whose
    file exists, at most five, a missing file counting as neither; the
    remote store then holds under each of these names the parsed file, and
    it is unchanged under the names of the collections that were skipped or
    failed, and under every other key. *)
Theorem migrate_summary accepted m :
  (token m = false → migrate accepted m = None) ∧
  (token m = true →
   ∃ kvs successCount errorCount,
     migrate accepted m = Some (kvs, successCount, errorCount) ∧
     successCount
     = length (List.filter (λ f, bool_decide (is_Some (migrated accepted m f))) FILES) ∧
     (successCount + errorCount)%nat
     = length (List.filter (λ f, bool_decide (is_Some (disk m !! f))) FILES) ∧
     (successCount + errorCount ≤ 5)%nat ∧
     (∀ k d, k ∈ FILES → migrated accepted m k = Some d → kvs !! k = Some d) ∧
     (∀ k, k ∈ FILES → migrated accepted m k = None → kvs !! k = remote m !! k) ∧
     (∀ k, k ∉ FILES → kvs !! k = remote m !! k)).
Proof.
  split; intros Ht; unfold migrate; rewrite Ht; cbn [negb]; [done|].
  destruct (migrate_files_spec accepted m FILES (remote m) 0%nat 0%nat)
    as (kvs & ok & err & Hrun & Hok & Hsum & Hkv).
  exists kvs, ok, err. split; [by rewrite Hrun|]. split; [done|]. split; [done|].
  split; [|split; [|split]].
  - rewrite Hsum. simpl.
    pose proof (filter_length_le (λ f, bool_decide (is_Some (disk m !! f))) FILES) as Hle.
    simpl in Hle. lia.
  - intros k d Hin Hd. by rewrite Hkv, bool_decide_eq_true_2, Hd.
  - intros k Hin Hd. by rewrite Hkv, bool_decide_eq_true_2, Hd.
  - intros k Hin. by rewrite Hkv, bool_decide_eq_false_2.
Qed.

(** X24: running the migration again changes nothing: on the same files,
    with the remote store as the first run left it and accepting the same
    names, the second run leaves the remote store as it is and reports the
    same two counts. *)
Theorem migrate_again accepted m kvs successCount errorCount :
  migrate accepted m = Some (kvs, successCount, errorCount) →
  migrate accepted (Migration (token m) (disk m) kvs)
  = Some (kvs, successCount, errorCount).
Proof.
  unfold migrate. cbn [token disk remote]. destruct (token m); [|done].
  cbn [negb]. intros Hrun. apply (inj Some) in Hrun.
  destruct (migrate_files_spec accepted m FILES (remote m) 0%nat 0%nat)
    as (kvs1 & ok1 & err1 & Hrun1 & Hok1 & Hsum1 & Hkv1).
  rewrite Hrun in Hrun1. injection Hrun1 as <- <- <-.
  set (m' := Migration true (disk m) kvs).
  destruct (migrate_files_spec accepted m' FILES kvs 0%nat 0%nat)
    as (kvs2 & ok2 & err2 & Hrun2 & Hok2 & Hsum2 & Hkv2).
  assert (∀ f, migrated accepted m' f = migrated accepted m f) as Hmig by done.
  rewrite Hrun2. do 2 f_equal; [f_equal|].
  - apply map_eq. intros k. rewrite Hkv2, Hmig, Hkv1.
    by destruct (if bool_decide (k ∈ FILES) then migrated accepted m k else None).
  - rewrite Hok2, Hok1. done.
  - assert (ok2 = successCount) as Hok by (rewrite Hok2, Hok1; done).
    simpl in Hsum1, Hsum2. lia.
Qed.

Lemma migrate_again_witness :
  ∃ kvs,
    migrate (λ f, negb (String.eqb f "votes")) sample_migration
    = Some (kvs, 1%nat, 2%nat) ∧
    kvs !! "users" = Some (collection_doc "users" [user "u1" "Ann"]) ∧
    kvs !! "votes" = None ∧
    migrate (λ f, negb (String.eqb f "votes"))
      (Migration true (disk sample_migration) kvs)
    = Some (kvs, 1%nat, 2%nat).
Proof.
  eexists. split; [reflexivity|]. split; [reflexivity|]. split; [reflexivity|].
  apply (migrate_again (λ f, negb (String.eqb f "votes")) sample_migration).
  reflexivity.
Defined.

(** * The upload route *)

Lemma in_validTypes t :
  existsb (String.eqb t) validTypes = true ↔ t ∈ validTypes.
Proof.
  rewrite existsb_exists. split.
  - intros (x & Hin & Hx). apply String.eqb_eq in Hx as ->. by apply list_elem_of_In.
  - intros Hin. exists t. split; [by apply list_elem_of_In | apply String.eqb_refl].
Qed.

Lemma split_dot_pop_no_dot s : has_dot (split_dot_pop s) = false.
Proof.
  induction s as [|c s IH]; [done|]. simpl.
  destruct (has_dot s) eqn:Hs; [done|].
  destruct (Ascii.eqb c ".") eqn:Hc; [done|]. simpl. by rewrite Hc, Hs.
Qed.

(** X25: the route stores nothing it has not validated.  Whatever the
    platform answers, a response with status 200 means that the form had a
    file of one of the four image types and of at most 5242880 bytes, and
    that this file went either to the blob store, in one request under its
    own name, the response carrying the blob's url, or into the uploads
    directory under a generated name that keeps only what follows the last
    dot of its name, the response carrying the matching [/uploads/] url.
    A form without a file, a file of another type and a file that is too
    large are answered 400, in this order of the checks, and leave
    everything as it was; the only other status is 500. *)
Theorem POST_validates p env w :
  let r := fst (POST p env w) in
  let w' := snd (POST p env w) in
  (status r = 200 →
     ∃ file, formData p = Some (Some file) ∧
       file_type file ∈ validTypes ∧ file_size file <= 5242880 ∧
       ((∃ url, put_url p = Some url ∧ body r !! "url" = Some (JStr url) ∧
           blobRequests w' = blobRequests w ++ [(file_name file, file)] ∧
           uploaded w' = uploaded w ∧ uploadDirExists w' = uploadDirExists w) ∨
        (∃ filename,
           filename = "avatar_" +:+ Date_now p +:+ "_" +:+ Math_random p +:+ "."
                      +:+ split_dot_pop (file_name file) ∧
           body r !! "url" = Some (JStr ("/uploads/" +:+ filename)) ∧
           uploaded w' = <["public/uploads/" +:+ filename := file_content file]> (uploaded w) ∧
           uploadDirExists w' = true ∧ blobRequests w' = blobRequests w))) ∧
  (formData p = Some None →
     r = Response 400 {[ "error" := JStr "No file uploaded" ]} ∧ w' = w) ∧
  (∀ file, formData p = Some (Some file) → file_type file ∉ validTypes →
     r = Response 400 {[ "error" := JStr "Invalid file type" ]} ∧ w' = w) ∧
  (∀ file, formData p = Some (Some file) → file_type file ∈ validTypes →
     5242880 < file_size file →
     r = Response 400 {[ "error" := JStr "File too large (max 5MB)" ]} ∧ w' = w) ∧
  (status r = 200 ∨ status r = 400 ∨ r = upload_failed).
Proof.
  unfold POST. destruct (formData p) as [[file|]|] eqn:Hform.
  2:{ simpl. split; [by intros [=]|]. split; [done|]. split; [by intros f [=]|].
      split; [by intros f [=]|]. right. by left. }
  2:{ simpl. split; [by intros [=]|]. split; [by intros [=]|].
      split; [by intros f [=]|]. split; [by intros f [=]|]. right. by right. }
  destruct (existsb (String.eqb (file_type file)) validTypes) eqn:Htype; cbn [negb].
  2:{ simpl. split; [by intros [=]|]. split; [done|]. split; [done|]. split; [|auto].
      intros f [= <-] Hin. apply in_validTypes in Hin. congruence. }
  apply in_validTypes in Htype.
  destruct (5 * 1024 * 1024 <? file_size file) eqn:Hsize.
  { apply Z.ltb_lt in Hsize. simpl. split; [by intros [=]|]. split; [done|].
    split; [by intros f [= <-] Hnot|]. split; [|auto]. by intros f [= <-]. }
  apply Z.ltb_ge in Hsize.
  assert (∀ r0 w0,
    (∀ f, Some (Some file) = Some (Some f) → file_type f ∉ validTypes →
       r0 = Response 400 {[ "error" := JStr "Invalid file type" ]} ∧ w0 = w) ∧
    (∀ f, Some (Some file) = Some (Some f) → file_type f ∈ validTypes →
       5242880 < file_size f →
       r0 = Response 400 {[ "error" := JStr "File too large (max 5MB)" ]} ∧ w0 = w))
    as Hvalid.
  { intros r0 w0. split; intros f [= <-]; [done|]. intros _ Hbig. lia. }
  destruct ((bool_decide _ || bool_decide _) && _).
  - destruct (put_url p) as [url|] eqn:Hput; simpl.
    + split; [|split; [done|]; split; [apply Hvalid|]; split; [apply Hvalid|auto]].
      intros _. exists file. split; [done|]. split; [done|]. split; [lia|].
      left. exists url. by repeat split.
    + split; [by intros [=]|]. split; [done|]. split; [apply Hvalid|].
      split; [apply Hvalid|auto].
  - destruct (arrayBuffer_ok p); cbn [negb].
    2:{ simpl. split; [by intros [=]|]. split; [done|]. split; [apply Hvalid|].
        split; [apply Hvalid|auto]. }
    destruct (negb (uploadDirExists w) && negb (mkdir_ok p)).
    { simpl. split; [by intros [=]|]. split; [done|]. split; [apply Hvalid|].
      split; [apply Hvalid|auto]. }
    destruct (writeFile_ok p); cbn [negb].
    2:{ simpl. split; [by intros [=]|]. split; [done|]. split; [apply Hvalid|].
        split; [apply Hvalid|auto]. }
    simpl.
    split; [|split; [done|]; split; [apply Hvalid|]; split; [apply Hvalid|auto]].
    intros _. exists file. split; [done|]. split; [done|]. split; [lia|].
    right. eexists. split; [reflexivity|]. by repeat split.
Qed.

(** X26: an upload by a local process.  With no [VERCEL] variables, a
    readable valid file is written into the uploads directory, which is
    created when it is missing; the name it gets starts with [avatar_] and
    ends with what follows the last dot of the client's file name, which
    has no dot in it; two uploads of the same file at different times, or
    with different random parts, get different paths, so neither
    overwrites the other. *)
Theorem POST_local p env w file :
  VERCEL env = None → VERCEL_ENV env = None →
  formData p = Some (Some file) →
  file_type file ∈ validTypes → file_size file <= 5242880 →
  arrayBuffer_ok p = true → mkdir_ok p = true → writeFile_ok p = true →
  let filename := "avatar_" +:+ Date_now p +:+ "_" +:+ Math_random p +:+ "."
                  +:+ split_dot_pop (file_name file) in
  POST p env w
  = (upload_successful ("/uploads/" +:+ filename),
     Uploads (blobRequests w) true
       (<["public/uploads/" +:+ filename := file_content file]> (uploaded w))) ∧
  has_dot (split_dot_pop (file_name file)) = false ∧
  (∀ q, String.length (Date_now q) = String.length (Date_now p) →
        (Date_now q, Math_random q) ≠ (Date_now p, Math_random p) →
        "avatar_" +:+ Date_now q +:+ "_" +:+ Math_random q +:+ "."
          +:+ split_dot_pop (file_name file) ≠ filename).
Proof.
  intros HV HE Hform Htype Hsize Hbuf Hmk Hwr filename. split; [|split].
  - unfold POST. rewrite Hform.
    apply in_validTypes in Htype. rewrite Htype. simpl.
    replace (5 * 1024 * 1024 <? file_size file) with false
      by (symmetry; apply Z.ltb_ge; lia).
    rewrite HV, HE, Hbuf, Hmk, Hwr. simpl. rewrite andb_false_r. reflexivity.
  - apply split_dot_pop_no_dot.
  - intros q Hlen Hne Heq. unfold filename in Heq.
    apply (inj (String.app "avatar_")) in Heq.
    assert (Date_now q = Date_now p ∧
            "_" +:+ Math_random q +:+ "." +:+ split_dot_pop (file_name file)
            = "_" +:+ Math_random p +:+ "." +:+ split_dot_pop (file_name file)) as [Hn Hr].
    { revert Heq Hlen. generalize (Date_now q) (Date_now p). clear.
      induction s as [|c s IH]; intros [|c' s'] Heq Hlen; simpl in *; try done.
      injection Heq as -> Heq. destruct (IH s' Heq) as [-> Hrest]; [lia|]. done. }
    apply (inj (String.app "_")) in Hr. apply append_inj_r in Hr.
    apply Hne. by rewrite Hn, Hr.
Qed.

Lemma POST_local_witness :
  formData photo_request = Some (Some photo) ∧
  file_type photo ∈ validTypes ∧ file_size photo <= 5242880 ∧
  POST photo_request
    {| VERCEL := None; VERCEL_ENV := None; BLOB_READ_WRITE_TOKEN := None |}
    (Uploads [] false ∅)
  = (upload_successful "/uploads/avatar_1714640400000_k3j9x0q1z.jpg",
     Uploads [] true {[ "public/uploads/avatar_1714640400000_k3j9x0q1z.jpg" := "JFIF" ]}).
Proof.
  assert (file_type photo ∈ validTypes) as Htype by (by left).
  assert (file_size photo <= 5242880) as Hsize by discriminate.
  split; [reflexivity|]. split; [exact Htype|]. split; [exact Hsize|].
  exact (proj1 (POST_local photo_request
    {| VERCEL := None; VERCEL_ENV := None; BLOB_READ_WRITE_TOKEN := None |}
    (Uploads [] false ∅) photo eq_refl eq_refl eq_refl Htype Hsize
    eq_refl eq_refl eq_refl)).
Defined.
